(** * Vegetation scattering and instance streaming: a shallow embedding

    The development follows [RandomGenerator.h] (spatial hash grid, gradient
    noise, vegetation generator), [Rocks.h] and [HybridGrassField.h] (chunk
    organisation, culling, LOD selection, instance buffers) and the
    conversion helper of [Game.cpp].

    Numbers.  A C++ [float] is read as an exact rational ([Q]): rounding,
    infinities and NaN are not part of the model, and a division by zero
    yields [0] as in [Qdiv].  A C++ [int] is read as an unbounded [Z]
    (signed overflow is undefined behaviour in the source); [%] and [/]
    on [int] are [Z.rem] and [Z.quot], and the cast [(int)f] truncates
    toward zero.

    Library code.  [std::mt19937], the standard distributions,
    [std::shuffle] and the [<cmath>] functions that have no rational
    counterpart are implementation-defined or transcendental; they are
    gathered in the record [Platform] and every function below takes the
    platform as its first argument. *)

From Stdlib Require Import String.
From stdpp Require Import base list.
From Stdlib Require Import ZArith QArith Qround Qabs Reals Qreals Lia Lra Psatz.

Local Open Scope Z_scope.
Local Open Scope Q_scope.

(* ===================================================================== *)
(** ** Float and int primitives *)
(* ===================================================================== *)

(** [a < b] on floats. *)
Definition fltb (a b : Q) : bool := negb (Qle_bool b a).

(** [a <= b] on floats. *)
Definition fleb (a b : Q) : bool := Qle_bool a b.

(** [(int)f]: truncation toward zero. *)
Definition int_of_float (f : Q) : Z := Z.quot (Qnum f) (Zpos (Qden f)).

(** [(float)i]. *)
Definition float_of_int (i : Z) : Q := inject_Z i.

(** [std::ceil] and [std::floor], still floats. *)
Definition ceilf (f : Q) : Q := inject_Z (Qceiling f).
Definition floorf (f : Q) : Q := inject_Z (Qfloor f).

(** [std::max(a, b)] is [(a < b) ? b : a]; [std::min(a, b)] is
    [(b < a) ? b : a]. *)
Definition fmax (a b : Q) : Q := if fltb a b then b else a.
Definition fmin (a b : Q) : Q := if fltb b a then b else a.

(** [std::clamp(v, lo, hi)]. *)
Definition fclamp (v lo hi : Q) : Q :=
  if fltb v lo then lo else if fltb hi v then hi else v.

(** [std::clamp] on [int]. *)
Definition iclamp (v lo hi : Z) : Z :=
  if (v <? lo)%Z then lo else if (hi <? v)%Z then hi else v.

(** The literal [3.14159265f]. *)
Definition PI_f : Q := 314159265 # 100000000.

(** [v[i]] for a vector of vectors: the bucket at index [i].  An index
    outside the vector is undefined behaviour in the source; here it reads
    an empty bucket. *)
Definition bucket {A : Type} (v : list (list A)) (i : Z) : list A :=
  if (i <? 0)%Z then [] else default [] (v !! Z.to_nat i).

(** [v[i].push_back(a)]; an index outside the vector leaves [v] as it is. *)
Definition push_at {A : Type} (i : Z) (a : A) (v : list (list A)) : list (list A) :=
  if (i <? 0)%Z then v else alter (fun b => b ++ [a]) (Z.to_nat i) v.

(** [v[i][j]] and [v[i][j].push_back(a)] for a vector of vectors of
    vectors. *)
Definition bucket2 {A : Type} (v : list (list (list A))) (i j : Z) : list A :=
  if (i <? 0)%Z then [] else bucket (default [] (v !! Z.to_nat i)) j.

Definition push_at2 {A : Type} (i j : Z) (a : A) (v : list (list (list A)))
    : list (list (list A)) :=
  if (i <? 0)%Z then v else alter (push_at j a) (Z.to_nat i) v.

(** [v.resize(n, d)]: the first [n] elements are kept, missing ones are
    filled with [d]. *)
Definition resize_vec {A : Type} (n : nat) (d : A) (v : list A) : list A :=
  take n v ++ replicate (n - length v) d.

Module Vec2.
Record t : Type := mk { x : Q; y : Q }.
End Vec2.

Module Vec3.
Record t : Type := mk { x : Q; y : Q; z : Q }.
End Vec3.

(* ===================================================================== *)
(** ** The platform: random engine, distributions, shuffle, libm *)
(* ===================================================================== *)

Record Platform : Type := {
  (** state of a [std::mt19937] *)
  mt19937 : Type;
  (** [std::mt19937 rng(seed)] / [rng.seed(seed)] *)
  mt_seed : Z -> mt19937;
  (** [std::uniform_real_distribution<float>(a, b)(rng)] *)
  uniform_real : Q -> Q -> mt19937 -> Q * mt19937;
  (** [std::uniform_int_distribution<int>(a, b)(rng)] *)
  uniform_int : Z -> Z -> mt19937 -> Z * mt19937;
  (** [std::shuffle(first, last, rng)] *)
  std_shuffle : forall A : Type, list A -> mt19937 -> list A * mt19937;
  sqrtf : Q -> Q;
  atanf : Q -> Q;
  cosf : Q -> Q;
  sinf : Q -> Q;
  powf : Q -> Q -> Q
}.

Arguments std_shuffle _ {A} _ _.

(* ===================================================================== *)
(** ** RandomGenerator.h: data *)
(* ===================================================================== *)

Inductive VegetationType : Type := Grass | Rock.

Definition VegetationType_eqb (a b : VegetationType) : bool :=
  match a, b with
  | Grass, Grass | Rock, Rock => true
  | _, _ => false
  end.

Module VegetationItem.
Record t : Type := mk {
  position : Vec3.t;
  rotationY : Q;
  scale : Q;
  typeIndex : Z;
  type : VegetationType;
  radius : Q
}.
End VegetationItem.

Module ClusterConfig.
Record t : Type := mk {
  probability : Q;
  minItems : Z;
  maxItems : Z;
  radius : Q;
  falloff : Q
}.
End ClusterConfig.

Module VegetationConfig.
Record t : Type := mk {
  density : Q;
  minPointSpacing : Q;
  rockProbability : Q;
  noiseInfluence : Q;
  noiseScale : Q;
  grassMinScale : Q;
  grassMaxScale : Q;
  grassRadius : Q;
  grassCluster : ClusterConfig.t;
  rockMinScale : Q;
  rockMaxScale : Q;
  rockRadius : Q;
  rockCluster : ClusterConfig.t;
  minSlope : Q;
  maxSlope : Q;
  minHeight : Q;
  maxHeight : Q
}.

(** The default member initialisers followed by the constructor body. *)
Definition default : t := {|
  density := 1 # 2;
  minPointSpacing := 2;
  rockProbability := 15 # 100;
  noiseInfluence := 4 # 10;
  noiseScale := 2 # 100;
  grassMinScale := 8 # 10;
  grassMaxScale := 12 # 10;
  grassRadius := 3 # 10;
  grassCluster := ClusterConfig.mk (6 # 10) 5 15 3 (15 # 10);
  rockMinScale := 1 # 2;
  rockMaxScale := 2;
  rockRadius := 1;
  rockCluster := ClusterConfig.mk (4 # 10) 2 5 4 2;
  minSlope := 0;
  maxSlope := 45;
  minHeight := - (1000);
  maxHeight := 1000
|}.
End VegetationConfig.

(* ===================================================================== *)
(** ** SpatialHashGrid *)
(* ===================================================================== *)

Module SpatialHashGrid.
Record t : Type := mk {
  cellSize : Q;
  offsetX : Q;
  offsetZ : Q;
  gridWidth : Z;
  gridHeight : Z;
  cells : list (list VegetationItem.t)
}.

(** Default member initialisers. *)
Definition new : t := mk 5 0 0 0%Z 0%Z [].

(** [init]: every member is overwritten; [cells.clear()] followed by
    [cells.resize(n)] leaves [n] empty buckets. *)
Definition init (worldSizeX worldSizeZ cellSize : Q) (g : t) : t :=
  let gridWidth := (int_of_float (ceilf (worldSizeX / cellSize)) + 1)%Z in
  let gridHeight := (int_of_float (ceilf (worldSizeZ / cellSize)) + 1)%Z in
  {| cellSize := cellSize;
     offsetX := worldSizeX * (1 # 2);
     offsetZ := worldSizeZ * (1 # 2);
     gridWidth := gridWidth;
     gridHeight := gridHeight;
     cells := replicate (Z.to_nat (gridWidth * gridHeight)) [] |}.

Definition out_of_grid (g : t) (cellX cellZ : Z) : bool :=
  (cellX <? 0)%Z || (gridWidth g <=? cellX)%Z
  || (cellZ <? 0)%Z || (gridHeight g <=? cellZ)%Z.

(** [getCellIndex]: linear index, or [-1] out of bounds. *)
Definition getCellIndex (g : t) (x z : Q) : Z :=
  let cellX := int_of_float ((x + offsetX g) / cellSize g) in
  let cellZ := int_of_float ((z + offsetZ g) / cellSize g) in
  if out_of_grid g cellX cellZ then (-1)%Z
  else (cellZ * gridWidth g + cellX)%Z.

(** [insert]: out-of-range indices drop the item. *)
Definition insert (item : VegetationItem.t) (g : t) : t :=
  let cellIdx :=
    getCellIndex g (Vec3.x (VegetationItem.position item))
                   (Vec3.z (VegetationItem.position item)) in
  if (0 <=? cellIdx)%Z && (cellIdx <? Z.of_nat (length (cells g)))%Z
  then {| cellSize := cellSize g; offsetX := offsetX g; offsetZ := offsetZ g;
          gridWidth := gridWidth g; gridHeight := gridHeight g;
          cells := push_at cellIdx item (cells g) |}
  else g.

(** The test of the innermost loop body of [checkOverlap]. *)
Definition overlaps (x z radius : Q) (item : VegetationItem.t) : bool :=
  let distX := Vec3.x (VegetationItem.position item) - x in
  let distZ := Vec3.z (VegetationItem.position item) - z in
  let distSq := distX * distX + distZ * distZ in
  let minDist := VegetationItem.radius item + radius in
  fltb distSq (minDist * minDist).

(** The [(dx, dz)] pairs in the order of the two nested loops. *)
Definition neighbourhood : list (Z * Z) :=
  dz ← [-1; 0; 1]%Z; dx ← [-1; 0; 1]%Z; [(dx, dz)].

(** [checkOverlap]: [true] at the first overlapping item of the 3x3
    neighbourhood. *)
Definition checkOverlap (g : t) (x z radius : Q) : bool :=
  let centerCellX := int_of_float ((x + offsetX g) / cellSize g) in
  let centerCellZ := int_of_float ((z + offsetZ g) / cellSize g) in
  existsb (fun d : Z * Z =>
    let cellX := (centerCellX + fst d)%Z in
    let cellZ := (centerCellZ + snd d)%Z in
    if out_of_grid g cellX cellZ then false
    else existsb (overlaps x z radius)
                 (bucket (cells g) (cellZ * gridWidth g + cellX)))
    neighbourhood.
End SpatialHashGrid.

(* ===================================================================== *)
(** ** NoiseGenerator *)
(* ===================================================================== *)

Module NoiseGenerator.
(** [int perm[512]]. *)
Record t : Type := mk { perm : list Z }.

Definition at_ (n : t) (i : Z) : Z := default 0%Z (perm n !! Z.to_nat i).

(** The constructor: identity table, seeded shuffle of the first 256
    entries, then the copy into the upper half. *)
Definition new (P : Platform) (seed : Z) : t :=
  let rng := mt_seed P seed in
  let p := fst (std_shuffle P (seqZ 0 256) rng) in
  mk (p ++ p).

Definition fade (t : Q) : Q := t * t * t * (t * (t * 6 - 15) + 10).
Definition lerp (t a b : Q) : Q := a + t * (b - a).

Definition grad (hash : Z) (x y : Q) : Q :=
  let h := Z.land hash 3 in
  let u := if (h <? 2)%Z then x else y in
  let v := if (h <? 2)%Z then y else x in
  (if (Z.land h 1 =? 0)%Z then u else - u)
  + (if (Z.land h 2 =? 0)%Z then 2 * v else - (2) * v).

Definition noise2D (n : t) (x y : Q) : Q :=
  let X := Z.land (Qfloor x) 255 in
  let Y := Z.land (Qfloor y) 255 in
  let x := x - floorf x in
  let y := y - floorf y in
  let u := fade x in
  let v := fade y in
  let A := (at_ n X + Y)%Z in
  let AA := at_ n A in
  let AB := at_ n (A + 1) in
  let B := (at_ n (X + 1) + Y)%Z in
  let BA := at_ n B in
  let BB := at_ n (B + 1) in
  lerp v
    (lerp u (grad (at_ n AA) x y) (grad (at_ n BA) (x - 1) y))
    (lerp u (grad (at_ n AB) x (y - 1)) (grad (at_ n BB) (x - 1) (y - 1))).

(** The loop state of [fbm]. *)
Record acc : Type := mkacc {
  total : Q; amplitude : Q; frequency : Q; maxValue : Q
}.

Definition fbm_step (n : t) (x y persistence : Q) (a : acc) : acc :=
  {| total := total a + noise2D n (x * frequency a) (y * frequency a) * amplitude a;
     maxValue := maxValue a + amplitude a;
     amplitude := amplitude a * persistence;
     frequency := frequency a * 2 |}.

Definition fbm_loop (n : t) (x y : Q) (octaves : Z) (persistence : Q) : acc :=
  Nat.iter (Z.to_nat octaves) (fbm_step n x y persistence) (mkacc 0 1 1 0).

Definition fbm (n : t) (x y : Q) (octaves : Z) (persistence : Q) : Q :=
  let a := fbm_loop n x y octaves persistence in
  total a / maxValue a.
End NoiseGenerator.

(* ===================================================================== *)
(** ** VegetationGenerator *)
(* ===================================================================== *)

(** [HeightmapTerrain*]: [None] is the null pointer, [Some h] a terrain
    whose [sampleHeightWorld] is the pure height query [h]. *)
Definition HeightmapTerrain : Type := option (Q -> Q -> Q).

Module VegetationGenerator.
Section WithPlatform.
Variable P : Platform.

(** The members of the class. *)
Record t : Type := mk {
  terrain : HeightmapTerrain;
  config : VegetationConfig.t;
  terrainSizeX : Q;
  terrainSizeZ : Q;
  rng : mt19937 P;
  noise : NoiseGenerator.t;
  spatialGrid : SpatialHashGrid.t;
  grassItems : list VegetationItem.t;
  rockItems : list VegetationItem.t
}.

(** A default-constructed generator: [std::mt19937]'s default seed is
    5489 and the noise generator's default argument is 12345. *)
Definition new : t :=
  mk None VegetationConfig.default 0 0 (mt_seed P 5489)
     (NoiseGenerator.new P 12345) SpatialHashGrid.new [] [].

(** Assignments to single members. *)
Definition set_terrain (v : HeightmapTerrain) (s : t) : t :=
  mk v (config s) (terrainSizeX s) (terrainSizeZ s) (rng s) (noise s)
     (spatialGrid s) (grassItems s) (rockItems s).
Definition set_config (v : VegetationConfig.t) (s : t) : t :=
  mk (terrain s) v (terrainSizeX s) (terrainSizeZ s) (rng s) (noise s)
     (spatialGrid s) (grassItems s) (rockItems s).
Definition set_terrainSizeX (v : Q) (s : t) : t :=
  mk (terrain s) (config s) v (terrainSizeZ s) (rng s) (noise s)
     (spatialGrid s) (grassItems s) (rockItems s).
Definition set_terrainSizeZ (v : Q) (s : t) : t :=
  mk (terrain s) (config s) (terrainSizeX s) v (rng s) (noise s)
     (spatialGrid s) (grassItems s) (rockItems s).
Definition set_rng (v : mt19937 P) (s : t) : t :=
  mk (terrain s) (config s) (terrainSizeX s) (terrainSizeZ s) v (noise s)
     (spatialGrid s) (grassItems s) (rockItems s).
Definition set_noise (v : NoiseGenerator.t) (s : t) : t :=
  mk (terrain s) (config s) (terrainSizeX s) (terrainSizeZ s) (rng s) v
     (spatialGrid s) (grassItems s) (rockItems s).
Definition set_spatialGrid (v : SpatialHashGrid.t) (s : t) : t :=
  mk (terrain s) (config s) (terrainSizeX s) (terrainSizeZ s) (rng s) (noise s)
     v (grassItems s) (rockItems s).
Definition set_grassItems (v : list VegetationItem.t) (s : t) : t :=
  mk (terrain s) (config s) (terrainSizeX s) (terrainSizeZ s) (rng s) (noise s)
     (spatialGrid s) v (rockItems s).
Definition set_rockItems (v : list VegetationItem.t) (s : t) : t :=
  mk (terrain s) (config s) (terrainSizeX s) (terrainSizeZ s) (rng s) (noise s)
     (spatialGrid s) (grassItems s) v.

(** One draw from a freshly constructed distribution, on the member
    [rng]. *)
Definition draw_real (a b : Q) (s : t) : Q * t :=
  let '(v, g) := uniform_real P a b (rng s) in (v, set_rng g s).
Definition draw_int (a b : Z) (s : t) : Z * t :=
  let '(v, g) := uniform_int P a b (rng s) in (v, set_rng g s).

(** The slope angle in degrees that [isValidTerrainLocation] computes
    at [(x, z)]: central differences at offsets of [0.5]. *)
Definition slopeAngle (h : Q -> Q -> Q) (x z : Q) : Q :=
  let delta := 1 # 2 in
  let h1 := h (x + delta) z in
  let h2 := h (x - delta) z in
  let h3 := h x (z + delta) in
  let h4 := h x (z - delta) in
  let slopeX := (h1 - h2) / (2 * delta) in
  let slopeZ := (h3 - h4) / (2 * delta) in
  atanf P (sqrtf P (slopeX * slopeX + slopeZ * slopeZ)) * 180 / PI_f.

Definition isValidTerrainLocation (s : t) (x z : Q) : bool :=
  match terrain s with
  | None => true
  | Some h =>
      let height := h x z in
      if fltb height (VegetationConfig.minHeight (config s))
         || fltb (VegetationConfig.maxHeight (config s)) height
      then false
      else
        let a := slopeAngle h x z in
        if fltb a (VegetationConfig.minSlope (config s))
           || fltb (VegetationConfig.maxSlope (config s)) a
        then false
        else true
  end.

(** The body of the two nested loops of [generateSpawnPointsGrid]. *)
Definition spawn_cell (spacing halfX halfZ jitterAmount : Q) (gz gx : Z)
    (st : list Vec2.t * t) : list Vec2.t * t :=
  let '(points, s) := st in
  let baseX := - halfX + (float_of_int gx + (1 # 2)) * spacing in
  let baseZ := - halfZ + (float_of_int gz + (1 # 2)) * spacing in
  let '(jx, s) := draw_real (- jitterAmount) jitterAmount s in
  let x := baseX + jx in
  let '(jz, s) := draw_real (- jitterAmount) jitterAmount s in
  let z := baseZ + jz in
  let x := fclamp x (- halfX + 1) (halfX - 1) in
  let z := fclamp z (- halfZ + 1) (halfZ - 1) in
  let '(skip, s) := draw_real 0 1 s in
  if fltb skip (1 # 10) then (points, s)
  else if negb (isValidTerrainLocation s x z) then (points, s)
  else (points ++ [Vec2.mk x z], s).

Definition generateSpawnPointsGrid (s : t) : list Vec2.t * t :=
  let halfX := terrainSizeX s * (1 # 2) in
  let halfZ := terrainSizeZ s * (1 # 2) in
  let spacing := VegetationConfig.minPointSpacing (config s) in
  let spacing :=
    if fltb 0 (VegetationConfig.density (config s))
    then fmax spacing (1 / sqrtf P (VegetationConfig.density (config s)))
    else spacing in
  let gridCountX := int_of_float (ceilf (terrainSizeX s / spacing)) in
  let gridCountZ := int_of_float (ceilf (terrainSizeZ s / spacing)) in
  let jitterAmount := spacing * (4 # 10) in
  let '(points, s) :=
    foldl (fun st gz =>
             foldl (fun st gx => spawn_cell spacing halfX halfZ jitterAmount gz gx st)
                   st (seqZ 0 gridCountX))
          ([], s) (seqZ 0 gridCountZ) in
  let '(points, g) := std_shuffle P points (rng s) in
  (points, set_rng g s).

Definition determineType (s : t) (x z : Q) : VegetationType * t :=
  let rockChance := VegetationConfig.rockProbability (config s) in
  let noiseValue :=
    NoiseGenerator.fbm (noise s)
      (x * VegetationConfig.noiseScale (config s))
      (z * VegetationConfig.noiseScale (config s)) 4 (1 # 2) in
  let noiseValue := (noiseValue + 1) * (1 # 2) in
  let rockChance :=
    rockChance
    + (noiseValue - (1 # 2)) * VegetationConfig.noiseInfluence (config s) * 2 in
  let rockChance := fclamp rockChance (5 # 100) (95 # 100) in
  let '(r, s) := draw_real 0 1 s in
  (if fltb r rockChance then Rock else Grass, s).

Definition clusterConfig (s : t) (type : VegetationType) : ClusterConfig.t :=
  match type with
  | Rock => VegetationConfig.rockCluster (config s)
  | Grass => VegetationConfig.grassCluster (config s)
  end.

Definition shouldGenerateCluster (s : t) (type : VegetationType) : bool * t :=
  let '(r, s') := draw_real 0 1 s in
  (fltb r (ClusterConfig.probability (clusterConfig s type)), s').

Definition tryPlaceItem (s : t) (x z : Q) (type : VegetationType) : bool * t :=
  match terrain s with
  | None => (false, s)
  | Some h =>
      if negb (isValidTerrainLocation s x z) then (false, s)
      else
        let y := h x z in
        let '(scale, radius, typeIndex, s) :=
          match type with
          | Rock =>
              let '(scale, s) :=
                draw_real (VegetationConfig.rockMinScale (config s))
                          (VegetationConfig.rockMaxScale (config s)) s in
              let radius := VegetationConfig.rockRadius (config s) * scale in
              let '(typeIndex, s) := draw_int 0 2 s in
              (scale, radius, typeIndex, s)
          | Grass =>
              let '(scale, s) :=
                draw_real (VegetationConfig.grassMinScale (config s))
                          (VegetationConfig.grassMaxScale (config s)) s in
              let radius := VegetationConfig.grassRadius (config s) * scale in
              let '(typeIndex, s) := draw_int 0 8 s in
              (scale, radius, typeIndex, s)
          end in
        if SpatialHashGrid.checkOverlap (spatialGrid s) x z radius then (false, s)
        else
          let '(rot, s) := draw_real 0 (2 * PI_f) s in
          let item :=
            {| VegetationItem.position := Vec3.mk x y z;
               VegetationItem.rotationY := rot;
               VegetationItem.scale := scale;
               VegetationItem.typeIndex := typeIndex;
               VegetationItem.type := type;
               VegetationItem.radius := radius |} in
          let s :=
            match type with
            | Rock => set_rockItems (rockItems s ++ [item]) s
            | Grass => set_grassItems (grassItems s ++ [item]) s
            end in
          let s := set_spatialGrid (SpatialHashGrid.insert item (spatialGrid s)) s in
          (true, s)
  end.

(** One iteration of the scatter loop of [generateCluster]. *)
Definition cluster_member (centerX centerZ : Q) (type : VegetationType) (s : t) : t :=
  let cc := clusterConfig s type in
  let '(t0, s) := draw_real 0 1 s in
  let distance :=
    ClusterConfig.radius cc * (1 - powf P (1 - t0) (ClusterConfig.falloff cc)) in
  let '(j, s) := draw_real 0 1 s in
  let jitter := j * (3 # 10) + (85 # 100) in
  let distance := distance * jitter in
  let '(angle, s) := draw_real 0 (2 * PI_f) s in
  let x := centerX + cosf P angle * distance in
  let z := centerZ + sinf P angle * distance in
  let halfX := terrainSizeX s * (1 # 2) in
  let halfZ := terrainSizeZ s * (1 # 2) in
  if fltb x (- halfX) || fltb halfX x || fltb z (- halfZ) || fltb halfZ z
  then s
  else snd (tryPlaceItem s x z type).

Definition generateCluster (s : t) (centerX centerZ : Q) (type : VegetationType) : t :=
  let cc := clusterConfig s type in
  let '(itemCount, s) :=
    draw_int (ClusterConfig.minItems cc) (ClusterConfig.maxItems cc) s in
  let s := snd (tryPlaceItem s centerX centerZ type) in
  Nat.iter (Z.to_nat (itemCount - 1)) (cluster_member centerX centerZ type) s.

(** The body of the placement loop of [generate]. *)
Definition place_point (s : t) (point : Vec2.t) : t :=
  let '(type, s) := determineType s (Vec2.x point) (Vec2.y point) in
  let '(isCluster, s) := shouldGenerateCluster s type in
  if isCluster then generateCluster s (Vec2.x point) (Vec2.y point) type
  else snd (tryPlaceItem s (Vec2.x point) (Vec2.y point) type).

(** The member assignments at the head of [generate].  [rd] is the
    value that [std::random_device] returns when it is consulted. *)
Definition reset (s : t) (rd : Z) (terrain : HeightmapTerrain)
    (config : VegetationConfig.t) (terrainSizeX terrainSizeZ : Q) (seed : Z) : t :=
  let seed := if (seed =? 0)%Z then rd else seed in
  let s := set_rng (mt_seed P seed) s in
  let s := set_noise (NoiseGenerator.new P seed) s in
  let s := set_terrain terrain s in
  let s := set_config config s in
  let s := set_terrainSizeX terrainSizeX s in
  let s := set_terrainSizeZ terrainSizeZ s in
  let s := set_grassItems [] s in
  let s := set_rockItems [] s in
  let cellSize :=
    fmax (VegetationConfig.rockRadius config) (VegetationConfig.grassRadius config) * 4 in
  set_spatialGrid
    (SpatialHashGrid.init terrainSizeX terrainSizeZ cellSize (spatialGrid s)) s.

Definition generate (s : t) (rd : Z) (terrain : HeightmapTerrain)
    (config : VegetationConfig.t) (terrainSizeX terrainSizeZ : Q) (seed : Z) : t :=
  let s := reset s rd terrain config terrainSizeX terrainSizeZ seed in
  let '(spawnPoints, s) := generateSpawnPointsGrid s in
  foldl place_point s spawnPoints.
End WithPlatform.
End VegetationGenerator.

(* ===================================================================== *)
(** ** A scripted platform, used to run the model on concrete inputs *)
(* ===================================================================== *)

(** The engine state is the list of the variates of [0, 1) still to be
    delivered (an exhausted script delivers [0]); seeding looks the script
    up in a table.  The distributions scale one variate each, the shuffle
    is the Fisher-Yates loop, and the libm functions are rational
    approximations that are exact at [0]. *)
Module Script.
Definition state : Type := list Q.

Definition next (s : state) : Q * state :=
  match s with
  | [] => (0, [])
  | u :: r => (u, r)
  end.

Definition uniform_real (a b : Q) (s : state) : Q * state :=
  let '(u, r) := next s in (a + u * (b - a), r).

Definition uniform_int (a b : Z) (s : state) : Z * state :=
  let '(u, r) := next s in ((a + Qfloor (u * inject_Z (b - a + 1)))%Z, r).

Definition swap {A : Type} (i j : nat) (l : list A) : list A :=
  match l !! i, l !! j with
  | Some a, Some b => <[i := b]> (<[j := a]> l)
  | _, _ => l
  end.

Definition shuffle (A : Type) (l : list A) (s : state) : list A * state :=
  foldl (fun (st : list A * state) (i : nat) =>
           let '(j, r) := uniform_int 0 (Z.of_nat i) (snd st) in
           (swap i (Z.to_nat j) (fst st), r))
        (l, s) (seq 1 (length l - 1)).

(** Square root to 24 fractional bits. *)
Definition sqrt (q : Q) : Q :=
  Z.sqrt (Qfloor (q * inject_Z (2 ^ 48))) # (2 ^ 24).

(** [atan] on [[-1, 1]] by a quadratic correction of the chord, and by
    the reflection [atan x = pi/2 - atan (1/x)] elsewhere. *)
Definition atan_unit (q : Q) : Q :=
  (PI_f / 4) * q + (273 # 1000) * q * (1 - Qabs q).
Definition atan (q : Q) : Q :=
  if Qle_bool (Qabs q) 1 then atan_unit q
  else if Qle_bool 0 q then PI_f / 2 - atan_unit (/ q)
  else - (PI_f / 2) - atan_unit (/ q).

(** Parabolic sine on one period, cosine by a quarter-period shift. *)
Definition wrap (q : Q) : Q :=
  let k := Qfloor ((q + PI_f) / (2 * PI_f)) in q - inject_Z k * (2 * PI_f).
Definition sin (q : Q) : Q :=
  let r := wrap q in
  (4 / PI_f) * r - (4 / (PI_f * PI_f)) * r * Qabs r.
Definition cos (q : Q) : Q := sin (q + PI_f / 2).

(** Integer powers, interpolated linearly between consecutive integer
    exponents. *)
Definition pow (b e : Q) : Q :=
  let n := Qfloor e in
  let lo := Qpower b n in
  let hi := Qpower b (n + 1) in
  lo + (e - inject_Z n) * (hi - lo).

Definition platform (table : Z -> state) : Platform :=
  Build_Platform state table uniform_real uniform_int shuffle
                 sqrt atan cos sin pow.
End Script.

(* ===================================================================== *)
(** ** VegetationPresets *)
(* ===================================================================== *)

Module VegetationPresets.
Import VegetationConfig.

(** [Rocky()]: the default configuration with the members that the
    preset assigns. *)
Definition Rocky : VegetationConfig.t := {|
  density := 1 # 2;
  minPointSpacing := 25 # 10;
  rockProbability := 6 # 10;
  noiseInfluence := 3 # 10;
  noiseScale := noiseScale default;
  grassMinScale := grassMinScale default;
  grassMaxScale := grassMaxScale default;
  grassRadius := grassRadius default;
  grassCluster := ClusterConfig.mk (3 # 10) 3 8 3 (15 # 10);
  rockMinScale := 8 # 10;
  rockMaxScale := 3;
  rockRadius := rockRadius default;
  rockCluster := ClusterConfig.mk (5 # 10) 3 8 6 2;
  minSlope := minSlope default;
  maxSlope := maxSlope default;
  minHeight := minHeight default;
  maxHeight := maxHeight default
|}.
End VegetationPresets.

(* ===================================================================== *)
(** ** Rocks.h *)
(* ===================================================================== *)

(** The asset loader and the graphics device are outside the repository's
    core; what the code observes of them is: whether a model path loads
    into a usable mesh, whether a buffer creation succeeds, and whether a
    buffer maps. *)
Record Device : Type := {
  loadable : string -> bool;
  create_ok : Z -> Z -> bool;
  map_ok : Z -> Z -> bool
}.

(** One [memcpy] into a mapped instance buffer: the slot (type or group,
    LOD or type) and the number of bytes copied. *)
Record Upload : Type := mkUpload {
  up_row : Z;
  up_col : Z;
  copySize : Z
}.

Module RockInstance.
Record t : Type := mk {
  position : Vec3.t;
  rotationY : Q;
  scale : Q;
  typeIndex : Z;
  distanceToCamera : Q;
  lodLevel : Z
}.
End RockInstance.

Module RockInstanceGPU.
Record t : Type := mk {
  position : Vec3.t;
  rotationY : Q;
  scale : Q
}.
(** [sizeof(RockInstanceGPU)]: five floats. *)
Definition sizeof : Z := 20%Z.
End RockInstanceGPU.

Module RockType.
(** The name, the meshes and the texture play no part in what follows
    and are left out. *)
Record t : Type := mk {
  typeIndex : Z
}.
End RockType.

Module RockChunk.
Record t : Type := mk {
  centerPos : Vec3.t;
  instances : list RockInstance.t;
  isVisible : bool
}.
End RockChunk.

Module Rocks.
Section WithPlatform.
Variable P : Platform.
Variable D : Device.

Record t : Type := mk {
  terrainSizeX : Q;
  terrainSizeZ : Q;
  lodDistanceHigh : Q;
  lodDistanceMedium : Q;
  rockTypes : list RockType.t;
  chunks : list RockChunk.t;
  allInstances : list RockInstance.t;
  instancesByTypeLOD : list (list (list RockInstance.t));
  visibleInstancesByTypeLOD : list (list (list RockInstance.t));
  (** a created buffer is recorded by its size in bytes, [None] is the
      null pointer *)
  instanceBuffersByType : list (list (option Z));
  viewDistance : Q;
  chunkSize : Q
}.

(** Default member initialisers. *)
Definition new : t := mk 300 300 20 50 [] [] [] [] [] [] 100 32.

Definition numTypes (s : t) : Z := Z.of_nat (length (rockTypes s)).

(** [loadRockTypesWithAutoLOD]: one type is appended for each index
    below both path counts whose model loads; its [typeIndex] is the
    number of types loaded before it. *)
Definition loadRockTypesWithAutoLOD (modelPaths texturePaths : list string)
    (types : list RockType.t) : list RockType.t :=
  foldl (fun (types : list RockType.t) (path : string * string) =>
           if loadable D (fst path)
           then types ++ [RockType.mk (Z.of_nat (length types))]
           else types)
        types (zip modelPaths texturePaths).

(** The index normalisation loop of [initWithInstances]. *)
Definition clamp_typeIndex (numTypes : Z) (inst : RockInstance.t) : RockInstance.t :=
  let ti := RockInstance.typeIndex inst in
  if (ti <? 0)%Z || (numTypes <=? ti)%Z
  then
    let ti := Z.rem ti numTypes in
    let ti := if (ti <? 0)%Z then 0%Z else ti in
    RockInstance.mk (RockInstance.position inst) (RockInstance.rotationY inst)
      (RockInstance.scale inst) ti (RockInstance.distanceToCamera inst)
      (RockInstance.lodLevel inst)
  else inst.

Definition add_to_chunk (inst : RockInstance.t) (c : RockChunk.t) : RockChunk.t :=
  RockChunk.mk (RockChunk.centerPos c) (RockChunk.instances c ++ [inst])
               (RockChunk.isVisible c).

(** [organizeIntoChunks]: the chunk grid in row-major order, then every
    instance appended to the chunk of its clamped cell. *)
Definition empty_chunks (terrainSizeX terrainSizeZ chunkSize : Q) : list RockChunk.t :=
  let halfX := terrainSizeX * (1 # 2) in
  let halfZ := terrainSizeZ * (1 # 2) in
  let numChunksX := int_of_float (ceilf (terrainSizeX / chunkSize)) in
  let numChunksZ := int_of_float (ceilf (terrainSizeZ / chunkSize)) in
  cz ← seqZ 0 numChunksZ; cx ← seqZ 0 numChunksX;
  let chunkMinX := float_of_int cx * chunkSize - halfX in
  let chunkMinZ := float_of_int cz * chunkSize - halfZ in
  [RockChunk.mk
     (Vec3.mk (chunkMinX + chunkSize * (1 # 2)) 0 (chunkMinZ + chunkSize * (1 # 2)))
     [] false].

Definition chunk_index (terrainSizeX terrainSizeZ chunkSize : Q) (p : Vec3.t) : Z :=
  let halfX := terrainSizeX * (1 # 2) in
  let halfZ := terrainSizeZ * (1 # 2) in
  let numChunksX := int_of_float (ceilf (terrainSizeX / chunkSize)) in
  let numChunksZ := int_of_float (ceilf (terrainSizeZ / chunkSize)) in
  let cx := int_of_float ((Vec3.x p + halfX) / chunkSize) in
  let cz := int_of_float ((Vec3.z p + halfZ) / chunkSize) in
  let cx := iclamp cx 0 (numChunksX - 1) in
  let cz := iclamp cz 0 (numChunksZ - 1) in
  (cz * numChunksX + cx)%Z.

Definition assign_chunk (terrainSizeX terrainSizeZ chunkSize : Q)
    (chunks : list RockChunk.t) (inst : RockInstance.t) : list RockChunk.t :=
  let idx := chunk_index terrainSizeX terrainSizeZ chunkSize (RockInstance.position inst) in
  if (idx <? 0)%Z then chunks
  else alter (add_to_chunk inst) (Z.to_nat idx) chunks.

Definition organizeIntoChunks (terrainSizeX terrainSizeZ chunkSize : Q)
    (allInstances : list RockInstance.t) : list RockChunk.t :=
  foldl (assign_chunk terrainSizeX terrainSizeZ chunkSize)
        (empty_chunks terrainSizeX terrainSizeZ chunkSize) allInstances.

(** [separateInstancesByTypeAndLOD]: both tables get one row of three
    buckets per type; the persistent table then receives every instance
    whose [typeIndex] is in range. *)
Definition resize_table (n : nat) (tbl : list (list (list RockInstance.t)))
    : list (list (list RockInstance.t)) :=
  map (resize_vec 3 []) (resize_vec n [] tbl).

Definition separate_one (numTypes : Z) (tbl : list (list (list RockInstance.t)))
    (inst : RockInstance.t) : list (list (list RockInstance.t)) :=
  if (0 <=? RockInstance.typeIndex inst)%Z && (RockInstance.typeIndex inst <? numTypes)%Z
  then push_at2 (RockInstance.typeIndex inst) (RockInstance.lodLevel inst) inst tbl
  else tbl.

(** [createInstanceBuffers]: the three buffers of a type all get the
    size of the type's whole population; a type without instances, or a
    failed creation, leaves the null pointer. *)
Definition totalInstances (row : list (list RockInstance.t)) : Z :=
  foldl (fun (acc : Z) (lod : Z) => (acc + Z.of_nat (length (bucket row lod)))%Z)
        0%Z [0; 1; 2]%Z.

Definition create_row (t0 : Z) (row : list (list RockInstance.t))
    (old : list (option Z)) : list (option Z) :=
  let slots := resize_vec 3 None old in
  let total := totalInstances row in
  if (total =? 0)%Z then slots
  else
    let bufferSize := (total * RockInstanceGPU.sizeof)%Z in
    foldl (fun (slots : list (option Z)) (lod : Z) =>
             if create_ok D t0 lod
             then <[Z.to_nat lod := Some bufferSize]> slots
             else slots)
          slots [0; 1; 2]%Z.

Definition createInstanceBuffers (n : nat)
    (byTypeLOD : list (list (list RockInstance.t)))
    (buffers : list (list (option Z))) : list (list (option Z)) :=
  imap (fun (t0 : nat) (old : list (option Z)) =>
          create_row (Z.of_nat t0)
                     (default [] (byTypeLOD !! t0)) old)
       (resize_vec n [] buffers).

Definition finishInit (s : t) : t :=
  let n := length (rockTypes s) in
  let byTypeLOD :=
    foldl (separate_one (Z.of_nat n)) (resize_table n (instancesByTypeLOD s))
          (allInstances s) in
  let visible := resize_table n (visibleInstancesByTypeLOD s) in
  mk (terrainSizeX s) (terrainSizeZ s) (lodDistanceHigh s) (lodDistanceMedium s)
     (rockTypes s) (chunks s) (allInstances s) byTypeLOD visible
     (createInstanceBuffers n byTypeLOD (instanceBuffersByType s))
     (viewDistance s) (chunkSize s).

Definition initWithInstances (s : t) (rockModelPaths rockTexturePaths : list string)
    (preGeneratedInstances : list RockInstance.t) (viewDistance chunkSize : Q) : t :=
  let types := loadRockTypesWithAutoLOD rockModelPaths rockTexturePaths (rockTypes s) in
  let s :=
    mk (terrainSizeX s) (terrainSizeZ s) (lodDistanceHigh s) (lodDistanceMedium s)
       types (chunks s) (allInstances s) (instancesByTypeLOD s)
       (visibleInstancesByTypeLOD s) (instanceBuffersByType s)
       viewDistance chunkSize in
  match types with
  | [] => s
  | _ :: _ =>
      let all := map (clamp_typeIndex (Z.of_nat (length types))) preGeneratedInstances in
      let s :=
        mk (terrainSizeX s) (terrainSizeZ s) (lodDistanceHigh s) (lodDistanceMedium s)
           types
           (organizeIntoChunks (terrainSizeX s) (terrainSizeZ s) chunkSize all)
           all (instancesByTypeLOD s) (visibleInstancesByTypeLOD s)
           (instanceBuffersByType s) viewDistance chunkSize in
      finishInit s
  end.

(** [updateLODLevels]: the body of the inner loop, then the two loops. *)
Definition update_instance (high medium : Q) (cameraPos : Vec3.t)
    (inst : RockInstance.t) : RockInstance.t :=
  let dx := Vec3.x (RockInstance.position inst) - Vec3.x cameraPos in
  let dz := Vec3.z (RockInstance.position inst) - Vec3.z cameraPos in
  let d := sqrtf P (dx * dx + dz * dz) in
  let lod :=
    if fltb d high then 0%Z
    else if fltb d medium then 1%Z
    else 2%Z in
  RockInstance.mk (RockInstance.position inst) (RockInstance.rotationY inst)
    (RockInstance.scale inst) (RockInstance.typeIndex inst) d lod.

Definition updateLODLevels (cameraPos : Vec3.t) (s : t) : t :=
  mk (terrainSizeX s) (terrainSizeZ s) (lodDistanceHigh s) (lodDistanceMedium s)
     (rockTypes s)
     (map (fun c =>
             RockChunk.mk (RockChunk.centerPos c)
               (map (update_instance (lodDistanceHigh s) (lodDistanceMedium s) cameraPos)
                    (RockChunk.instances c))
               (RockChunk.isVisible c))
          (chunks s))
     (allInstances s) (instancesByTypeLOD s) (visibleInstancesByTypeLOD s)
     (instanceBuffersByType s) (viewDistance s) (chunkSize s).

Definition update (cameraPos : Vec3.t) (s : t) : t := updateLODLevels cameraPos s.

(** [performChunkCulling], first loop: every visible bucket is cleared. *)
Definition clear_visible (tbl : list (list (list RockInstance.t)))
    : list (list (list RockInstance.t)) :=
  map (map (fun _ => [])) tbl.

(** The visibility test of one chunk. *)
Definition chunk_visible (viewDistance chunkSize : Q) (cameraPos : Vec3.t)
    (c : RockChunk.t) : bool :=
  let maxDist := viewDistance + chunkSize * (1 # 2) in
  let maxDistSq := maxDist * maxDist in
  let dx := Vec3.x (RockChunk.centerPos c) - Vec3.x cameraPos in
  let dz := Vec3.z (RockChunk.centerPos c) - Vec3.z cameraPos in
  fleb (dx * dx + dz * dz) maxDistSq.

Definition collect_one (numTypes : Z) (tbl : list (list (list RockInstance.t)))
    (inst : RockInstance.t) : list (list (list RockInstance.t)) :=
  if (0 <=? RockInstance.typeIndex inst)%Z && (RockInstance.typeIndex inst <? numTypes)%Z
     && (0 <=? RockInstance.lodLevel inst)%Z && (RockInstance.lodLevel inst <? 3)%Z
  then push_at2 (RockInstance.typeIndex inst) (RockInstance.lodLevel inst) inst tbl
  else tbl.

(** Second loop: the flag of each chunk is set and the instances of a
    visible chunk are appended to their buckets. *)
Definition cull_chunk (numTypes : Z) (viewDistance chunkSize : Q) (cameraPos : Vec3.t)
    (st : list RockChunk.t * list (list (list RockInstance.t))) (c : RockChunk.t)
    : list RockChunk.t * list (list (list RockInstance.t)) :=
  let vis := chunk_visible viewDistance chunkSize cameraPos c in
  let c' := RockChunk.mk (RockChunk.centerPos c) (RockChunk.instances c) vis in
  (fst st ++ [c'],
   if vis then foldl (collect_one numTypes) (snd st) (RockChunk.instances c)
   else snd st).

Definition toGPU (inst : RockInstance.t) : RockInstanceGPU.t :=
  RockInstanceGPU.mk (RockInstance.position inst) (RockInstance.rotationY inst)
                     (RockInstance.scale inst).

(** Third loop: one [memcpy] for each non-empty visible bucket whose
    buffer exists and maps. *)
Definition upload_slot (visible : list (list (list RockInstance.t)))
    (buffers : list (list (option Z))) (t0 lod : Z) : list Upload :=
  let v := bucket2 visible t0 lod in
  match v with
  | [] => []
  | _ :: _ =>
      match default None (default [] (buffers !! Z.to_nat t0) !! Z.to_nat lod) with
      | None => []
      | Some _ =>
          let gpuInstances := map toGPU v in
          if map_ok D t0 lod
          then [mkUpload t0 lod
                  (Z.of_nat (length gpuInstances) * RockInstanceGPU.sizeof)%Z]
          else []
      end
  end.

Definition performChunkCulling (cameraPos : Vec3.t) (s : t) : t * list Upload :=
  let cleared := clear_visible (visibleInstancesByTypeLOD s) in
  let '(chunks', visible) :=
    foldl (cull_chunk (numTypes s) (viewDistance s) (chunkSize s) cameraPos)
          ([], cleared) (chunks s) in
  let uploads :=
    t0 ← seqZ 0 (numTypes s); lod ← [0; 1; 2]%Z;
    upload_slot visible (instanceBuffersByType s) t0 lod in
  (mk (terrainSizeX s) (terrainSizeZ s) (lodDistanceHigh s) (lodDistanceMedium s)
      (rockTypes s) chunks' (allInstances s) (instancesByTypeLOD s) visible
      (instanceBuffersByType s) (viewDistance s) (chunkSize s),
   uploads).

(** [draw]: nothing happens without a palette; otherwise the culling
    pass runs (the draw calls themselves change no member). *)
Definition draw (cameraPos : Vec3.t) (s : t) : t * list Upload :=
  match rockTypes s with
  | [] => (s, [])
  | _ :: _ => performChunkCulling cameraPos s
  end.
End WithPlatform.
End Rocks.

(* ===================================================================== *)
(** ** HybridGrassField.h *)
(* ===================================================================== *)

Module GrassTypeConfig.
Record t : Type := mk {
  modelPath : string;
  texturePath : string;
  weight : Q;
  name : string
}.
End GrassTypeConfig.

Module GrassGroupConfig.
Record t : Type := mk {
  groupName : string;
  groupWeight : Q;
  types : list GrassTypeConfig.t
}.
End GrassGroupConfig.

Module GrassType.
(** The mesh and the texture are opaque handles and are left out. *)
Record t : Type := mk {
  name : string;
  groupIndex : Z;
  typeIndex : Z
}.
End GrassType.

Module GrassInstanceGPU.
Record t : Type := mk {
  position : Vec3.t;
  rotationY : Q;
  scale : Q;
  windPhase : Q
}.
(** [sizeof(GrassInstanceGPU)]: six floats. *)
Definition sizeof : Z := 24%Z.
End GrassInstanceGPU.

Module GrassInstance.
Record t : Type := mk {
  position : Vec3.t;
  rotationY : Q;
  scale : Q;
  windPhase : Q;
  groupIndex : Z;
  typeIndex : Z
}.
End GrassInstance.

Module GrassGroup.
Record t : Type := mk {
  name : string;
  types : list GrassType.t;
  instancesByType : list (list GrassInstance.t);
  visibleInstancesByType : list (list GrassInstance.t);
  (** a created buffer is recorded by its size in bytes, [None] is the
      null pointer *)
  instanceBuffers : list (option Z)
}.
End GrassGroup.

Module GrassChunk.
Record t : Type := mk {
  centerPos : Vec3.t;
  instances : list GrassInstance.t;
  isVisible : bool
}.
End GrassChunk.

Module HybridGrassField.
Section WithDevice.
Variable D : Device.

Record t : Type := mk {
  terrainSizeX : Q;
  terrainSizeZ : Q;
  viewDistance : Q;
  groups : list GrassGroup.t;
  chunks : list GrassChunk.t;
  allInstances : list GrassInstance.t;
  normalizedGroupWeights : list Q;
  normalizedTypeWeights : list (list Q);
  chunkSize : Q;
  windTime : Q
}.

(** Default member initialisers. *)
Definition new : t := mk 300 300 50 [] [] [] [] [] 16 0.

(** [loadGrassGroups]: the types of a group are those whose model
    loads; a group is kept when it has at least one type. *)
Definition load_types (g : nat) (types : list GrassTypeConfig.t) : list GrassType.t :=
  foldl (fun (acc : list GrassType.t) (tc : nat * GrassTypeConfig.t) =>
           if loadable D (GrassTypeConfig.modelPath (snd tc))
           then acc ++ [GrassType.mk (GrassTypeConfig.name (snd tc))
                                     (Z.of_nat g) (Z.of_nat (fst tc))]
           else acc)
        [] (imap (fun (i : nat) (tc : GrassTypeConfig.t) => (i, tc)) types).

Definition loadGrassGroups (configs : list GrassGroupConfig.t)
    (groups : list GrassGroup.t) : list GrassGroup.t :=
  foldl (fun (groups : list GrassGroup.t) (gc : nat * GrassGroupConfig.t) =>
           let types := load_types (fst gc) (GrassGroupConfig.types (snd gc)) in
           match types with
           | [] => groups
           | _ :: _ =>
               groups ++ [GrassGroup.mk (GrassGroupConfig.groupName (snd gc))
                                        types [] [] []]
           end)
        groups (imap (fun (i : nat) (gc : GrassGroupConfig.t) => (i, gc)) configs).

(** [normalizeWeights]. *)
Definition sumf (l : list Q) : Q := foldl Qplus 0 l.

Definition normalize (l : list Q) : list Q :=
  let total := sumf l in
  map (fun w => if fltb 0 total then w / total else 0) l.

(** [groups[gi]]; an index outside the vector is undefined behaviour in
    the source and reads a group without types here. *)
Definition group_at (groups : list GrassGroup.t) (gi : Z) : GrassGroup.t :=
  default (GrassGroup.mk EmptyString [] [] [] []) (groups !! Z.to_nat gi).

(** The index normalisation loop of [initWithInstances]. *)
Definition clamp_indices (groups : list GrassGroup.t) (inst : GrassInstance.t)
    : GrassInstance.t :=
  let n := Z.of_nat (length groups) in
  let gi := GrassInstance.groupIndex inst in
  let gi :=
    if (gi <? 0)%Z || (n <=? gi)%Z
    then let r := Z.rem gi n in if (r <? 0)%Z then 0%Z else r
    else gi in
  let maxType := Z.of_nat (length (GrassGroup.types (group_at groups gi))) in
  let ti := GrassInstance.typeIndex inst in
  let ti :=
    if (0 <? maxType)%Z && ((ti <? 0)%Z || (maxType <=? ti)%Z)
    then let r := Z.rem ti maxType in if (r <? 0)%Z then 0%Z else r
    else ti in
  GrassInstance.mk (GrassInstance.position inst) (GrassInstance.rotationY inst)
    (GrassInstance.scale inst) (GrassInstance.windPhase inst) gi ti.

Definition add_to_chunk (inst : GrassInstance.t) (c : GrassChunk.t) : GrassChunk.t :=
  GrassChunk.mk (GrassChunk.centerPos c) (GrassChunk.instances c ++ [inst])
                (GrassChunk.isVisible c).

Definition empty_chunks (terrainSizeX terrainSizeZ chunkSize : Q) : list GrassChunk.t :=
  let halfX := terrainSizeX * (1 # 2) in
  let halfZ := terrainSizeZ * (1 # 2) in
  let numChunksX := int_of_float (ceilf (terrainSizeX / chunkSize)) in
  let numChunksZ := int_of_float (ceilf (terrainSizeZ / chunkSize)) in
  cz ← seqZ 0 numChunksZ; cx ← seqZ 0 numChunksX;
  let chunkMinX := float_of_int cx * chunkSize - halfX in
  let chunkMinZ := float_of_int cz * chunkSize - halfZ in
  [GrassChunk.mk
     (Vec3.mk (chunkMinX + chunkSize * (1 # 2)) 0 (chunkMinZ + chunkSize * (1 # 2)))
     [] false].

Definition chunk_index (terrainSizeX terrainSizeZ chunkSize : Q) (p : Vec3.t) : Z :=
  let halfX := terrainSizeX * (1 # 2) in
  let halfZ := terrainSizeZ * (1 # 2) in
  let numChunksX := int_of_float (ceilf (terrainSizeX / chunkSize)) in
  let numChunksZ := int_of_float (ceilf (terrainSizeZ / chunkSize)) in
  let cx := int_of_float ((Vec3.x p + halfX) / chunkSize) in
  let cz := int_of_float ((Vec3.z p + halfZ) / chunkSize) in
  let cx := iclamp cx 0 (numChunksX - 1) in
  let cz := iclamp cz 0 (numChunksZ - 1) in
  (cz * numChunksX + cx)%Z.

Definition assign_chunk (terrainSizeX terrainSizeZ chunkSize : Q)
    (chunks : list GrassChunk.t) (inst : GrassInstance.t) : list GrassChunk.t :=
  let idx := chunk_index terrainSizeX terrainSizeZ chunkSize (GrassInstance.position inst) in
  if (idx <? 0)%Z then chunks
  else alter (add_to_chunk inst) (Z.to_nat idx) chunks.

Definition organizeIntoChunks (terrainSizeX terrainSizeZ chunkSize : Q)
    (allInstances : list GrassInstance.t) : list GrassChunk.t :=
  foldl (assign_chunk terrainSizeX terrainSizeZ chunkSize)
        (empty_chunks terrainSizeX terrainSizeZ chunkSize) allInstances.

(** [separateInstancesByGroupAndType]. *)
Definition resize_group (g : GrassGroup.t) : GrassGroup.t :=
  GrassGroup.mk (GrassGroup.name g) (GrassGroup.types g)
    (resize_vec (length (GrassGroup.types g)) [] (GrassGroup.instancesByType g))
    (resize_vec (length (GrassGroup.types g)) [] (GrassGroup.visibleInstancesByType g))
    (GrassGroup.instanceBuffers g).

Definition add_instance (inst : GrassInstance.t) (g : GrassGroup.t) : GrassGroup.t :=
  if (0 <=? GrassInstance.typeIndex inst)%Z
     && (GrassInstance.typeIndex inst <? Z.of_nat (length (GrassGroup.instancesByType g)))%Z
  then GrassGroup.mk (GrassGroup.name g) (GrassGroup.types g)
         (push_at (GrassInstance.typeIndex inst) inst (GrassGroup.instancesByType g))
         (GrassGroup.visibleInstancesByType g) (GrassGroup.instanceBuffers g)
  else g.

Definition separate_one (groups : list GrassGroup.t) (inst : GrassInstance.t)
    : list GrassGroup.t :=
  if (0 <=? GrassInstance.groupIndex inst)%Z
     && (GrassInstance.groupIndex inst <? Z.of_nat (length groups))%Z
  then alter (add_instance inst) (Z.to_nat (GrassInstance.groupIndex inst)) groups
  else groups.

Definition separateInstancesByGroupAndType (groups : list GrassGroup.t)
    (allInstances : list GrassInstance.t) : list GrassGroup.t :=
  foldl separate_one (map resize_group groups) allInstances.

(** [createInstanceBuffers]: every buffer of a group gets the size of
    the group's whole population, or of 1000 instances when the group
    has none. *)
Definition totalGroupInstances (g : GrassGroup.t) : Z :=
  foldl (fun (acc : Z) (t0 : Z) =>
           (acc + Z.of_nat (length (bucket (GrassGroup.instancesByType g) t0)))%Z)
        0%Z (seqZ 0 (Z.of_nat (length (GrassGroup.types g)))).

Definition create_group_buffers (gi : Z) (g : GrassGroup.t) : GrassGroup.t :=
  let slots := resize_vec (length (GrassGroup.types g)) None (GrassGroup.instanceBuffers g) in
  let total := totalGroupInstances g in
  let maxInstances := if (total =? 0)%Z then 1000%Z else total in
  let bufferSize := (maxInstances * GrassInstanceGPU.sizeof)%Z in
  GrassGroup.mk (GrassGroup.name g) (GrassGroup.types g)
    (GrassGroup.instancesByType g) (GrassGroup.visibleInstancesByType g)
    (foldl (fun (slots : list (option Z)) (t0 : Z) =>
              if create_ok D gi t0
              then <[Z.to_nat t0 := Some bufferSize]> slots
              else slots)
           slots (seqZ 0 (Z.of_nat (length (GrassGroup.types g))))).

Definition createInstanceBuffers (groups : list GrassGroup.t) : list GrassGroup.t :=
  imap (fun (gi : nat) (g : GrassGroup.t) => create_group_buffers (Z.of_nat gi) g) groups.

Definition finishInit (s : t) : t :=
  mk (terrainSizeX s) (terrainSizeZ s) (viewDistance s)
     (createInstanceBuffers
        (separateInstancesByGroupAndType (groups s) (allInstances s)))
     (chunks s) (allInstances s)
     (normalizedGroupWeights s) (normalizedTypeWeights s) (chunkSize s) (windTime s).

Definition initWithInstances (s : t) (groupConfigs : list GrassGroupConfig.t)
    (preGeneratedInstances : list GrassInstance.t) (viewDistance chunkSize : Q) : t :=
  let groups := loadGrassGroups groupConfigs (groups s) in
  let s :=
    mk (terrainSizeX s) (terrainSizeZ s) viewDistance groups (chunks s)
       (allInstances s) (normalizedGroupWeights s) (normalizedTypeWeights s)
       chunkSize (windTime s) in
  match groups with
  | [] => s
  | _ :: _ =>
      let all := map (clamp_indices groups) preGeneratedInstances in
      let s :=
        mk (terrainSizeX s) (terrainSizeZ s) viewDistance groups
           (organizeIntoChunks (terrainSizeX s) (terrainSizeZ s) chunkSize all)
           all
           (normalize (map GrassGroupConfig.groupWeight groupConfigs))
           (map (fun gc => normalize (map GrassTypeConfig.weight (GrassGroupConfig.types gc)))
                groupConfigs)
           chunkSize (windTime s) in
      finishInit s
  end.

Definition update (deltaTime : Q) (s : t) : t :=
  mk (terrainSizeX s) (terrainSizeZ s) (viewDistance s) (groups s) (chunks s)
     (allInstances s) (normalizedGroupWeights s) (normalizedTypeWeights s)
     (chunkSize s) (windTime s + deltaTime).

(** [performChunkCulling], first loop. *)
Definition clear_group (g : GrassGroup.t) : GrassGroup.t :=
  GrassGroup.mk (GrassGroup.name g) (GrassGroup.types g) (GrassGroup.instancesByType g)
    (map (fun _ => []) (GrassGroup.visibleInstancesByType g))
    (GrassGroup.instanceBuffers g).

Definition chunk_visible (viewDistance chunkSize : Q) (cameraPos : Vec3.t)
    (c : GrassChunk.t) : bool :=
  let maxDist := viewDistance + chunkSize * (1 # 2) in
  let maxDistSq := maxDist * maxDist in
  let dx := Vec3.x (GrassChunk.centerPos c) - Vec3.x cameraPos in
  let dz := Vec3.z (GrassChunk.centerPos c) - Vec3.z cameraPos in
  let distSq := dx * dx + dz * dz in
  fleb distSq maxDistSq.

Definition show_instance (inst : GrassInstance.t) (g : GrassGroup.t) : GrassGroup.t :=
  if (0 <=? GrassInstance.typeIndex inst)%Z
     && (GrassInstance.typeIndex inst
           <? Z.of_nat (length (GrassGroup.visibleInstancesByType g)))%Z
  then GrassGroup.mk (GrassGroup.name g) (GrassGroup.types g)
         (GrassGroup.instancesByType g)
         (push_at (GrassInstance.typeIndex inst) inst (GrassGroup.visibleInstancesByType g))
         (GrassGroup.instanceBuffers g)
  else g.

Definition collect_one (groups : list GrassGroup.t) (inst : GrassInstance.t)
    : list GrassGroup.t :=
  if (0 <=? GrassInstance.groupIndex inst)%Z
     && (GrassInstance.groupIndex inst <? Z.of_nat (length groups))%Z
  then alter (show_instance inst) (Z.to_nat (GrassInstance.groupIndex inst)) groups
  else groups.

(** Second loop. *)
Definition cull_chunk (viewDistance chunkSize : Q) (cameraPos : Vec3.t)
    (st : list GrassChunk.t * list GrassGroup.t) (c : GrassChunk.t)
    : list GrassChunk.t * list GrassGroup.t :=
  let vis := chunk_visible viewDistance chunkSize cameraPos c in
  let c' := GrassChunk.mk (GrassChunk.centerPos c) (GrassChunk.instances c) vis in
  (fst st ++ [c'],
   if vis then foldl collect_one (snd st) (GrassChunk.instances c) else snd st).

Definition toGPU (inst : GrassInstance.t) : GrassInstanceGPU.t :=
  GrassInstanceGPU.mk (GrassInstance.position inst) (GrassInstance.rotationY inst)
    (GrassInstance.scale inst) (GrassInstance.windPhase inst).

(** Third loop. *)
Definition upload_slot (gi : Z) (g : GrassGroup.t) (t0 : Z) : list Upload :=
  let v := bucket (GrassGroup.visibleInstancesByType g) t0 in
  match v with
  | [] => []
  | _ :: _ =>
      match default None (GrassGroup.instanceBuffers g !! Z.to_nat t0) with
      | None => []
      | Some _ =>
          let gpuInstances := map toGPU v in
          if map_ok D gi t0
          then [mkUpload gi t0
                  (Z.of_nat (length gpuInstances) * GrassInstanceGPU.sizeof)%Z]
          else []
      end
  end.

Definition performChunkCulling (cameraPos : Vec3.t) (s : t) : t * list Upload :=
  let cleared := map clear_group (groups s) in
  let '(chunks', groups') :=
    foldl (cull_chunk (viewDistance s) (chunkSize s) cameraPos)
          ([], cleared) (chunks s) in
  let uploads :=
    mjoin (imap (fun (gi : nat) (g : GrassGroup.t) =>
                   t0 ← seqZ 0 (Z.of_nat (length (GrassGroup.types g)));
                   upload_slot (Z.of_nat gi) g t0)
                groups') in
  (mk (terrainSizeX s) (terrainSizeZ s) (viewDistance s) groups' chunks'
      (allInstances s) (normalizedGroupWeights s) (normalizedTypeWeights s)
      (chunkSize s) (windTime s),
   uploads).

Definition draw (cameraPos : Vec3.t) (s : t) : t * list Upload :=
  match groups s with
  | [] => (s, [])
  | _ :: _ => performChunkCulling cameraPos s
  end.
End WithDevice.
End HybridGrassField.

(* ===================================================================== *)
(** ** Game.cpp: conversion of generated items *)
(* ===================================================================== *)

Module LakeConfig.
(** The two members of the lake configuration that the conversion
    reads. *)
Record t : Type := mk {
  center : Vec3.t;
  radius : Q
}.
End LakeConfig.

Module Game.
Section WithPlatform.
Variable P : Platform.

(** The global [g_lake]: [None] is the null pointer. *)
Variable g_lake : option LakeConfig.t.

(** The lake test of the loop body. *)
Definition in_lake (item : VegetationItem.t) : bool :=
  match g_lake with
  | None => false
  | Some lake =>
      let margin := 2 in
      let dx := Vec3.x (VegetationItem.position item) - Vec3.x (LakeConfig.center lake) in
      let dz := Vec3.z (VegetationItem.position item) - Vec3.z (LakeConfig.center lake) in
      let distSq := dx * dx + dz * dz in
      let radiusWithMargin := LakeConfig.radius lake + margin in
      fltb distSq (radiusWithMargin * radiusWithMargin)
  end.

Definition convert_one (numGroups numTypesPerGroup : Z)
    (st : list GrassInstance.t * mt19937 P) (item : VegetationItem.t)
    : list GrassInstance.t * mt19937 P :=
  if in_lake item then st
  else
    let '(phase, g) := uniform_real P 0 (628318 # 100000) (snd st) in
    let '(gi, ti) :=
      if (0 <? numGroups)%Z && (0 <? numTypesPerGroup)%Z
      then (Z.rem (VegetationItem.typeIndex item) numGroups,
            Z.rem (Z.quot (VegetationItem.typeIndex item) numGroups) numTypesPerGroup)
      else (0%Z, 0%Z) in
    (fst st ++ [GrassInstance.mk (VegetationItem.position item)
                  (VegetationItem.rotationY item) (VegetationItem.scale item)
                  phase gi ti],
     g).

Definition convertToGrassInstances (items : list VegetationItem.t)
    (numGroups numTypesPerGroup : Z) : list GrassInstance.t :=
  fst (foldl (convert_one numGroups numTypesPerGroup) ([], mt_seed P 12345) items).
End WithPlatform.
End Game.


(* ===================================================================== *)
(** * Specification predicates *)
(* ===================================================================== *)

(** What [isValidTerrainLocation] accepts, as a proposition on a point of
    the terrain [h] under the configuration [cfg]. *)
Definition terrain_ok (P : Platform) (h : Q -> Q -> Q) (cfg : VegetationConfig.t)
    (x z : Q) : Prop :=
  (VegetationConfig.minHeight cfg <= h x z
   /\ h x z <= VegetationConfig.maxHeight cfg)
  /\ (VegetationConfig.minSlope cfg <= VegetationGenerator.slopeAngle P h x z
      /\ VegetationGenerator.slopeAngle P h x z <= VegetationConfig.maxSlope cfg).

Definition item_ok (P : Platform) (h : Q -> Q -> Q) (cfg : VegetationConfig.t)
    (item : VegetationItem.t) : Prop :=
  terrain_ok P h cfg (Vec3.x (VegetationItem.position item))
                     (Vec3.z (VegetationItem.position item)).

(** The invariant of the placement loop of [generate]. *)
Definition placed_ok (P : Platform) (h : Q -> Q -> Q) (cfg : VegetationConfig.t)
    (s : VegetationGenerator.t P) : Prop :=
  VegetationGenerator.terrain P s = Some h
  /\ VegetationGenerator.config P s = cfg
  /\ Forall (item_ok P h cfg) (VegetationGenerator.grassItems P s)
  /\ Forall (item_ok P h cfg) (VegetationGenerator.rockItems P s).

(** The squared distance in the XZ plane between two points. *)
Definition distSqXZ (p c : Vec3.t) : Q :=
  (Vec3.x p - Vec3.x c) * (Vec3.x p - Vec3.x c)
  + (Vec3.z p - Vec3.z c) * (Vec3.z p - Vec3.z c).

(** The distance in the XZ plane, as a real number. *)
Definition distXZ (p c : Vec3.t) : R := sqrt (Q2R (distSqXZ p c)).

(** How [convertToGrassInstances] turns a kept item into an instance
    (the wind phase apart). *)
Definition converted (numGroups numTypesPerGroup : Z)
    (item : VegetationItem.t) (inst : GrassInstance.t) : Prop :=
  GrassInstance.position inst = VegetationItem.position item
  /\ GrassInstance.rotationY inst = VegetationItem.rotationY item
  /\ GrassInstance.scale inst = VegetationItem.scale item
  /\ (if (0 <? numGroups)%Z && (0 <? numTypesPerGroup)%Z
      then GrassInstance.groupIndex inst
             = Z.rem (VegetationItem.typeIndex item) numGroups
           /\ GrassInstance.typeIndex inst
             = Z.rem (Z.quot (VegetationItem.typeIndex item) numGroups) numTypesPerGroup
      else GrassInstance.groupIndex inst = 0%Z /\ GrassInstance.typeIndex inst = 0%Z).

(* ===================================================================== *)
(** * Concrete inputs *)
(* ===================================================================== *)



(** A flat terrain at height 0. *)
Definition flat_terrain : HeightmapTerrain := Some (fun _ _ => 0).

(** The draws of one cell of the spawn grid: a skipped cell, and a kept
    cell with the given variate for the jitter along X. *)
Definition skipped_cell : list Q := [1 # 2; 1 # 2; 0].
Definition kept_cell (jx : Q) : list Q := [jx; 1 # 2; 1 # 2].

(** A script for the [Rocky] preset on a 20 x 5 world (a grid of 8 x 2
    cells of spacing 2.5): only the cells 3 and 4 of the first row are
    kept, the shuffle of the two points swaps nothing, and both points
    become single rocks of scale [0.8 + (15/16) * 2.2]. *)
Definition rocky_script : list Q :=
  skipped_cell ++ skipped_cell ++ skipped_cell
  ++ kept_cell 0 ++ kept_cell (15 # 16)
  ++ skipped_cell ++ skipped_cell ++ skipped_cell
  ++ skipped_cell ++ skipped_cell ++ skipped_cell ++ skipped_cell
  ++ skipped_cell ++ skipped_cell ++ skipped_cell ++ skipped_cell
  ++ [1 # 2]
  ++ [0; 9 # 10; 15 # 16; 0; 0]
  ++ [0; 9 # 10; 15 # 16; 0; 0].

Definition rocky_platform : Platform := Script.platform (fun _ => rocky_script).

(** The generator after the head of [generate] on the [Rocky] preset, with
    an engine that will deliver the variates [1/2; 0; 0; 1/2; 0; 0]. *)
Definition placing_platform : Platform :=
  Script.platform (fun _ => [1 # 2; 0; 0; 1 # 2; 0; 0]).

Definition placing_state : VegetationGenerator.t placing_platform :=
  VegetationGenerator.reset placing_platform
    (VegetationGenerator.new placing_platform) 0%Z flat_terrain
    VegetationPresets.Rocky 20 5 1%Z.

(** The items that [checkOverlap] examines for a candidate at [(x, z)]:
    the buckets of the cells of the 3x3 neighbourhood that lie in the
    grid. *)
Definition neighbours (g : SpatialHashGrid.t) (x z : Q) : list VegetationItem.t :=
  let centerCellX := int_of_float ((x + SpatialHashGrid.offsetX g) / SpatialHashGrid.cellSize g) in
  let centerCellZ := int_of_float ((z + SpatialHashGrid.offsetZ g) / SpatialHashGrid.cellSize g) in
  d ← SpatialHashGrid.neighbourhood;
  let cellX := (centerCellX + fst d)%Z in
  let cellZ := (centerCellZ + snd d)%Z in
  if SpatialHashGrid.out_of_grid g cellX cellZ then []
  else bucket (SpatialHashGrid.cells g) (cellZ * SpatialHashGrid.gridWidth g + cellX).

(** The radius that [tryPlaceItem] gives to a candidate of category
    [type]: the base radius times the scale it draws first. *)
Definition candidate_radius (P : Platform) (s : VegetationGenerator.t P)
    (type : VegetationType) : Q :=
  match type with
  | Rock =>
      VegetationConfig.rockRadius (VegetationGenerator.config P s)
      * fst (VegetationGenerator.draw_real P
               (VegetationConfig.rockMinScale (VegetationGenerator.config P s))
               (VegetationConfig.rockMaxScale (VegetationGenerator.config P s)) s)
  | Grass =>
      VegetationConfig.grassRadius (VegetationGenerator.config P s)
      * fst (VegetationGenerator.draw_real P
               (VegetationConfig.grassMinScale (VegetationGenerator.config P s))
               (VegetationConfig.grassMaxScale (VegetationGenerator.config P s)) s)
  end.

(* ===================================================================== *)
(** * Life cycle of the two instance subsystems *)
(* ===================================================================== *)

(** Assignment of the public members of [Rocks] that the model keeps. *)
Definition rocks_assign (terrainSizeX terrainSizeZ lodDistanceHigh lodDistanceMedium : Q)
    (s : Rocks.t) : Rocks.t :=
  Rocks.mk terrainSizeX terrainSizeZ lodDistanceHigh lodDistanceMedium
    (Rocks.rockTypes s) (Rocks.chunks s) (Rocks.allInstances s)
    (Rocks.instancesByTypeLOD s) (Rocks.visibleInstancesByTypeLOD s)
    (Rocks.instanceBuffersByType s) (Rocks.viewDistance s) (Rocks.chunkSize s).

(** The states a [Rocks] object goes through: it is default-constructed,
    its public members are assigned, [initWithInstances] runs once, and
    then [update], [draw] and assignments of public members follow in any
    order.  The supplied instances carry an LOD level that indexes one of
    the three buckets, as [separateInstancesByTypeAndLOD] requires (the
    converters of the repository set it to 2). *)
Inductive rocks_reachable (P : Platform) (D : Device) : Rocks.t -> Prop :=
| rocks_reach_init (tx tz hi med : Q) (models textures : list string)
    (pre : list RockInstance.t) (viewDistance chunkSize : Q) :
    Forall (fun i => (0 <= RockInstance.lodLevel i < 3)%Z) pre ->
    rocks_reachable P D
      (Rocks.initWithInstances D (rocks_assign tx tz hi med Rocks.new)
         models textures pre viewDistance chunkSize)
| rocks_reach_update (cameraPos : Vec3.t) (s : Rocks.t) :
    rocks_reachable P D s -> rocks_reachable P D (Rocks.update P cameraPos s)
| rocks_reach_draw (cameraPos : Vec3.t) (s : Rocks.t) :
    rocks_reachable P D s -> rocks_reachable P D (fst (Rocks.draw D cameraPos s))
| rocks_reach_assign (tx tz hi med : Q) (s : Rocks.t) :
    rocks_reachable P D s -> rocks_reachable P D (rocks_assign tx tz hi med s).

(** Every instance record that a [Rocks] object holds: the master list,
    the chunk lists, the persistent buckets and the visible buckets. *)
Definition rocks_chunk_instances (s : Rocks.t) : list RockInstance.t :=
  concat (map RockChunk.instances (Rocks.chunks s)).

Definition rocks_held (s : Rocks.t) : list RockInstance.t :=
  Rocks.allInstances s
  ++ rocks_chunk_instances s
  ++ concat (concat (Rocks.instancesByTypeLOD s))
  ++ concat (concat (Rocks.visibleInstancesByTypeLOD s)).

(** The slot of the buffer table, [None] when absent or null. *)
Definition rocks_buffer (s : Rocks.t) (t0 lod : Z) : option Z :=
  default None (default [] (Rocks.instanceBuffersByType s !! Z.to_nat t0) !! Z.to_nat lod).

(** The population of a type: what the three persistent buckets of the
    type hold together. *)
Definition rocks_population (s : Rocks.t) (t0 : Z) : Z :=
  Rocks.totalInstances (default [] (Rocks.instancesByTypeLOD s !! Z.to_nat t0)).

(** The number of instances of type [t0] in a list. *)
Definition count_type (t0 : Z) (l : list RockInstance.t) : nat :=
  length (filter (fun i => RockInstance.typeIndex i = t0) l).

(** A table of [n] rows of three buckets. *)
Definition table_shape {A : Type} (n : nat) (v : list (list (list A))) : Prop :=
  length v = n /\ Forall (fun row => length row = 3%nat) v.


(** The index bound of a rock instance under a palette of [n] types. *)
Definition rock_index_ok (n : Z) (i : RockInstance.t) : Prop :=
  (0 <= RockInstance.typeIndex i < n)%Z.

(** The chunk list after the second loop of [performChunkCulling]:
    each chunk with its flag recomputed. *)
Definition rocks_flagged (viewDistance chunkSize : Q) (cameraPos : Vec3.t)
    (c : RockChunk.t) : RockChunk.t :=
  RockChunk.mk (RockChunk.centerPos c) (RockChunk.instances c)
               (Rocks.chunk_visible viewDistance chunkSize cameraPos c).

(** What holds of every reachable [Rocks] state. *)
Record rocks_inv (s : Rocks.t) : Prop := {
  rocks_inv_shape :
    table_shape (length (Rocks.rockTypes s)) (Rocks.visibleInstancesByTypeLOD s);
  rocks_inv_all :
    Forall (rock_index_ok (Rocks.numTypes s)) (Rocks.allInstances s);
  rocks_inv_chunks :
    Forall (fun c => Forall (rock_index_ok (Rocks.numTypes s)) (RockChunk.instances c))
           (Rocks.chunks s);
  rocks_inv_persistent :
    Forall (Forall (Forall (rock_index_ok (Rocks.numTypes s))))
           (Rocks.instancesByTypeLOD s);
  rocks_inv_visible :
    Forall (Forall (Forall (rock_index_ok (Rocks.numTypes s))))
           (Rocks.visibleInstancesByTypeLOD s);
  rocks_inv_population :
    forall t0 : Z,
      (Z.of_nat (count_type t0 (rocks_chunk_instances s)) <= rocks_population s t0)%Z;
  rocks_inv_buffers :
    forall (t0 lod sz : Z),
      rocks_buffer s t0 lod = Some sz ->
      sz = (rocks_population s t0 * RockInstanceGPU.sizeof)%Z
}.

(** Assignment of the public members of [HybridGrassField] that the model
    keeps. *)
Definition grass_assign (terrainSizeX terrainSizeZ viewDistance : Q)
    (s : HybridGrassField.t) : HybridGrassField.t :=
  HybridGrassField.mk terrainSizeX terrainSizeZ viewDistance
    (HybridGrassField.groups s) (HybridGrassField.chunks s)
    (HybridGrassField.allInstances s) (HybridGrassField.normalizedGroupWeights s)
    (HybridGrassField.normalizedTypeWeights s) (HybridGrassField.chunkSize s)
    (HybridGrassField.windTime s).

(** The states a [HybridGrassField] object goes through. *)
Inductive grass_reachable (D : Device) : HybridGrassField.t -> Prop :=
| grass_reach_init (tx tz vd0 : Q) (groupConfigs : list GrassGroupConfig.t)
    (pre : list GrassInstance.t) (viewDistance chunkSize : Q) :
    grass_reachable D
      (HybridGrassField.initWithInstances D (grass_assign tx tz vd0 HybridGrassField.new)
         groupConfigs pre viewDistance chunkSize)
| grass_reach_update (deltaTime : Q) (s : HybridGrassField.t) :
    grass_reachable D s -> grass_reachable D (HybridGrassField.update deltaTime s)
| grass_reach_draw (cameraPos : Vec3.t) (s : HybridGrassField.t) :
    grass_reachable D s -> grass_reachable D (fst (HybridGrassField.draw D cameraPos s))
| grass_reach_assign (tx tz vd : Q) (s : HybridGrassField.t) :
    grass_reachable D s -> grass_reachable D (grass_assign tx tz vd s).

(** The number of types of each loaded group. *)
Definition type_counts (groups : list GrassGroup.t) : list nat :=
  map (fun g => length (GrassGroup.types g)) groups.

(** The index bound of a grass instance: its group is loaded and its type
    is one of that group's. *)
Definition grass_index_ok (counts : list nat) (i : GrassInstance.t) : Prop :=
  (0 <= GrassInstance.groupIndex i < Z.of_nat (length counts))%Z
  /\ (0 <= GrassInstance.typeIndex i
      < Z.of_nat (default 0%nat (counts !! Z.to_nat (GrassInstance.groupIndex i))))%Z.

Definition grass_chunk_instances (s : HybridGrassField.t) : list GrassInstance.t :=
  concat (map GrassChunk.instances (HybridGrassField.chunks s)).

(** The persistent and the visible buckets of all groups, as tables
    indexed by group and type, and the buffer slots likewise. *)
Definition grass_persistent (groups : list GrassGroup.t) : list (list (list GrassInstance.t)) :=
  map GrassGroup.instancesByType groups.

Definition grass_visible (groups : list GrassGroup.t) : list (list (list GrassInstance.t)) :=
  map GrassGroup.visibleInstancesByType groups.

Definition grass_buffers (groups : list GrassGroup.t) : list (list (option Z)) :=
  map GrassGroup.instanceBuffers groups.

(** Every instance record that a [HybridGrassField] object holds. *)
Definition grass_held (s : HybridGrassField.t) : list GrassInstance.t :=
  HybridGrassField.allInstances s
  ++ grass_chunk_instances s
  ++ concat (concat (grass_persistent (HybridGrassField.groups s)))
  ++ concat (concat (grass_visible (HybridGrassField.groups s))).

(** The slot of a group's buffer list, [None] when absent or null. *)
Definition grass_buffer (s : HybridGrassField.t) (gi t0 : Z) : option Z :=
  default None
    (default [] (grass_buffers (HybridGrassField.groups s) !! Z.to_nat gi) !! Z.to_nat t0).

(** The population of a group: what its persistent buckets hold
    together. *)
Definition grass_population (s : HybridGrassField.t) (gi : Z) : Z :=
  HybridGrassField.totalGroupInstances
    (HybridGrassField.group_at (HybridGrassField.groups s) gi).

(** The capacity, in instances, that [createInstanceBuffers] gives to the
    buffers of a group. *)
Definition grass_capacity (s : HybridGrassField.t) (gi : Z) : Z :=
  if (grass_population s gi =? 0)%Z then 1000%Z else grass_population s gi.

(** The number of instances of group [gi] and type [t0] in a list. *)
Definition count_slot (gi t0 : Z) (l : list GrassInstance.t) : nat :=
  length (filter (fun i => GrassInstance.groupIndex i = gi
                           /\ GrassInstance.typeIndex i = t0) l).

(** The chunk list after the second loop of the grass culling pass. *)
Definition grass_flagged (viewDistance chunkSize : Q) (cameraPos : Vec3.t)
    (c : GrassChunk.t) : GrassChunk.t :=
  GrassChunk.mk (GrassChunk.centerPos c) (GrassChunk.instances c)
                (HybridGrassField.chunk_visible viewDistance chunkSize cameraPos c).

(** What holds of every reachable [HybridGrassField] state. *)
Record grass_inv (s : HybridGrassField.t) : Prop := {
  grass_inv_shape :
    map length (grass_visible (HybridGrassField.groups s))
    = type_counts (HybridGrassField.groups s);
  grass_inv_pshape :
    map length (grass_persistent (HybridGrassField.groups s))
    = type_counts (HybridGrassField.groups s);
  grass_inv_all :
    Forall (grass_index_ok (type_counts (HybridGrassField.groups s)))
           (HybridGrassField.allInstances s);
  grass_inv_chunks :
    Forall (fun c => Forall (grass_index_ok (type_counts (HybridGrassField.groups s)))
                            (GrassChunk.instances c))
           (HybridGrassField.chunks s);
  grass_inv_persistent :
    Forall (Forall (Forall (grass_index_ok (type_counts (HybridGrassField.groups s)))))
           (grass_persistent (HybridGrassField.groups s));
  grass_inv_visible :
    Forall (Forall (Forall (grass_index_ok (type_counts (HybridGrassField.groups s)))))
           (grass_visible (HybridGrassField.groups s));
  grass_inv_population :
    forall (gi t0 : Z),
      (count_slot gi t0 (grass_chunk_instances s)
       <= length (bucket2 (grass_persistent (HybridGrassField.groups s)) gi t0))%nat;
  grass_inv_buffers :
    forall (gi t0 sz : Z),
      grass_buffer s gi t0 = Some sz ->
      sz = (grass_capacity s gi * GrassInstanceGPU.sizeof)%Z
}.

(** One step of the bucket loops of the grass field, on a table: the
    instance is appended to the bucket of its group and type. *)
Definition grass_collect (tbl : list (list (list GrassInstance.t)))
    (inst : GrassInstance.t) : list (list (list GrassInstance.t)) :=
  push_at2 (GrassInstance.groupIndex inst) (GrassInstance.typeIndex inst) inst tbl.

(** The effect of one chunk on the table of visible buckets. *)
Definition grass_cull (viewDistance chunkSize : Q) (cameraPos : Vec3.t)
    (tbl : list (list (list GrassInstance.t))) (c : GrassChunk.t)
    : list (list (list GrassInstance.t)) :=
  if HybridGrassField.chunk_visible viewDistance chunkSize cameraPos c
  then foldl grass_collect tbl (GrassChunk.instances c)
  else tbl.

(** A device on which every load, creation and mapping succeeds. *)
Definition good_device : Device :=
  {| loadable := fun _ => true; create_ok := fun _ _ => true; map_ok := fun _ _ => true |}.

(** A platform whose engine delivers only zeros. *)
Definition zero_platform : Platform := Script.platform (fun _ => []).

(** Three rocks for a palette of three types; the first two carry type
    indices outside the palette. *)
Definition example_rocks : list RockInstance.t :=
  [ RockInstance.mk (Vec3.mk 10 0 10) 0 1 (-5) 0 2;
    RockInstance.mk (Vec3.mk (- (20)) 0 5) 0 1 7 0 2;
    RockInstance.mk (Vec3.mk 0 0 0) 0 1 1 0 2 ].

(** A rock field as [Game.cpp] sets it up, after one [update]. *)
Definition example_rock_field : Rocks.t :=
  Rocks.update zero_platform (Vec3.mk 0 0 0)
    (rocks_assign 300 300 25 60
       (Rocks.initWithInstances good_device (rocks_assign 300 300 20 50 Rocks.new)
          ["r0"; "r1"; "r2"]%string ["t0"; "t1"; "t2"]%string example_rocks 120 32)).

(** Two groups of grass, of two types and of one type. *)
Definition example_grass_configs : list GrassGroupConfig.t :=
  [ GrassGroupConfig.mk "meadow"%string 1
      [ GrassTypeConfig.mk "m0"%string "mt0"%string 1 "blade"%string;
        GrassTypeConfig.mk "m1"%string "mt1"%string 1 "tuft"%string ];
    GrassGroupConfig.mk "reeds"%string 1
      [ GrassTypeConfig.mk "m2"%string "mt2"%string 1 "reed"%string ] ].

(** Three grass instances, all of the first group; the first two carry
    indices outside the palette. *)
Definition example_grass : list GrassInstance.t :=
  [ GrassInstance.mk (Vec3.mk 3 0 4) 0 1 0 (-3) 9;
    GrassInstance.mk (Vec3.mk (- (8)) 0 2) 0 1 0 4 (-1);
    GrassInstance.mk (Vec3.mk 100 0 100) 0 1 0 0 1 ].

Definition example_grass_field : HybridGrassField.t :=
  HybridGrassField.initWithInstances good_device
    (grass_assign 300 300 50 HybridGrassField.new) example_grass_configs example_grass 50 16.

(** The lake of [Game.cpp] and three generated items: at the lake centre,
    at the origin, and on the rim of the excluded disc. *)
Definition example_lake : LakeConfig.t := LakeConfig.mk (Vec3.mk 30 0 40) 25.

Definition example_items : list VegetationItem.t :=
  [ VegetationItem.mk (Vec3.mk 30 0 40) 0 1 4 Grass (3 # 10);
    VegetationItem.mk (Vec3.mk 0 0 0) 0 1 5 Grass (3 # 10);
    VegetationItem.mk (Vec3.mk 57 0 40) 0 1 7 Grass (3 # 10) ].

(** The state in which the rock of the placement example has been
    placed. *)
Definition placed_state : VegetationGenerator.t placing_platform :=
  snd (VegetationGenerator.tryPlaceItem placing_platform placing_state 0 0 Rock).

(* ===================================================================== *)
(** * Further members of the classes and their callers *)
(* ===================================================================== *)

(** ** What the proofs ask of the platform *)

(** [std::shuffle] returns elements of its input. *)
Definition shuffle_sound (P : Platform) : Prop :=
  forall (A : Type) (l : list A) (g : mt19937 P) (a : A),
    In a (fst (std_shuffle P l g)) -> In a l.

(** ** RandomGenerator.h: further members *)

Module SpatialHashGridExt.
(** [clear]: every bucket is emptied, the dimensions stay. *)
Definition clear (g : SpatialHashGrid.t) : SpatialHashGrid.t :=
  SpatialHashGrid.mk (SpatialHashGrid.cellSize g) (SpatialHashGrid.offsetX g)
    (SpatialHashGrid.offsetZ g) (SpatialHashGrid.gridWidth g)
    (SpatialHashGrid.gridHeight g)
    (map (fun _ => []) (SpatialHashGrid.cells g)).
End SpatialHashGridExt.

(** ** Predicates on generated items *)

(** The base collision radius of a category. *)
Definition base_radius (cfg : VegetationConfig.t) (type : VegetationType) : Q :=
  match type with
  | Rock => VegetationConfig.rockRadius cfg
  | Grass => VegetationConfig.grassRadius cfg
  end.

(** The scale that [tryPlaceItem] draws for a candidate of category
    [type]. *)
Definition candidate_scale (P : Platform) (s : VegetationGenerator.t P)
    (type : VegetationType) : Q :=
  match type with
  | Rock =>
      fst (VegetationGenerator.draw_real P
             (VegetationConfig.rockMinScale (VegetationGenerator.config P s))
             (VegetationConfig.rockMaxScale (VegetationGenerator.config P s)) s)
  | Grass =>
      fst (VegetationGenerator.draw_real P
             (VegetationConfig.grassMinScale (VegetationGenerator.config P s))
             (VegetationConfig.grassMaxScale (VegetationGenerator.config P s)) s)
  end.

(** A point of the rectangle of size [sx] by [sz] centred at the
    origin. *)
Definition in_world (sx sz : Q) (x z : Q) : Prop :=
  (- (sx * (1 # 2)) <= x /\ x <= sx * (1 # 2))
  /\ (- (sz * (1 # 2)) <= z /\ z <= sz * (1 # 2)).

(** An item as [tryPlaceItem] builds it: of the category of its list, on
    the terrain surface, with the base radius of its category times its
    scale as radius. *)
Definition item_wf (h : Q -> Q -> Q) (cfg : VegetationConfig.t)
    (type : VegetationType) (item : VegetationItem.t) : Prop :=
  VegetationItem.type item = type
  /\ VegetationItem.radius item = base_radius cfg type * VegetationItem.scale item
  /\ Vec3.y (VegetationItem.position item)
     = h (Vec3.x (VegetationItem.position item)) (Vec3.z (VegetationItem.position item)).

(** The cell of the grid that a point falls into, as [getCellIndex] and
    [checkOverlap] compute it. *)
Definition cell_of (g : SpatialHashGrid.t) (x z : Q) : Z * Z :=
  (int_of_float ((x + SpatialHashGrid.offsetX g) / SpatialHashGrid.cellSize g),
   int_of_float ((z + SpatialHashGrid.offsetZ g) / SpatialHashGrid.cellSize g)).

Definition item_cell (g : SpatialHashGrid.t) (item : VegetationItem.t) : Z * Z :=
  cell_of g (Vec3.x (VegetationItem.position item)) (Vec3.z (VegetationItem.position item)).

(** Two cells that are equal or touch (by a side or a corner). *)
Definition adjacent_cells (c1 c2 : Z * Z) : Prop :=
  (Z.abs (fst c1 - fst c2) <= 1)%Z /\ (Z.abs (snd c1 - snd c2) <= 1)%Z.

(** Two items whose discs do not overlap. *)
Definition apart (a b : VegetationItem.t) : Prop :=
  (VegetationItem.radius a + VegetationItem.radius b)
  * (VegetationItem.radius a + VegetationItem.radius b)
  <= distSqXZ (VegetationItem.position a) (VegetationItem.position b).

(** Two items that do not overlap if they lie in adjacent cells. *)
Definition spaced (g : SpatialHashGrid.t) (a b : VegetationItem.t) : Prop :=
  adjacent_cells (item_cell g a) (item_cell g b) -> apart a b.

(** A relation that holds between any two entries at different positions
    of a list. *)
Definition pairwise {A : Type} (R : A -> A -> Prop) (l : list A) : Prop :=
  forall (i j : nat) (a b : A), l !! i = Some a -> l !! j = Some b -> i <> j -> R a b.

(** Two grids of the same geometry. *)
Definition same_dims (g g' : SpatialHashGrid.t) : Prop :=
  SpatialHashGrid.cellSize g = SpatialHashGrid.cellSize g'
  /\ SpatialHashGrid.offsetX g = SpatialHashGrid.offsetX g'
  /\ SpatialHashGrid.offsetZ g = SpatialHashGrid.offsetZ g'
  /\ SpatialHashGrid.gridWidth g = SpatialHashGrid.gridWidth g'
  /\ SpatialHashGrid.gridHeight g = SpatialHashGrid.gridHeight g'.

(** The linear index of the bucket of an item. *)
Definition item_bucket (g : SpatialHashGrid.t) (item : VegetationItem.t) : Z :=
  (snd (item_cell g item) * SpatialHashGrid.gridWidth g + fst (item_cell g item))%Z.

(** The invariant of [generate] on which the spacing of the output
    rests: the geometry of the grid is the one [generate] set up, every
    placed item lies in the world rectangle and is stored in the bucket of
    its cell, and placed items of adjacent cells do not overlap. *)
Record spacing_inv (P : Platform) (sx sz : Q) (g0 : SpatialHashGrid.t)
    (s : VegetationGenerator.t P) : Prop := {
  sp_sizeX : VegetationGenerator.terrainSizeX P s = sx;
  sp_sizeZ : VegetationGenerator.terrainSizeZ P s = sz;
  sp_dims : same_dims (VegetationGenerator.spatialGrid P s) g0;
  sp_cells :
    length (SpatialHashGrid.cells (VegetationGenerator.spatialGrid P s))
    = Z.to_nat (SpatialHashGrid.gridWidth g0 * SpatialHashGrid.gridHeight g0);
  sp_world :
    Forall (fun item => in_world sx sz (Vec3.x (VegetationItem.position item))
                                       (Vec3.z (VegetationItem.position item)))
           (VegetationGenerator.grassItems P s ++ VegetationGenerator.rockItems P s);
  sp_stored :
    Forall (fun item =>
              In item (bucket (SpatialHashGrid.cells (VegetationGenerator.spatialGrid P s))
                              (item_bucket g0 item)))
           (VegetationGenerator.grassItems P s ++ VegetationGenerator.rockItems P s);
  sp_grass : pairwise (spaced g0) (VegetationGenerator.grassItems P s);
  sp_rock : pairwise (spaced g0) (VegetationGenerator.rockItems P s);
  sp_cross :
    forall a b, In a (VegetationGenerator.grassItems P s) ->
                In b (VegetationGenerator.rockItems P s) -> spaced g0 a b
}.

(** The grid that [generate] sets up for a world of [sx] by [sz] and the
    cell size [cs], still empty. *)
Definition grid0 (sx sz cs : Q) : SpatialHashGrid.t :=
  SpatialHashGrid.init sx sz cs SpatialHashGrid.new.

(** The cell size that [generate] derives from a configuration. *)
Definition generation_cellSize (config : VegetationConfig.t) : Q :=
  fmax (VegetationConfig.rockRadius config) (VegetationConfig.grassRadius config) * 4.

(** The script of [rocky_script] with the variate of both scale draws
    lowered to [1/2]: the two rocks get the scale [1.9]. *)
Definition gentle_script : list Q :=
  skipped_cell ++ skipped_cell ++ skipped_cell
  ++ kept_cell 0 ++ kept_cell (15 # 16)
  ++ skipped_cell ++ skipped_cell ++ skipped_cell
  ++ skipped_cell ++ skipped_cell ++ skipped_cell ++ skipped_cell
  ++ skipped_cell ++ skipped_cell ++ skipped_cell ++ skipped_cell
  ++ [1 # 2]
  ++ [0; 9 # 10; 1 # 2; 0; 0]
  ++ [0; 9 # 10; 1 # 2; 0; 0].

Definition gentle_platform : Platform := Script.platform (fun _ => gentle_script).

(** A grid whose bucket vector has the size of its geometry, as [init]
    leaves it. *)
Definition grid_wf (g : SpatialHashGrid.t) : Prop :=
  length (SpatialHashGrid.cells g)
  = Z.to_nat (SpatialHashGrid.gridWidth g * SpatialHashGrid.gridHeight g).

(** A cell of the grid. *)
Definition cell_in_grid (g : SpatialHashGrid.t) (c : Z * Z) : Prop :=
  (0 <= fst c < SpatialHashGrid.gridWidth g)%Z
  /\ (0 <= snd c < SpatialHashGrid.gridHeight g)%Z.

(** A rock of radius [3/4] at [(1, 0, 1)], and a world of 20 by 20 with
    cells of size 4. *)
Definition example_item : VegetationItem.t :=
  VegetationItem.mk (Vec3.mk 1 0 1) 0 (3 # 4) 0 Rock (3 # 4).

Definition example_grid : SpatialHashGrid.t := grid0 20 20 4.

(** An item outside that world. *)
Definition stray_item : VegetationItem.t :=
  VegetationItem.mk (Vec3.mk 100 0 1) 0 (3 # 4) 0 Rock (3 # 4).

(** ** Game.cpp: the rock conversion and the collision tests *)

Module GameExt.
(** The spawn test of the loop body of [convertToRockInstances]. *)
Definition near_spawn (item : VegetationItem.t) : bool :=
  let spawnExclusionRadius := 5 in
  let distSq :=
    Vec3.x (VegetationItem.position item) * Vec3.x (VegetationItem.position item)
    + Vec3.z (VegetationItem.position item) * Vec3.z (VegetationItem.position item) in
  fltb distSq (spawnExclusionRadius * spawnExclusionRadius).

(** [convertToRockInstances]. *)
Definition convertToRockInstances (items : list VegetationItem.t) : list RockInstance.t :=
  foldl (fun (instances : list RockInstance.t) (item : VegetationItem.t) =>
           if near_spawn item then instances
           else instances
                ++ [RockInstance.mk (VegetationItem.position item)
                      (VegetationItem.rotationY item) (VegetationItem.scale item)
                      (VegetationItem.typeIndex item) 0 2%Z])
        [] items.

(** [checkRockCollision]: [true] at the first rock whose collision disc
    (of radius [1.5 * scale]) meets the player's. *)
Fixpoint checkRockCollision (position : Vec3.t) (rockInstances : list RockInstance.t)
    (playerRadius : Q) : bool :=
  match rockInstances with
  | [] => false
  | rock :: rest =>
      let rockRadius := RockInstance.scale rock * (15 # 10) in
      let dx := Vec3.x position - Vec3.x (RockInstance.position rock) in
      let dz := Vec3.z position - Vec3.z (RockInstance.position rock) in
      let distSq := dx * dx + dz * dz in
      let minDist := playerRadius + rockRadius in
      if fltb distSq (minDist * minDist) then true
      else checkRockCollision position rest playerRadius
  end.

(** [checkLakeCollision]. *)
Definition checkLakeCollision (position : Vec3.t) (lake : LakeConfig.t)
    (playerRadius : Q) : bool :=
  let dx := Vec3.x position - Vec3.x (LakeConfig.center lake) in
  let dz := Vec3.z position - Vec3.z (LakeConfig.center lake) in
  let distSq := dx * dx + dz * dz in
  let waterEdge := LakeConfig.radius lake - playerRadius - (1 # 2) in
  if fltb distSq (waterEdge * waterEdge) then true else false.
End GameExt.

(** How [convertToRockInstances] turns a kept item into an instance. *)
Definition rock_of_item (item : VegetationItem.t) (inst : RockInstance.t) : Prop :=
  RockInstance.position inst = VegetationItem.position item
  /\ RockInstance.rotationY inst = VegetationItem.rotationY item
  /\ RockInstance.scale inst = VegetationItem.scale item
  /\ RockInstance.typeIndex inst = VegetationItem.typeIndex item
  /\ RockInstance.distanceToCamera inst = 0
  /\ RockInstance.lodLevel inst = 2%Z.

(** The squared XZ distance of a point from the origin. *)
Definition originSq (p : Vec3.t) : Q := Vec3.x p * Vec3.x p + Vec3.z p * Vec3.z p.

(** One [DrawIndexedInstanced] call: the slot whose instance buffer is
    bound (type or group, LOD or type) and the instance count passed. *)
Record DrawCall : Type := mkDraw {
  draw_row : Z;
  draw_col : Z;
  instanceCount : Z
}.

(** ** HybridGrassField.h: weighted selection *)

Module HybridGrassFieldExt.
(** The roulette-wheel loop shared by [selectWeightedGroup] and
    [selectWeightedType]: the index of the first weight at which the
    running sum reaches [randomValue], if there is one. *)
Fixpoint roulette (weights : list Q) (i : Z) (cumulative randomValue : Q) : option Z :=
  match weights with
  | [] => None
  | w :: rest =>
      let cumulative := cumulative + w in
      if fleb randomValue cumulative then Some i
      else roulette rest (i + 1)%Z cumulative randomValue
  end.

Definition selectWeightedGroup (s : HybridGrassField.t) (randomValue : Q) : Z :=
  match roulette (HybridGrassField.normalizedGroupWeights s) 0%Z 0 randomValue with
  | Some i => i
  | None => (Z.of_nat (length (HybridGrassField.normalizedGroupWeights s)) - 1)%Z
  end.

Definition selectWeightedType (s : HybridGrassField.t) (groupIndex : Z) (randomValue : Q)
    : Z :=
  if (groupIndex <? 0)%Z
     || (Z.of_nat (length (HybridGrassField.normalizedTypeWeights s)) <=? groupIndex)%Z
  then 0%Z
  else
    let weights :=
      default [] (HybridGrassField.normalizedTypeWeights s !! Z.to_nat groupIndex) in
    match roulette weights 0%Z 0 randomValue with
    | Some i => i
    | None => (Z.of_nat (length weights) - 1)%Z
    end.
(** [drawGroup]; [gi] is the position of the group in [groups], and
    [has_mesh t] tells whether the mesh pointer of its type [t] is set. *)
Definition drawGroup (has_mesh : Z -> bool) (gi : Z) (group : GrassGroup.t)
    : list DrawCall :=
  t0 ← seqZ 0 (Z.of_nat (length (GrassGroup.types group)));
  let visibleCount :=
    Z.of_nat (length (bucket (GrassGroup.visibleInstancesByType group) t0)) in
  if (visibleCount =? 0)%Z then []
  else
    match default None (GrassGroup.instanceBuffers group !! Z.to_nat t0) with
    | None => []
    | Some _ =>
        if has_mesh t0 then [mkDraw gi t0 visibleCount] else []
    end.

(** [draw] with the draw calls it issues after the culling pass. *)
Definition draw (has_mesh : Z -> Z -> bool) (D : Device) (cameraPos : Vec3.t)
    (s : HybridGrassField.t) : HybridGrassField.t * list Upload * list DrawCall :=
  match HybridGrassField.groups s with
  | [] => (s, [], [])
  | _ :: _ =>
      let r := HybridGrassField.performChunkCulling D cameraPos s in
      (fst r, snd r,
       mjoin (imap (fun (gi : nat) (g : GrassGroup.t) =>
                      drawGroup (has_mesh (Z.of_nat gi)) (Z.of_nat gi) g)
                   (HybridGrassField.groups (fst r))))
  end.
End HybridGrassFieldExt.

(** The running sum of the first [k] weights. *)
Definition running_sum (weights : list Q) (k : nat) : Q :=
  HybridGrassField.sumf (take k weights).

(** ** Rocks.h: Poisson disk sampling *)

Module RocksExt.
Section WithPlatform.
Variable P : Platform.

(** The inner loop over the samples found so far. *)
Definition tooClose (samples : list Vec2.t) (x z radius : Q) : bool :=
  existsb (fun existing : Vec2.t =>
             let dx := x - Vec2.x existing in
             let dz := z - Vec2.y existing in
             fltb (dx * dx + dz * dz) (radius * radius))
          samples.

(** The attempt loop: up to [n] candidates are drawn, the first that is
    not too close to a sample is appended. *)
Fixpoint attempts (n : nat) (minX minZ width height radius : Q)
    (st : list Vec2.t * mt19937 P) : list Vec2.t * mt19937 P :=
  match n with
  | O => st
  | S n' =>
      let '(x, g) := uniform_real P minX (minX + width) (snd st) in
      let '(z, g) := uniform_real P minZ (minZ + height) g in
      if tooClose (fst st) x z radius
      then attempts n' minX minZ width height radius (fst st, g)
      else (fst st ++ [Vec2.mk x z], g)
  end.

Definition poissonDiskSampling (minX minZ width height radius : Q) (numSamples : Z)
    (g : mt19937 P) : list Vec2.t * mt19937 P :=
  foldl (fun (st : list Vec2.t * mt19937 P) (_ : Z) =>
           attempts 30 minX minZ width height radius st)
        ([], g) (seqZ 0 numSamples).
End WithPlatform.

(** [drawRockType]; [has_mesh lod] tells whether the mesh pointer of the
    type for that level is set. *)
Definition drawRockType (has_mesh : Z -> bool) (s : Rocks.t) (type : RockType.t)
    : list DrawCall :=
  lod ← [0; 1; 2]%Z;
  let visibleCount :=
    Z.of_nat (length (bucket2 (Rocks.visibleInstancesByTypeLOD s)
                              (RockType.typeIndex type) lod)) in
  if (visibleCount =? 0)%Z then []
  else
    match default None (default [] (Rocks.instanceBuffersByType s
                                      !! Z.to_nat (RockType.typeIndex type))
                          !! Z.to_nat lod) with
    | None => []
    | Some _ =>
        if has_mesh lod
        then [mkDraw (RockType.typeIndex type) lod visibleCount]
        else []
    end.

(** [draw] with the draw calls it issues after the culling pass. *)
Definition draw (has_mesh : Z -> Z -> bool) (D : Device) (cameraPos : Vec3.t)
    (s : Rocks.t) : Rocks.t * list Upload * list DrawCall :=
  match Rocks.rockTypes s with
  | [] => (s, [], [])
  | _ :: _ =>
      let r := Rocks.performChunkCulling D cameraPos s in
      (fst r, snd r,
       type ← Rocks.rockTypes (fst r);
       drawRockType (has_mesh (RockType.typeIndex type)) (fst r) type)
  end.
End RocksExt.

(** Two samples at least [radius] apart (on squared distances). *)
Definition samples_apart (radius : Q) (a b : Vec2.t) : Prop :=
  radius * radius
  <= (Vec2.x a - Vec2.x b) * (Vec2.x a - Vec2.x b)
     + (Vec2.y a - Vec2.y b) * (Vec2.y a - Vec2.y b).

(** A field whose normalised group weights are [1/4; 3/4]. *)
Definition weighted_field : HybridGrassField.t :=
  HybridGrassField.mk 300 300 50 [] [] [] [1 # 4; 3 # 4] [[1]; [1 # 2; 1 # 2]] 16 0.

(** An engine that delivers the variates [0; 0; 1; 1]: the first
    candidate of a sampling is the lower corner of the rectangle, the
    second the upper corner. *)
Definition corner_platform : Platform := Script.platform (fun _ => [0; 0; 1; 1]).

(* ===================================================================== *)
(** ** HeightmapTerrain.h *)
(* ===================================================================== *)

(** The CPU side of class [HeightmapTerrain]: the height samples and the
    queries on them.  (The name [HeightmapTerrain] is taken above by the
    pointer type that the generator holds.) *)
Module Heightmap.
Record t : Type := mk {
  hmW : Z;
  hmH : Z;
  worldX : Q;
  worldZ : Q;
  heightScale : Q;
  heightOffset : Q;
  heights : list Q;
  minHeightWorld : Q;
  maxHeightWorld : Q
}.

(** Default member initialisers. *)
Definition new : t := mk 0 0 1 1 10 0 [] 0 1.

(** [heightAt]: the lookup with both indices clamped.  An index outside
    the vector is undefined behaviour in the source and reads [0] here. *)
Definition heightAt (t0 : t) (x z : Z) : Q :=
  let x := iclamp x 0 (hmW t0 - 1) in
  let z := iclamp z 0 (hmH t0 - 1) in
  default 0 (heights t0 !! Z.to_nat (z * hmW t0 + x)).

(** [sampleHeightWorld]: bilinear interpolation. *)
Definition sampleHeightWorld (t0 : t) (worldPosX worldPosZ : Q) : Q :=
  let halfX := worldX t0 * (1 # 2) in
  let halfZ := worldZ t0 * (1 # 2) in
  let fx := (worldPosX + halfX) / worldX t0 in
  let fz := (worldPosZ + halfZ) / worldZ t0 in
  let fx := fclamp fx 0 1 in
  let fz := fclamp fz 0 1 in
  let x := fx * float_of_int (hmW t0 - 1) in
  let z := fz * float_of_int (hmH t0 - 1) in
  let x0 := int_of_float (floorf x) in
  let z0 := int_of_float (floorf z) in
  let x1 := Z.min (x0 + 1) (hmW t0 - 1) in
  let z1 := Z.min (z0 + 1) (hmH t0 - 1) in
  let tx := x - float_of_int x0 in
  let tz := z - float_of_int z0 in
  let h00 := heightAt t0 x0 z0 in
  let h10 := heightAt t0 x1 z0 in
  let h01 := heightAt t0 x0 z1 in
  let h11 := heightAt t0 x1 z1 in
  let h0 := h00 * (1 - tx) + h10 * tx in
  let h1 := h01 * (1 - tx) + h11 * tx in
  h0 * (1 - tz) + h1 * tz.

(** The loop state of the loaders: the height vector and the two
    extremes. *)
Definition store (i : nat) (h : Q) (st : list Q * Q * Q) : list Q * Q * Q :=
  let '(hs, lo, hi) := st in (<[i := h]> hs, fmin lo h, fmax hi h).

(** The sample loop of a RAW loader over the decoded sample values [vs],
    each divided by [full]. *)
Definition load_samples (t0 : t) (full : Q) (vs : list Z) : t :=
  let '(hs, lo, hi) :=
    foldl (fun (st : list Q * Q * Q) (iv : nat * Z) =>
             let n := float_of_int (snd iv) / full in
             let h := heightOffset t0 + n * heightScale t0 in
             store (fst iv) h st)
          (heights t0, 1000000000, - (1000000000))
          (imap (fun (i : nat) (v : Z) => (i, v)) vs) in
  mk (hmW t0) (hmH t0) (worldX t0) (worldZ t0) (heightScale t0) (heightOffset t0)
     hs lo hi.

Definition byte_value (b : Byte.byte) : Z := Z.of_N (Byte.to_N b).

(** [loadRAW8]: [file] is the content of the file, [None] when it cannot
    be opened.  A file shorter than the map fails before anything is
    written. *)
Definition loadRAW8 (file : option (list Byte.byte)) (t0 : t) : bool * t :=
  match file with
  | None => (false, t0)
  | Some content =>
      let expected := Z.to_nat (hmW t0 * hmH t0) in
      let bytes := take expected content in
      if negb (length bytes =? expected)%nat then (false, t0)
      else (true, load_samples t0 255 (map byte_value bytes))
  end.

(** The 16-bit little-endian samples of a byte sequence of even
    length. *)
Fixpoint samples16 (bytes : list Byte.byte) : list Z :=
  match bytes with
  | lo :: hi :: rest =>
      Z.lor (Z.shiftl (byte_value hi) 8) (byte_value lo) :: samples16 rest
  | _ => []
  end.

(** [loadRAW16LE]. *)
Definition loadRAW16LE (file : option (list Byte.byte)) (t0 : t) : bool * t :=
  match file with
  | None => (false, t0)
  | Some content =>
      let expectedSamples := Z.to_nat (hmW t0 * hmH t0) in
      let expectedBytes := (expectedSamples * 2)%nat in
      let bytes := take expectedBytes content in
      if negb (length bytes =? expectedBytes)%nat then (false, t0)
      else (true, load_samples t0 65535 (samples16 bytes))
  end.

(** The head of [init]: the members are assigned and the height vector
    is resized (new entries are [0]). *)
Definition init_members (hmWidth hmHeight : Z) (worldSizeX worldSizeZ : Q)
    (heightScale heightOffset : Q) (t0 : t) : t :=
  mk hmWidth hmHeight worldSizeX worldSizeZ heightScale heightOffset
     (resize_vec (Z.to_nat (hmWidth * hmHeight)) 0 (heights t0))
     (minHeightWorld t0) (maxHeightWorld t0).

(** The positions and the indices of [buildTerrainMesh] (normals,
    tangents and texture coordinates are left out). *)
Definition mesh_positions (t0 : t) : list Vec3.t :=
  let dx := worldX t0 / float_of_int (hmW t0 - 1) in
  let dz := worldZ t0 / float_of_int (hmH t0 - 1) in
  let halfX := worldX t0 * (1 # 2) in
  let halfZ := worldZ t0 * (1 # 2) in
  z ← seqZ 0 (hmH t0); x ← seqZ 0 (hmW t0);
  let px := float_of_int x * dx - halfX in
  let pz := float_of_int z * dz - halfZ in
  let py := heightAt t0 x z in
  [Vec3.mk px py pz].

Definition mesh_indices (t0 : t) : list Z :=
  z ← seqZ 0 (hmH t0 - 1); x ← seqZ 0 (hmW t0 - 1);
  let i0 := (z * hmW t0 + x)%Z in
  let i1 := (i0 + 1)%Z in
  let i2 := ((z + 1) * hmW t0 + x)%Z in
  let i3 := (i2 + 1)%Z in
  [i0; i1; i2; i1; i3; i2].
End Heightmap.


(** The world height of a decoded sample [v] of full scale [full]. *)
Definition sample_height (t0 : Heightmap.t) (full : Q) (v : Z) : Q :=
  Heightmap.heightOffset t0 + float_of_int v / full * Heightmap.heightScale t0.

(** A map of 3 by 2 samples over a world of 20 by 10, loaded from six
    bytes with the height scale 40. *)
Definition example_heightmap_file : list Byte.byte :=
  [Byte.x00; Byte.x33; Byte.x66; Byte.x99; Byte.xcc; Byte.xff].

Definition example_heightmap : Heightmap.t :=
  snd (Heightmap.loadRAW8 (Some example_heightmap_file)
         (Heightmap.init_members 3 2 20 10 40 0 Heightmap.new)).

(** ** Rocks.h and HybridGrassField.h: the chunk grid *)

(** A point within half a chunk of a chunk centre, along both axes. *)
Definition within_chunk (chunkSize : Q) (centre p : Vec3.t) : Prop :=
  (Vec3.x centre - chunkSize * (1 # 2) <= Vec3.x p
   /\ Vec3.x p <= Vec3.x centre + chunkSize * (1 # 2))
  /\ (Vec3.z centre - chunkSize * (1 # 2) <= Vec3.z p
      /\ Vec3.z p <= Vec3.z centre + chunkSize * (1 # 2)).

(** A point of the terrain rectangle. *)
Definition on_terrain (terrainSizeX terrainSizeZ : Q) (p : Vec3.t) : Prop :=
  in_world terrainSizeX terrainSizeZ (Vec3.x p) (Vec3.z p).

(** ** Mesh.h and LOD.h: mesh simplification *)

Module STATIC_VERTEX.
Record t : Type := mk {
  pos : Vec3.t;
  normal : Vec3.t;
  tangent : Vec3.t;
  tu : Q;
  tv : Q
}.
End STATIC_VERTEX.

Module Mesh.
(** A mesh is what [init] hands to its vertex and index buffers.  The
    [unsigned int] indices are numbers of [N]; the code does no
    arithmetic on them. *)
Record t : Type := mk {
  vertices : list STATIC_VERTEX.t;
  indices : list N
}.

Definition init (vertices : list STATIC_VERTEX.t) (indices : list N) : t :=
  mk vertices indices.
End Mesh.



(** [std::map<int, int>]: an association list kept sorted by key, so
    that iteration is in key order. *)
Module IntMap.
Definition t : Type := list (Z * Z).

Fixpoint find (k : Z) (m : t) : option Z :=
  match m with
  | [] => None
  | (k', v) :: m' => if (k' =? k)%Z then Some v else find k m'
  end.

End IntMap.

Module MeshSimplifier.
Section WithPlatform.
Variable P : Platform.
(** [std::cbrt]. *)
Variable cbrtf : Q -> Q.




















End WithPlatform.
End MeshSimplifier.

Module LODGenerator.
Section WithPlatform.
Variable P : Platform.
Variable cbrtf : Q -> Q.

End WithPlatform.
End LODGenerator.










(* ===================================================================== *)
(** * Properties *)
(* ===================================================================== *)

(** ** Comparisons *)

Lemma fltb_true (a b : Q) : fltb a b = true <-> a < b.
Proof.
  unfold fltb. rewrite negb_true_iff, <- not_true_iff_false, Qle_bool_iff.
  split; [apply Qnot_le_lt | apply Qlt_not_le].
Qed.

Lemma fltb_false (a b : Q) : fltb a b = false <-> b <= a.
Proof.
  unfold fltb. rewrite negb_false_iff. apply Qle_bool_iff.
Qed.

Lemma fleb_true (a b : Q) : fleb a b = true <-> a <= b.
Proof. apply Qle_bool_iff. Qed.

Lemma fleb_false (a b : Q) : fleb a b = false <-> b < a.
Proof.
  unfold fleb. rewrite <- not_true_iff_false, Qle_bool_iff.
  split; [apply Qnot_le_lt | apply Qlt_not_le].
Qed.

(** ** Determinism of [generate] *)

(** With a non-zero seed the assignments at the head of [generate]
    overwrite every member, so the state they leave does not depend on
    the state they start from, nor on the random device. *)
Lemma reset_overwrites (P : Platform) (s1 s2 : VegetationGenerator.t P) (rd1 rd2 : Z)
    (terrain : HeightmapTerrain) (config : VegetationConfig.t) (sx sz : Q) (seed : Z) :
  seed <> 0%Z ->
  VegetationGenerator.reset P s1 rd1 terrain config sx sz seed
  = VegetationGenerator.reset P s2 rd2 terrain config sx sz seed.
Proof.
  intros Hseed. unfold VegetationGenerator.reset.
  destruct (Z.eqb_spec seed 0) as [E | _]; [contradiction |].
  reflexivity.
Qed.

Lemma generate_state_independent (P : Platform) (s1 s2 : VegetationGenerator.t P)
    (rd1 rd2 : Z) (terrain : HeightmapTerrain) (config : VegetationConfig.t)
    (sx sz : Q) (seed : Z) :
  seed <> 0%Z ->
  VegetationGenerator.generate P s1 rd1 terrain config sx sz seed
  = VegetationGenerator.generate P s2 rd2 terrain config sx sz seed.
Proof.
  intros Hseed. unfold VegetationGenerator.generate.
  now rewrite (reset_overwrites P s1 s2 rd1 rd2).
Qed.

(** C1.  For a non-zero seed, a second call of [generate] with the same
    terrain, configuration, world size and seed leaves the same
    [grassItems] and [rockItems] as the first call did, whatever the
    generator held before the first call and whatever the random device
    would have returned: the two lists are equal, hence of equal length
    and with equal fields item by item, in order. *)
Theorem C1_generate_deterministic (P : Platform) (s : VegetationGenerator.t P)
    (rd1 rd2 : Z) (terrain : HeightmapTerrain) (config : VegetationConfig.t)
    (sx sz : Q) (seed : Z) :
  seed <> 0%Z ->
  let first := VegetationGenerator.generate P s rd1 terrain config sx sz seed in
  let second := VegetationGenerator.generate P first rd2 terrain config sx sz seed in
  VegetationGenerator.grassItems P second = VegetationGenerator.grassItems P first
  /\ VegetationGenerator.rockItems P second = VegetationGenerator.rockItems P first.
Proof.
  intros Hseed first second. subst first second.
  rewrite (generate_state_independent P _ s rd2 rd1) by assumption.
  split; reflexivity.
Qed.

(** ** Terrain constraints of the generated items *)

Ltac break_let :=
  repeat match goal with
         | |- context [let '(_, _) := ?e in _] =>
             let E := fresh "E" in destruct e eqn:E
         end.

Section TerrainConstraints.
Variable P : Platform.
Variable h : Q -> Q -> Q.
Variable cfg : VegetationConfig.t.

Local Abbreviation terrain_ok := (terrain_ok P h cfg).
Local Abbreviation item_ok := (item_ok P h cfg).
Local Abbreviation placed_ok := (placed_ok P h cfg).

Lemma isValidTerrainLocation_ok (s : VegetationGenerator.t P) (x z : Q) :
  VegetationGenerator.terrain P s = Some h ->
  VegetationGenerator.config P s = cfg ->
  VegetationGenerator.isValidTerrainLocation P s x z = true ->
  terrain_ok x z.
Proof.
  unfold VegetationGenerator.isValidTerrainLocation, terrain_ok.
  intros -> ->.
  destruct (fltb (h x z) _) eqn:E1; [discriminate |].
  destruct (fltb _ (h x z)) eqn:E2; [discriminate |].
  destruct (fltb (VegetationGenerator.slopeAngle P h x z) _) eqn:E3; [discriminate |].
  destruct (fltb _ (VegetationGenerator.slopeAngle P h x z)) eqn:E4; [discriminate |].
  intros _. apply fltb_false in E1, E2, E3, E4. auto.
Qed.

Lemma placed_ok_set_rng (g : mt19937 P) (s : VegetationGenerator.t P) :
  placed_ok s -> placed_ok (VegetationGenerator.set_rng P g s).
Proof. exact (fun H => H). Qed.

Lemma placed_ok_draw_real (a b : Q) (s : VegetationGenerator.t P) :
  placed_ok s -> placed_ok (snd (VegetationGenerator.draw_real P a b s)).
Proof.
  unfold VegetationGenerator.draw_real.
  destruct (uniform_real P a b _). apply placed_ok_set_rng.
Qed.

Lemma placed_ok_draw_int (a b : Z) (s : VegetationGenerator.t P) :
  placed_ok s -> placed_ok (snd (VegetationGenerator.draw_int P a b s)).
Proof.
  unfold VegetationGenerator.draw_int.
  destruct (uniform_int P a b _). apply placed_ok_set_rng.
Qed.

Lemma placed_ok_tryPlaceItem (s : VegetationGenerator.t P) (x z : Q)
    (type : VegetationType) :
  placed_ok s -> placed_ok (snd (VegetationGenerator.tryPlaceItem P s x z type)).
Proof.
  intros Hs. pose proof Hs as (Ht & Hc & Hg & Hr).
  unfold VegetationGenerator.tryPlaceItem. rewrite Ht.
  destruct (VegetationGenerator.isValidTerrainLocation P s x z) eqn:Hv; simpl;
    [| exact Hs].
  pose proof (isValidTerrainLocation_ok s x z Ht Hc Hv) as Hok.
  destruct type.
  - pose proof (placed_ok_draw_real
      (VegetationConfig.grassMinScale (VegetationGenerator.config P s))
      (VegetationConfig.grassMaxScale (VegetationGenerator.config P s)) s Hs) as H1.
    destruct (VegetationGenerator.draw_real P _ _ s) as [scale s1]. simpl in H1.
    pose proof (placed_ok_draw_int 0 8 s1 H1) as H2.
    destruct (VegetationGenerator.draw_int P 0 8 s1) as [ti s2]. simpl in H2.
    destruct (SpatialHashGrid.checkOverlap _ x z _); simpl; [exact H2 |].
    pose proof (placed_ok_draw_real 0 (2 * PI_f) s2 H2) as H3.
    destruct (VegetationGenerator.draw_real P 0 (2 * PI_f) s2) as [rot s3].
    simpl in H3. destruct H3 as (Ht3 & Hc3 & Hg3 & Hr3).
    simpl. repeat split; try assumption.
    apply Forall_app. split; [assumption |].
    constructor; [exact Hok | constructor].
  - pose proof (placed_ok_draw_real
      (VegetationConfig.rockMinScale (VegetationGenerator.config P s))
      (VegetationConfig.rockMaxScale (VegetationGenerator.config P s)) s Hs) as H1.
    destruct (VegetationGenerator.draw_real P _ _ s) as [scale s1]. simpl in H1.
    pose proof (placed_ok_draw_int 0 2 s1 H1) as H2.
    destruct (VegetationGenerator.draw_int P 0 2 s1) as [ti s2]. simpl in H2.
    destruct (SpatialHashGrid.checkOverlap _ x z _); simpl; [exact H2 |].
    pose proof (placed_ok_draw_real 0 (2 * PI_f) s2 H2) as H3.
    destruct (VegetationGenerator.draw_real P 0 (2 * PI_f) s2) as [rot s3].
    simpl in H3. destruct H3 as (Ht3 & Hc3 & Hg3 & Hr3).
    simpl. repeat split; try assumption.
    apply Forall_app. split; [assumption |].
    constructor; [exact Hok | constructor].
Qed.

Lemma placed_ok_cluster_member (cx cz : Q) (type : VegetationType)
    (s : VegetationGenerator.t P) :
  placed_ok s -> placed_ok (VegetationGenerator.cluster_member P cx cz type s).
Proof.
  intros Hs. unfold VegetationGenerator.cluster_member.
  pose proof (placed_ok_draw_real 0 1 s Hs) as H1.
  destruct (VegetationGenerator.draw_real P 0 1 s) as [t0 s1]. simpl in H1.
  pose proof (placed_ok_draw_real 0 1 s1 H1) as H2.
  destruct (VegetationGenerator.draw_real P 0 1 s1) as [j s2]. simpl in H2.
  pose proof (placed_ok_draw_real 0 (2 * PI_f) s2 H2) as H3.
  destruct (VegetationGenerator.draw_real P 0 (2 * PI_f) s2) as [angle s3].
  simpl in H3.
  match goal with |- placed_ok (if ?b then _ else _) => destruct b end;
    [exact H3 | now apply placed_ok_tryPlaceItem].
Qed.

Lemma placed_ok_iter (f : VegetationGenerator.t P -> VegetationGenerator.t P)
    (n : nat) (s : VegetationGenerator.t P) :
  (forall s0, placed_ok s0 -> placed_ok (f s0)) ->
  placed_ok s -> placed_ok (Nat.iter n f s).
Proof.
  intros Hf Hs. induction n as [| n IH]; simpl; [exact Hs | now apply Hf].
Qed.

Lemma placed_ok_generateCluster (s : VegetationGenerator.t P) (cx cz : Q)
    (type : VegetationType) :
  placed_ok s -> placed_ok (VegetationGenerator.generateCluster P s cx cz type).
Proof.
  intros Hs. unfold VegetationGenerator.generateCluster.
  pose proof (placed_ok_draw_int
    (ClusterConfig.minItems (VegetationGenerator.clusterConfig P s type))
    (ClusterConfig.maxItems (VegetationGenerator.clusterConfig P s type)) s Hs) as H1.
  destruct (VegetationGenerator.draw_int P _ _ s) as [itemCount s1]. simpl in H1.
  apply placed_ok_iter.
  - intros s0. apply placed_ok_cluster_member.
  - now apply placed_ok_tryPlaceItem.
Qed.

Lemma placed_ok_place_point (s : VegetationGenerator.t P) (point : Vec2.t) :
  placed_ok s -> placed_ok (VegetationGenerator.place_point P s point).
Proof.
  intros Hs. unfold VegetationGenerator.place_point,
    VegetationGenerator.determineType, VegetationGenerator.shouldGenerateCluster.
  pose proof (placed_ok_draw_real 0 1 s Hs) as H1.
  destruct (VegetationGenerator.draw_real P 0 1 s) as [r s1]. simpl in H1.
  pose proof (placed_ok_draw_real 0 1 s1 H1) as H2.
  destruct (VegetationGenerator.draw_real P 0 1 s1) as [r2 s2]. simpl in H2.
  match goal with |- placed_ok (if ?b then _ else _) => destruct b end;
    [now apply placed_ok_generateCluster | now apply placed_ok_tryPlaceItem].
Qed.

Lemma placed_ok_spawn_cell (spacing halfX halfZ jitter : Q) (gz gx : Z)
    (st : list Vec2.t * VegetationGenerator.t P) :
  placed_ok (snd st) ->
  placed_ok (snd (VegetationGenerator.spawn_cell P spacing halfX halfZ jitter gz gx st)).
Proof.
  destruct st as [points s]. simpl. intros Hs.
  unfold VegetationGenerator.spawn_cell.
  pose proof (placed_ok_draw_real (- jitter) jitter s Hs) as H1.
  destruct (VegetationGenerator.draw_real P (- jitter) jitter s) as [jx s1].
  simpl in H1.
  pose proof (placed_ok_draw_real (- jitter) jitter s1 H1) as H2.
  destruct (VegetationGenerator.draw_real P (- jitter) jitter s1) as [jz s2].
  simpl in H2.
  pose proof (placed_ok_draw_real 0 1 s2 H2) as H3.
  destruct (VegetationGenerator.draw_real P 0 1 s2) as [skip s3]. simpl in H3.
  destruct (fltb skip _); [exact H3 |].
  destruct (negb _); exact H3.
Qed.

Lemma placed_ok_foldl {A B : Type} (f : B * VegetationGenerator.t P -> A -> B * VegetationGenerator.t P)
    (l : list A) (st : B * VegetationGenerator.t P) :
  (forall st0 a, placed_ok (snd st0) -> placed_ok (snd (f st0 a))) ->
  placed_ok (snd st) -> placed_ok (snd (foldl f st l)).
Proof.
  intros Hf. revert st. induction l as [| a l IH]; simpl; intros st Hs;
    [exact Hs | apply IH, Hf, Hs].
Qed.

Lemma placed_ok_generateSpawnPointsGrid (s : VegetationGenerator.t P) :
  placed_ok s -> placed_ok (snd (VegetationGenerator.generateSpawnPointsGrid P s)).
Proof.
  intros Hs. unfold VegetationGenerator.generateSpawnPointsGrid.
  match goal with
  | |- context [foldl ?f ([], s) ?l] =>
      assert (placed_ok (snd (foldl f ([], s) l))) as Hloop
  end.
  { apply placed_ok_foldl; [| exact Hs].
    intros st0 gz H0. apply placed_ok_foldl; [| exact H0].
    intros st1 gx H1. now apply placed_ok_spawn_cell. }
  match goal with
  | |- context [foldl ?f ([], s) ?l] => destruct (foldl f ([], s) l) as [points s1]
  end.
  simpl in Hloop. destruct (std_shuffle P points _) as [points' g]. simpl.
  now apply placed_ok_set_rng.
Qed.

Lemma placed_ok_reset (s : VegetationGenerator.t P) (rd : Z) (sx sz : Q) (seed : Z) :
  placed_ok (VegetationGenerator.reset P s rd (Some h) cfg sx sz seed).
Proof. unfold VegetationGenerator.reset, placed_ok. simpl. auto. Qed.

Lemma placed_ok_generate (s : VegetationGenerator.t P) (rd : Z) (sx sz : Q) (seed : Z) :
  placed_ok (VegetationGenerator.generate P s rd (Some h) cfg sx sz seed).
Proof.
  unfold VegetationGenerator.generate.
  pose proof (placed_ok_generateSpawnPointsGrid _
                (placed_ok_reset s rd sx sz seed)) as H1.
  destruct (VegetationGenerator.generateSpawnPointsGrid P _) as [points s1].
  simpl in H1. revert s1 H1.
  induction points as [| p points IH]; simpl; intros s1 H1; [exact H1 |].
  apply IH. now apply placed_ok_place_point.
Qed.
End TerrainConstraints.

(** C8.  With a non-null terrain, at every item that [generate] leaves in
    [grassItems] or [rockItems] the sampled terrain height lies between
    [minHeight] and [maxHeight], and the slope angle (central differences
    at offsets of 0.5, [atan] of the gradient norm, converted to degrees)
    lies between [minSlope] and [maxSlope]. *)
Theorem C8_items_satisfy_terrain_constraints (P : Platform)
    (s : VegetationGenerator.t P) (rd : Z) (h : Q -> Q -> Q)
    (config : VegetationConfig.t) (sx sz : Q) (seed : Z) :
  let out := VegetationGenerator.generate P s rd (Some h) config sx sz seed in
  Forall (fun item : VegetationItem.t =>
            let x := Vec3.x (VegetationItem.position item) in
            let z := Vec3.z (VegetationItem.position item) in
            (VegetationConfig.minHeight config <= h x z
             /\ h x z <= VegetationConfig.maxHeight config)
            /\ (VegetationConfig.minSlope config <= VegetationGenerator.slopeAngle P h x z
                /\ VegetationGenerator.slopeAngle P h x z <= VegetationConfig.maxSlope config))
         (VegetationGenerator.grassItems P out ++ VegetationGenerator.rockItems P out).
Proof.
  intros out.
  destruct (placed_ok_generate P h config s rd sx sz seed) as (_ & _ & Hg & Hr).
  apply Forall_app. split; [exact Hg | exact Hr].
Qed.

(** ** LOD selection of the rocks *)



(** ** Squared tests and real distances *)

Lemma Q2R_distSqXZ_nonneg (p c : Vec3.t) : (0 <= Q2R (distSqXZ p c))%R.
Proof.
  unfold distSqXZ. rewrite Q2R_plus, !Q2R_mult. nra.
Qed.



Lemma sqrt_lt_of_lt_square (q r : R) :
  (0 <= q)%R -> (0 <= r)%R -> (q < r * r)%R -> (sqrt q < r)%R.
Proof.
  intros Hq Hr Hlt. rewrite <- (sqrt_square r Hr). apply sqrt_lt_1; nra.
Qed.


(** ** Conversion of the grass items *)

Section Conversion.
Variable P : Platform.
Variable lake : LakeConfig.t.
Variables numGroups numTypesPerGroup : Z.

Lemma in_lake_spec (item : VegetationItem.t) :
  Game.in_lake (Some lake) item = true
  <-> distSqXZ (VegetationItem.position item) (LakeConfig.center lake)
      < (LakeConfig.radius lake + 2) * (LakeConfig.radius lake + 2).
Proof. unfold Game.in_lake, distSqXZ. apply fltb_true. Qed.



Lemma convert_one_step (acc : list GrassInstance.t) (g : mt19937 P)
    (item : VegetationItem.t) :
  let st := Game.convert_one P (Some lake) numGroups numTypesPerGroup (acc, g) item in
  if Game.in_lake (Some lake) item then st = (acc, g)
  else exists inst, fst st = acc ++ [inst]
                    /\ converted numGroups numTypesPerGroup item inst.
Proof.
  unfold Game.convert_one. cbn [fst snd]. cbv zeta.
  destruct (Game.in_lake (Some lake) item); [reflexivity |].
  destruct (uniform_real P 0 (628318 # 100000) g) as [phase g'].
  unfold converted.
  destruct ((0 <? numGroups)%Z && (0 <? numTypesPerGroup)%Z);
    cbn [fst snd]; eexists; (split; [reflexivity |]); cbn; auto.
Qed.

Lemma convert_loop (items : list VegetationItem.t)
    (st : list GrassInstance.t * mt19937 P) :
  exists out : list GrassInstance.t,
    fst (foldl (Game.convert_one P (Some lake) numGroups numTypesPerGroup) st items)
    = fst st ++ out
    /\ Forall2 (converted numGroups numTypesPerGroup)
               (filter (fun item => Game.in_lake (Some lake) item = false) items) out.
Proof.
  revert st. induction items as [| item items IH]; intros [acc g]; cbn [foldl].
  - exists []. split; [now rewrite app_nil_r | constructor].
  - pose proof (convert_one_step acc g item) as Hstep. cbv zeta in Hstep.
    destruct (IH (Game.convert_one P (Some lake) numGroups numTypesPerGroup (acc, g) item))
      as (out & Hout & Hall).
    destruct (Game.in_lake (Some lake) item) eqn:Hin.
    + rewrite Hstep in Hout |- *. exists out. split; [exact Hout |].
      rewrite filter_cons_False by (rewrite Hin; discriminate). exact Hall.
    + destruct Hstep as (inst & Hfst & Hconv).
      rewrite Hfst, <- app_assoc in Hout.
      exists (inst :: out). split; [exact Hout |].
      rewrite filter_cons_True by exact Hin.
      constructor; assumption.
Qed.
End Conversion.


(** ** Range of the noise *)

Lemma Qsquare_nonneg (u : Q) : 0 <= u * u.
Proof. nra. Qed.












(** ** Overlap tests during generation *)

(** A run of [generate] on the [Rocky] preset (rock radius 1, rock scale
    up to 3, hence grid cells of size 4) over a flat 20 x 5 world: the two
    rocks it places have radius 2.8625 each and lie 4.375 apart, in the
    grid cells 1 and 3 of the same row, so the second is accepted although
    the two discs overlap. *)
Lemma C2_generate_places_overlapping_rocks :
  let out :=
    VegetationGenerator.generate rocky_platform (VegetationGenerator.new rocky_platform)
      0%Z flat_terrain VegetationPresets.Rocky 20 5 1%Z in
  exists a b : VegetationItem.t,
    VegetationGenerator.rockItems rocky_platform out = [a; b]
    /\ VegetationItem.type a = Rock /\ VegetationItem.type b = Rock
    /\ Vec3.x (VegetationItem.position a) == - (9 # 4)
    /\ Vec3.x (VegetationItem.position b) == 17 # 8
    /\ Vec3.z (VegetationItem.position a) == Vec3.z (VegetationItem.position b)
    /\ VegetationItem.radius a == 229 # 80
    /\ VegetationItem.radius b == 229 # 80
    /\ distSqXZ (VegetationItem.position a) (VegetationItem.position b)
       < (VegetationItem.radius a + VegetationItem.radius b)
         * (VegetationItem.radius a + VegetationItem.radius b)
    /\ (distXZ (VegetationItem.position a) (VegetationItem.position b)
        < Q2R (VegetationItem.radius a + VegetationItem.radius b))%R.
Proof.
  intros out. eexists. eexists.
  split; [vm_compute; reflexivity |].
  repeat (split; [vm_compute; reflexivity |]).
  unfold distXZ. apply sqrt_lt_of_lt_square.
  - apply Q2R_distSqXZ_nonneg.
  - rewrite <- RMicromega.Q2R_0. apply Qle_Rle. vm_compute. discriminate.
  - rewrite <- Q2R_mult. apply Qlt_Rlt. vm_compute. reflexivity.
Qed.

Lemma existsb_bind {A B : Type} (f : B -> bool) (g : A -> list B) (l : list A) :
  existsb f (l ≫= g) = existsb (fun a => existsb f (g a)) l.
Proof.
  induction l as [| a l IH]; [reflexivity |].
  cbn. rewrite existsb_app, IH. reflexivity.
Qed.

Lemma existsb_pointwise {A : Type} (f g : A -> bool) (l : list A) :
  (forall a, f a = g a) -> existsb f l = existsb g l.
Proof.
  intros H. induction l as [| a l IH]; [reflexivity |].
  cbn. now rewrite H, IH.
Qed.

(** [checkOverlap] is the test [overlaps] over the items of the
    neighbourhood. *)
Lemma checkOverlap_neighbours (g : SpatialHashGrid.t) (x z radius : Q) :
  SpatialHashGrid.checkOverlap g x z radius
  = existsb (SpatialHashGrid.overlaps x z radius) (neighbours g x z).
Proof.
  unfold SpatialHashGrid.checkOverlap, neighbours. cbv zeta.
  rewrite existsb_bind. apply existsb_pointwise. intros d.
  destruct (SpatialHashGrid.out_of_grid g _ _); reflexivity.
Qed.

(** C3, as the code has it.  Overlap is tested against the one grid that
    receives the items of both categories: a candidate of either category
    whose disc overlaps an item found in the 3x3 cell neighbourhood of
    its position, whatever the category of that item, is rejected, and
    the two output lists stay as they were. *)
Theorem C3_overlap_checked_across_categories (P : Platform)
    (s : VegetationGenerator.t P) (x z : Q) (type : VegetationType)
    (item : VegetationItem.t) :
  In item (neighbours (VegetationGenerator.spatialGrid P s) x z) ->
  SpatialHashGrid.overlaps x z (candidate_radius P s type) item = true ->
  let r := VegetationGenerator.tryPlaceItem P s x z type in
  fst r = false
  /\ VegetationGenerator.grassItems P (snd r) = VegetationGenerator.grassItems P s
  /\ VegetationGenerator.rockItems P (snd r) = VegetationGenerator.rockItems P s.
Proof.
  intros Hin Hov r. subst r. unfold VegetationGenerator.tryPlaceItem.
  destruct (VegetationGenerator.terrain P s) as [h |]; [| auto].
  destruct (VegetationGenerator.isValidTerrainLocation P s x z); cbn [negb]; [| auto].
  assert (Hex : forall radius,
            SpatialHashGrid.overlaps x z radius item = true ->
            SpatialHashGrid.checkOverlap (VegetationGenerator.spatialGrid P s) x z radius
            = true).
  { intros radius Hr. rewrite checkOverlap_neighbours.
    apply existsb_exists. exists item. split; assumption. }
  unfold candidate_radius in Hov.
  destruct type; unfold VegetationGenerator.draw_real, VegetationGenerator.draw_int in *;
    destruct (uniform_real P _ _ (VegetationGenerator.rng P s)) as [scale g1];
    cbn [fst snd] in *; cbn [VegetationGenerator.rng VegetationGenerator.set_rng
                             VegetationGenerator.config VegetationGenerator.spatialGrid];
    destruct (uniform_int P _ _ g1) as [ti g2];
    cbn [VegetationGenerator.set_rng VegetationGenerator.spatialGrid
         VegetationGenerator.terrain VegetationGenerator.config
         VegetationGenerator.terrainSizeX VegetationGenerator.terrainSizeZ
         VegetationGenerator.noise VegetationGenerator.grassItems
         VegetationGenerator.rockItems];
    rewrite (Hex _ Hov); cbn; auto.
Qed.

(** C3 fails as stated: on the [Rocky] preset, after a rock is placed at
    the origin (no grass exists), a grass candidate half a unit away is
    rejected, while the same candidate with the same engine state is
    accepted when the grid is empty; the rock is what rejects it. *)
Lemma C3_grass_rejected_by_rock :
  let placed := VegetationGenerator.tryPlaceItem placing_platform placing_state 0 0 Rock in
  let s1 := snd placed in
  let s0 := VegetationGenerator.set_rng placing_platform
              (VegetationGenerator.rng placing_platform s1) placing_state in
  fst placed = true
  /\ VegetationGenerator.grassItems placing_platform s1 = []
  /\ length (VegetationGenerator.rockItems placing_platform s1) = 1%nat
  /\ fst (VegetationGenerator.tryPlaceItem placing_platform s1 (1 # 2) 0 Grass) = false
  /\ fst (VegetationGenerator.tryPlaceItem placing_platform s0 (1 # 2) 0 Grass) = true.
Proof. vm_compute. repeat split; reflexivity. Qed.

(** ** Buckets *)

Lemma length_push_at {A : Type} (i : Z) (a : A) (v : list (list A)) :
  length (push_at i a v) = length v.
Proof. unfold push_at. destruct (i <? 0)%Z; [reflexivity | apply length_alter]. Qed.

Lemma bucket_push_at_ne {A : Type} (i j : Z) (a : A) (v : list (list A)) :
  i <> j -> bucket (push_at i a v) j = bucket v j.
Proof.
  intros Hne. unfold bucket, push_at.
  destruct (Z.ltb_spec j 0); [reflexivity |].
  destruct (Z.ltb_spec i 0); [reflexivity |].
  rewrite list_lookup_alter_ne by lia. reflexivity.
Qed.

Lemma bucket_push_at_eq {A : Type} (i : Z) (a : A) (v : list (list A)) :
  (0 <= i < Z.of_nat (length v))%Z -> bucket (push_at i a v) i = bucket v i ++ [a].
Proof.
  intros Hi. unfold bucket, push_at.
  destruct (Z.ltb_spec i 0); [lia |].
  rewrite list_lookup_alter_eq.
  destruct (lookup_lt_is_Some_2 v (Z.to_nat i)) as [b Hb]; [lia |].
  rewrite Hb. reflexivity.
Qed.


Lemma bucket_push_at_incl {A : Type} (i j : Z) (a x : A) (v : list (list A)) :
  In x (bucket v j) -> In x (bucket (push_at i a v) j).
Proof.
  destruct (Z.eq_dec i j) as [-> | Hne].
  - unfold bucket, push_at. destruct (Z.ltb_spec j 0); [auto |].
    rewrite list_lookup_alter_eq.
    destruct (v !! Z.to_nat j); simpl; [| auto].
    intros Hx. apply in_or_app. now left.
  - now rewrite bucket_push_at_ne.
Qed.

Lemma Forall_push_at {A : Type} (Q : A -> Prop) (i : Z) (a : A) (v : list (list A)) :
  Q a -> Forall (Forall Q) v -> Forall (Forall Q) (push_at i a v).
Proof.
  intros Ha Hv. unfold push_at. destruct (i <? 0)%Z; [exact Hv |].
  apply Forall_alter; [exact Hv |].
  intros b _ Hb. apply Forall_app. split; [exact Hb | now constructor].
Qed.

Lemma length_push_at2 {A : Type} (i j : Z) (a : A) (v : list (list (list A))) :
  length (push_at2 i j a v) = length v.
Proof. unfold push_at2. destruct (i <? 0)%Z; [reflexivity | apply length_alter]. Qed.



Lemma table_shape_push_at2 {A : Type} (n : nat) (i j : Z) (a : A)
    (v : list (list (list A))) :
  table_shape n v -> table_shape n (push_at2 i j a v).
Proof.
  intros [Hl Hr]. split; [now rewrite length_push_at2 |].
  unfold push_at2. destruct (i <? 0)%Z; [exact Hr |].
  apply Forall_alter; [exact Hr |].
  intros row _ Hrow. now rewrite length_push_at.
Qed.


Lemma Forall_push_at2 {A : Type} (Q : A -> Prop) (i j : Z) (a : A)
    (v : list (list (list A))) :
  Q a -> Forall (Forall (Forall Q)) v -> Forall (Forall (Forall Q)) (push_at2 i j a v).
Proof.
  intros Ha Hv. unfold push_at2. destruct (i <? 0)%Z; [exact Hv |].
  apply Forall_alter; [exact Hv |].
  intros row _ Hrow. now apply Forall_push_at.
Qed.

(** ** Rocks: counting and chunking *)

Lemma count_type_app (t0 : Z) (l1 l2 : list RockInstance.t) :
  count_type t0 (l1 ++ l2) = (count_type t0 l1 + count_type t0 l2)%nat.
Proof. unfold count_type. now rewrite filter_app, length_app. Qed.

Lemma count_type_one (t0 : Z) (i : RockInstance.t) :
  count_type t0 [i] = if (RockInstance.typeIndex i =? t0)%Z then 1%nat else 0%nat.
Proof.
  unfold count_type. destruct (Z.eqb_spec (RockInstance.typeIndex i) t0) as [E | E].
  - now rewrite filter_cons_True.
  - now rewrite filter_cons_False.
Qed.

Lemma count_type_cons (t0 : Z) (i : RockInstance.t) (l : list RockInstance.t) :
  count_type t0 (i :: l) = (count_type t0 [i] + count_type t0 l)%nat.
Proof. apply (count_type_app t0 [i] l). Qed.

Lemma count_type_map (t0 : Z) (f : RockInstance.t -> RockInstance.t)
    (l : list RockInstance.t) :
  (forall i, RockInstance.typeIndex (f i) = RockInstance.typeIndex i) ->
  count_type t0 (map f l) = count_type t0 l.
Proof.
  intros Hf. induction l as [| i l IH]; [reflexivity |].
  cbn [map]. rewrite (count_type_cons t0 (f i)), (count_type_cons t0 i), IH.
  now rewrite !count_type_one, Hf.
Qed.

Lemma count_type_none (t0 n : Z) (l : list RockInstance.t) :
  Forall (rock_index_ok n) l -> ~ (0 <= t0 < n)%Z -> count_type t0 l = 0%nat.
Proof.
  intros Hl Ht. induction Hl as [| i l Hi _ IH]; [reflexivity |].
  rewrite count_type_cons, IH, count_type_one.
  unfold rock_index_ok in Hi.
  destruct (Z.eqb_spec (RockInstance.typeIndex i) t0) as [E | E]; [lia | reflexivity].
Qed.

(** Appending an instance to one chunk adds it once to the instances of
    the chunks, or not at all when the index is outside the grid. *)
Lemma chunks_alter_count (t0 : Z) (inst : RockInstance.t) (k : nat)
    (chunks : list RockChunk.t) :
  (count_type t0 (concat (map RockChunk.instances (alter (Rocks.add_to_chunk inst) k chunks)))
   <= count_type t0 (concat (map RockChunk.instances chunks)) + count_type t0 [inst])%nat.
Proof.
  revert k. induction chunks as [| c chunks IH]; intros k; [destruct k; cbn -[count_type]; lia |].
  destruct k as [| k]; cbn [alter list_alter map concat].
  - unfold Rocks.add_to_chunk at 1. cbn [RockChunk.instances].
    rewrite !count_type_app. lia.
  - rewrite !count_type_app. specialize (IH k). cbn [alter] in IH. lia.
Qed.

Lemma organize_count (t0 : Z) (tx tz cs : Q) (l : list RockInstance.t)
    (chunks : list RockChunk.t) :
  (count_type t0 (concat (map RockChunk.instances (foldl (Rocks.assign_chunk tx tz cs) chunks l)))
   <= count_type t0 (concat (map RockChunk.instances chunks)) + count_type t0 l)%nat.
Proof.
  revert chunks. induction l as [| i l IH]; intros chunks; cbn [foldl]; [cbn; lia |].
  rewrite (count_type_cons t0 i l). etransitivity; [apply IH |].
  unfold Rocks.assign_chunk. destruct (_ <? 0)%Z; [lia |].
  pose proof (chunks_alter_count t0 i
                (Z.to_nat (Rocks.chunk_index tx tz cs (RockInstance.position i))) chunks).
  lia.
Qed.

Lemma organize_Forall (Q : RockInstance.t -> Prop) (tx tz cs : QArith_base.Q)
    (l : list RockInstance.t) (chunks : list RockChunk.t) :
  Forall Q l ->
  Forall (fun c => Forall Q (RockChunk.instances c)) chunks ->
  Forall (fun c => Forall Q (RockChunk.instances c))
         (foldl (Rocks.assign_chunk tx tz cs) chunks l).
Proof.
  intros Hl. revert chunks. induction Hl as [| i l Hi _ IH]; intros chunks Hc;
    cbn [foldl]; [exact Hc |].
  apply IH. unfold Rocks.assign_chunk. destruct (_ <? 0)%Z; [exact Hc |].
  apply Forall_alter; [exact Hc |].
  intros c _ H. unfold Rocks.add_to_chunk. cbn. apply Forall_app. split; [exact H |].
  now constructor.
Qed.

Lemma empty_chunks_empty (tx tz cs : Q) :
  Forall (fun c => RockChunk.instances c = []) (Rocks.empty_chunks tx tz cs).
Proof.
  unfold Rocks.empty_chunks. cbv zeta.
  apply Forall_bind, Forall_true. intros cz.
  apply Forall_bind, Forall_true. intros cx.
  constructor; [reflexivity | constructor].
Qed.

Lemma concat_instances_nil (chunks : list RockChunk.t) :
  Forall (fun c => RockChunk.instances c = []) chunks ->
  concat (map RockChunk.instances chunks) = [].
Proof.
  induction 1 as [| c chunks Hc _ IH]; [reflexivity |].
  cbn. now rewrite Hc, IH.
Qed.

(** ** Rocks: the persistent table and the buffers *)

Lemma resize_vec_nil {A : Type} (n : nat) (d : A) : resize_vec n d [] = replicate n d.
Proof. unfold resize_vec. rewrite take_nil. cbn. now rewrite Nat.sub_0_r. Qed.

Lemma resize_table_nil (n : nat) :
  Rocks.resize_table n [] = replicate n (replicate 3 []).
Proof.
  unfold Rocks.resize_table. rewrite resize_vec_nil.
  induction n as [| n IH]; [reflexivity |].
  cbn [replicate map]. now rewrite IH, resize_vec_nil.
Qed.

Lemma table_shape_replicate {A : Type} (n : nat) :
  table_shape n (replicate n (replicate 3 (@nil A))).
Proof.
  split; [apply length_replicate |].
  apply Forall_replicate. reflexivity.
Qed.

Lemma Forall3_replicate {A : Type} (Q : A -> Prop) (n : nat) :
  Forall (Forall (Forall Q)) (replicate n (replicate 3 [])).
Proof. apply Forall_replicate. repeat constructor. Qed.

Lemma totalInstances_unfold (row : list (list RockInstance.t)) :
  Rocks.totalInstances row
  = (Z.of_nat (length (bucket row 0)) + Z.of_nat (length (bucket row 1))
     + Z.of_nat (length (bucket row 2)))%Z.
Proof. unfold Rocks.totalInstances. cbn [foldl]. lia. Qed.

Lemma totalInstances_push_at (j : Z) (a : RockInstance.t)
    (row : list (list RockInstance.t)) :
  length row = 3%nat -> (0 <= j < 3)%Z ->
  Rocks.totalInstances (push_at j a row) = (Rocks.totalInstances row + 1)%Z.
Proof.
  intros Hlen Hj. rewrite !totalInstances_unfold.
  assert (j = 0 \/ j = 1 \/ j = 2)%Z as [-> | [-> | ->]] by lia.
  - rewrite bucket_push_at_eq, !bucket_push_at_ne, length_app by lia. cbn. lia.
  - rewrite bucket_push_at_eq, !bucket_push_at_ne, length_app by lia. cbn. lia.
  - rewrite bucket_push_at_eq, !bucket_push_at_ne, length_app by lia. cbn. lia.
Qed.

Lemma population_push_at2 (n : nat) (i j t0 : Z) (a : RockInstance.t)
    (tbl : list (list (list RockInstance.t))) :
  table_shape n tbl -> (0 <= i < Z.of_nat n)%Z -> (0 <= j < 3)%Z ->
  Rocks.totalInstances (default [] (push_at2 i j a tbl !! Z.to_nat t0))
  = (Rocks.totalInstances (default [] (tbl !! Z.to_nat t0))
     + (if (Z.of_nat (Z.to_nat t0) =? i)%Z then 1 else 0))%Z.
Proof.
  intros [Hl Hr] Hi Hj. unfold push_at2.
  destruct (Z.ltb_spec i 0); [lia |].
  destruct (Z.eqb_spec (Z.of_nat (Z.to_nat t0)) i) as [E | E].
  - replace (Z.to_nat t0) with (Z.to_nat i) by lia.
    rewrite list_lookup_alter_eq.
    destruct (lookup_lt_is_Some_2 tbl (Z.to_nat i)) as [row Hrow]; [lia |].
    rewrite Hrow. cbn [fmap option_fmap option_map default].
    apply totalInstances_push_at; [| exact Hj].
    rewrite Forall_forall in Hr. apply Hr. eapply list_elem_of_lookup_2. exact Hrow.
  - rewrite list_lookup_alter_ne by lia. lia.
Qed.

Lemma separate_shape (n : nat) (l : list RockInstance.t)
    (tbl : list (list (list RockInstance.t))) :
  table_shape n tbl -> table_shape n (foldl (Rocks.separate_one (Z.of_nat n)) tbl l).
Proof.
  revert tbl. induction l as [| i l IH]; intros tbl Hs; cbn [foldl]; [exact Hs |].
  apply IH. unfold Rocks.separate_one. destruct (_ && _); [| exact Hs].
  now apply table_shape_push_at2.
Qed.

Lemma separate_Forall (Q : RockInstance.t -> Prop) (n : Z) (l : list RockInstance.t)
    (tbl : list (list (list RockInstance.t))) :
  Forall Q l -> Forall (Forall (Forall Q)) tbl ->
  Forall (Forall (Forall Q)) (foldl (Rocks.separate_one n) tbl l).
Proof.
  intros Hl. revert tbl. induction Hl as [| i l Hi _ IH]; intros tbl Ht; cbn [foldl];
    [exact Ht |].
  apply IH. unfold Rocks.separate_one. destruct (_ && _); [| exact Ht].
  now apply Forall_push_at2.
Qed.

Lemma separate_population (n : nat) (t0 : Z) (l : list RockInstance.t)
    (tbl : list (list (list RockInstance.t))) :
  table_shape n tbl ->
  Forall (rock_index_ok (Z.of_nat n)) l ->
  Forall (fun i => (0 <= RockInstance.lodLevel i < 3)%Z) l ->
  (0 <= t0)%Z ->
  Rocks.totalInstances
    (default [] (foldl (Rocks.separate_one (Z.of_nat n)) tbl l !! Z.to_nat t0))
  = (Rocks.totalInstances (default [] (tbl !! Z.to_nat t0)) + Z.of_nat (count_type t0 l))%Z.
Proof.
  intros Hs Hv Hlod Ht. revert tbl Hs.
  induction l as [| i l IH]; intros tbl Hs; cbn [foldl]; [cbn; lia |].
  inversion Hv as [| ? ? Hi Hv']; subst. inversion Hlod as [| ? ? Hj Hlod']; subst.
  unfold rock_index_ok in Hi.
  rewrite count_type_cons, count_type_one.
  unfold Rocks.separate_one at 2.
  destruct (Z.leb_spec 0 (RockInstance.typeIndex i)); [| lia].
  destruct (Z.ltb_spec (RockInstance.typeIndex i) (Z.of_nat n)); [| lia].
  cbn [andb]. rewrite IH by (try assumption; now apply table_shape_push_at2).
  rewrite (population_push_at2 n) by assumption.
  rewrite Z2Nat.id by exact Ht.
  rewrite (Z.eqb_sym t0). destruct (RockInstance.typeIndex i =? t0)%Z; lia.
Qed.

Lemma totalInstances_nonneg (row : list (list RockInstance.t)) :
  (0 <= Rocks.totalInstances row)%Z.
Proof. rewrite totalInstances_unfold. lia. Qed.

(** A buffer that exists has the size of the whole population of its
    type. *)
Lemma create_row_size (D : Device) (t0 : Z) (row : list (list RockInstance.t))
    (k : nat) (sz : Z) :
  Rocks.create_row D t0 row [] !! k = Some (Some sz) ->
  sz = (Rocks.totalInstances row * RockInstanceGPU.sizeof)%Z.
Proof.
  unfold Rocks.create_row. rewrite resize_vec_nil. cbn [replicate].
  destruct (_ =? 0)%Z.
  - destruct k as [| [| [| k]]]; cbn; discriminate.
  - cbn [foldl].
    destruct (create_ok D t0 0); destruct (create_ok D t0 1); destruct (create_ok D t0 2);
      destruct k as [| [| [| k]]]; cbn; intros H; try discriminate;
      inversion H; reflexivity.
Qed.

Lemma clamp_typeIndex_ok (n : Z) (inst : RockInstance.t) :
  (0 < n)%Z -> rock_index_ok n (Rocks.clamp_typeIndex n inst).
Proof.
  intros Hn. unfold Rocks.clamp_typeIndex, rock_index_ok.
  set (ti := RockInstance.typeIndex inst).
  destruct (Z.ltb_spec ti 0); cbn [orb].
  - pose proof (Z.rem_bound_pos_neg ti n ltac:(lia) ltac:(lia)).
    destruct (Z.ltb_spec (Z.rem ti n) 0); cbn [RockInstance.typeIndex]; lia.
  - destruct (Z.leb_spec n ti).
    + pose proof (Z.rem_bound_pos ti n ltac:(lia) ltac:(lia)).
      destruct (Z.ltb_spec (Z.rem ti n) 0); cbn [RockInstance.typeIndex]; lia.
    + fold ti. lia.
Qed.

Lemma clamp_typeIndex_lod (n : Z) (inst : RockInstance.t) :
  RockInstance.lodLevel (Rocks.clamp_typeIndex n inst) = RockInstance.lodLevel inst.
Proof. unfold Rocks.clamp_typeIndex. destruct (_ || _); reflexivity. Qed.

(** ** Rocks: the culling pass *)

Lemma clear_visible_shape (n : nat) (tbl : list (list (list RockInstance.t))) :
  table_shape n tbl -> table_shape n (Rocks.clear_visible tbl).
Proof.
  intros [Hl Hr]. unfold Rocks.clear_visible. split; [now rewrite length_map |].
  apply Forall_map. eapply Forall_impl; [exact Hr |].
  intros row Hrow. cbn. now rewrite length_map.
Qed.

Lemma clear_visible_Forall (Q : RockInstance.t -> Prop)
    (tbl : list (list (list RockInstance.t))) :
  Forall (Forall (Forall Q)) (Rocks.clear_visible tbl).
Proof.
  unfold Rocks.clear_visible. apply Forall_map, Forall_true. intros row.
  apply Forall_map, Forall_true. intros b. constructor.
Qed.

Lemma lookup_map {A B : Type} (f : A -> B) (l : list A) (i : nat) :
  map f l !! i = f <$> l !! i.
Proof.
  revert i. induction l as [| a l IH]; intros [| i]; cbn; auto.
Qed.


Section Collect.
Variable n : nat.

Lemma collect_shape (insts : list RockInstance.t)
    (tbl : list (list (list RockInstance.t))) :
  table_shape n tbl ->
  table_shape n (foldl (Rocks.collect_one (Z.of_nat n)) tbl insts).
Proof.
  revert tbl. induction insts as [| i insts IH]; intros tbl Hs; cbn [foldl];
    [exact Hs |].
  apply IH. unfold Rocks.collect_one. destruct (_ && _); [| exact Hs].
  now apply table_shape_push_at2.
Qed.

Lemma collect_Forall (Q : RockInstance.t -> Prop) (insts : list RockInstance.t)
    (tbl : list (list (list RockInstance.t))) :
  Forall Q insts -> Forall (Forall (Forall Q)) tbl ->
  Forall (Forall (Forall Q)) (foldl (Rocks.collect_one (Z.of_nat n)) tbl insts).
Proof.
  intros Hl. revert tbl. induction Hl as [| i l Hi _ IH]; intros tbl Ht; cbn [foldl];
    [exact Ht |].
  apply IH. unfold Rocks.collect_one. destruct (_ && _); [| exact Ht].
  now apply Forall_push_at2.
Qed.




Variables viewDistance chunkSize : Q.
Variable cameraPos : Vec3.t.

Local Abbreviation cull :=
  (Rocks.cull_chunk (Z.of_nat n) viewDistance chunkSize cameraPos).

Lemma cull_chunks (chunks : list RockChunk.t)
    (st : list RockChunk.t * list (list (list RockInstance.t))) :
  fst (foldl cull st chunks)
  = fst st ++ map (rocks_flagged viewDistance chunkSize cameraPos) chunks.
Proof.
  revert st. induction chunks as [| c chunks IH]; intros st; cbn [foldl map].
  - now rewrite app_nil_r.
  - rewrite IH. unfold Rocks.cull_chunk. cbn [fst].
    now rewrite <- app_assoc.
Qed.

Lemma cull_shape (chunks : list RockChunk.t)
    (st : list RockChunk.t * list (list (list RockInstance.t))) :
  table_shape n (snd st) -> table_shape n (snd (foldl cull st chunks)).
Proof.
  revert st. induction chunks as [| c chunks IH]; intros st Hs; cbn [foldl];
    [exact Hs |].
  apply IH. unfold Rocks.cull_chunk. cbn [snd].
  destruct (Rocks.chunk_visible _ _ _ c); [| exact Hs]. now apply collect_shape.
Qed.

Lemma cull_Forall (Q : RockInstance.t -> Prop) (chunks : list RockChunk.t)
    (st : list RockChunk.t * list (list (list RockInstance.t))) :
  Forall (fun c => Forall Q (RockChunk.instances c)) chunks ->
  Forall (Forall (Forall Q)) (snd st) ->
  Forall (Forall (Forall Q)) (snd (foldl cull st chunks)).
Proof.
  intros Hc. revert st. induction Hc as [| c chunks Hi _ IH]; intros st Hs;
    cbn [foldl]; [exact Hs |].
  apply IH. unfold Rocks.cull_chunk. cbn [snd].
  destruct (Rocks.chunk_visible _ _ _ c); [| exact Hs]. now apply collect_Forall.
Qed.



End Collect.

(** ** Rocks: the invariant of the reachable states *)

Lemma chunk_instances_flagged (vd cs : Q) (cam : Vec3.t) (chunks : list RockChunk.t) :
  map RockChunk.instances (map (rocks_flagged vd cs cam) chunks)
  = map RockChunk.instances chunks.
Proof. rewrite map_map. reflexivity. Qed.

Lemma update_instance_typeIndex (P : Platform) (hi med : Q) (cam : Vec3.t)
    (i : RockInstance.t) :
  RockInstance.typeIndex (Rocks.update_instance P hi med cam i) = RockInstance.typeIndex i.
Proof. reflexivity. Qed.

Lemma count_type_chunks_map (t0 : Z) (f : RockInstance.t -> RockInstance.t)
    (chunks : list RockChunk.t) :
  (forall i, RockInstance.typeIndex (f i) = RockInstance.typeIndex i) ->
  count_type t0
    (concat (map RockChunk.instances
       (map (fun c => RockChunk.mk (RockChunk.centerPos c)
                        (map f (RockChunk.instances c)) (RockChunk.isVisible c))
            chunks)))
  = count_type t0 (concat (map RockChunk.instances chunks)).
Proof.
  intros Hf. induction chunks as [| c chunks IH]; [reflexivity |].
  cbn [map concat RockChunk.instances]. rewrite !count_type_app, IH.
  now rewrite count_type_map.
Qed.

Lemma Forall_chunks_concat (Q : RockInstance.t -> Prop) (chunks : list RockChunk.t) :
  Forall (fun c => Forall Q (RockChunk.instances c)) chunks ->
  Forall Q (concat (map RockChunk.instances chunks)).
Proof.
  induction 1 as [| c chunks Hc _ IH]; [constructor |].
  cbn. apply Forall_app. split; assumption.
Qed.

Lemma totalInstances_nil : Rocks.totalInstances [] = 0%Z.
Proof. reflexivity. Qed.

Lemma rocks_inv_init (D : Device) (tx tz hi med : Q) (models textures : list string)
    (pre : list RockInstance.t) (vd cs : Q) :
  Forall (fun i => (0 <= RockInstance.lodLevel i < 3)%Z) pre ->
  rocks_inv (Rocks.initWithInstances D (rocks_assign tx tz hi med Rocks.new)
               models textures pre vd cs).
Proof.
  intros Hlod. unfold Rocks.initWithInstances.
  cbn [rocks_assign Rocks.new Rocks.rockTypes Rocks.terrainSizeX Rocks.terrainSizeZ
       Rocks.lodDistanceHigh Rocks.lodDistanceMedium Rocks.chunks Rocks.allInstances
       Rocks.instancesByTypeLOD Rocks.visibleInstancesByTypeLOD
       Rocks.instanceBuffersByType Rocks.viewDistance Rocks.chunkSize].
  destruct (Rocks.loadRockTypesWithAutoLOD D models textures []) as [| r types] eqn:Ht.
  - constructor;
      cbn [Rocks.rockTypes Rocks.chunks Rocks.allInstances Rocks.instancesByTypeLOD
           Rocks.visibleInstancesByTypeLOD Rocks.instanceBuffersByType].
    + split; [reflexivity | constructor].
    + constructor.
    + constructor.
    + constructor.
    + constructor.
    + intros t0. unfold rocks_population, rocks_chunk_instances.
      cbn [Rocks.chunks Rocks.instancesByTypeLOD]. rewrite lookup_nil.
      cbn [default]. rewrite totalInstances_nil. cbn. lia.
    + intros t0 lod sz. unfold rocks_buffer. cbn [Rocks.instanceBuffersByType].
      rewrite lookup_nil. cbn [default]. rewrite lookup_nil. discriminate.
  - set (types' := r :: types) in *. set (n := length types').
    assert (Hn : (0 < Z.of_nat n)%Z) by (subst n types'; cbn; lia).
    set (all := map (Rocks.clamp_typeIndex (Z.of_nat n)) pre).
    assert (Hall : Forall (rock_index_ok (Z.of_nat n)) all).
    { subst all. apply Forall_map, Forall_true. intros i. now apply clamp_typeIndex_ok. }
    assert (Hall_lod : Forall (fun i => (0 <= RockInstance.lodLevel i < 3)%Z) all).
    { subst all. apply Forall_map. eapply Forall_impl; [exact Hlod |].
      intros i Hi. cbn. now rewrite clamp_typeIndex_lod. }
    set (chunks := Rocks.organizeIntoChunks tx tz cs all).
    assert (Hchunks : Forall (fun c => Forall (rock_index_ok (Z.of_nat n))
                                         (RockChunk.instances c)) chunks).
    { subst chunks. unfold Rocks.organizeIntoChunks.
      apply organize_Forall; [exact Hall |].
      eapply Forall_impl; [apply empty_chunks_empty |].
      intros c Hc. cbn in Hc. rewrite Hc. constructor. }
    unfold Rocks.finishInit.
    cbn [Rocks.rockTypes Rocks.terrainSizeX Rocks.terrainSizeZ
         Rocks.lodDistanceHigh Rocks.lodDistanceMedium Rocks.chunks Rocks.allInstances
         Rocks.instancesByTypeLOD Rocks.visibleInstancesByTypeLOD
         Rocks.instanceBuffersByType Rocks.viewDistance Rocks.chunkSize].
    fold n. fold all. fold chunks. rewrite !resize_table_nil.
    set (tbl := foldl (Rocks.separate_one (Z.of_nat n)) (replicate n (replicate 3 [])) all).
    assert (Hpop : forall t0 : Z,
              (Z.of_nat (count_type t0 (concat (map RockChunk.instances chunks)))
               <= Rocks.totalInstances (default [] (tbl !! Z.to_nat t0)))%Z).
    { intros t0. destruct (Z.le_gt_cases 0 t0) as [H0 | H0].
      - subst tbl. rewrite (separate_population n t0 all) by
          (try assumption; apply table_shape_replicate).
        pose proof (totalInstances_nonneg
                      (default [] (replicate n (replicate 3 []) !! Z.to_nat t0))).
        pose proof (organize_count t0 tx tz cs all (Rocks.empty_chunks tx tz cs)) as Hc.
        rewrite (concat_instances_nil _ (empty_chunks_empty tx tz cs)) in Hc.
        fold (Rocks.organizeIntoChunks tx tz cs all) in Hc. fold chunks in Hc.
        cbn in Hc. lia.
      - rewrite (count_type_none t0 (Z.of_nat n)) by
          (try lia; now apply Forall_chunks_concat).
        apply totalInstances_nonneg. }
    constructor;
      cbn [Rocks.rockTypes Rocks.chunks Rocks.allInstances Rocks.instancesByTypeLOD
           Rocks.visibleInstancesByTypeLOD Rocks.instanceBuffersByType Rocks.numTypes];
      unfold Rocks.numTypes;
      cbn [Rocks.rockTypes]; fold n.
    + apply table_shape_replicate.
    + exact Hall.
    + exact Hchunks.
    + subst tbl. apply separate_Forall; [exact Hall | apply Forall3_replicate].
    + apply Forall3_replicate.
    + exact Hpop.
    + intros t0 lod sz. unfold rocks_buffer, rocks_population.
      cbn [Rocks.instanceBuffersByType Rocks.instancesByTypeLOD].
      unfold Rocks.createInstanceBuffers. rewrite resize_vec_nil, list_lookup_imap.
      destruct (replicate n [] !! Z.to_nat t0) as [old |] eqn:Hold;
        cbn [fmap option_fmap option_map default]; [| rewrite lookup_nil; discriminate].
      apply lookup_replicate in Hold. destruct Hold as [-> _]. unfold Datatypes.id.
      destruct (Rocks.create_row D _ _ [] !! Z.to_nat lod) as [[sz' |] |] eqn:Hrow;
        cbn [default]; try discriminate.
      intros [= <-]. now apply create_row_size in Hrow.
Qed.

Lemma rocks_inv_update (P : Platform) (cam : Vec3.t) (s : Rocks.t) :
  rocks_inv s -> rocks_inv (Rocks.update P cam s).
Proof.
  intros [Hs Ha Hc Hp Hv Hpop Hb]. unfold Rocks.update, Rocks.updateLODLevels.
  constructor; try assumption.
  - cbn. unfold Rocks.numTypes in *. cbn.
    apply Forall_map. eapply Forall_impl; [exact Hc |].
    intros c Hi. cbn. apply Forall_map. eapply Forall_impl; [exact Hi |].
    intros i H. exact H.
  - intros t0. unfold rocks_chunk_instances, rocks_population in *.
    cbn [Rocks.chunks Rocks.instancesByTypeLOD].
    rewrite count_type_chunks_map by (intros i; apply update_instance_typeIndex).
    apply Hpop.
Qed.

Lemma rocks_inv_culling (D : Device) (cam : Vec3.t) (s : Rocks.t) :
  rocks_inv s -> rocks_inv (fst (Rocks.performChunkCulling D cam s)).
Proof.
  intros [Hs Ha Hc Hp Hv Hpop Hb]. unfold Rocks.performChunkCulling.
  set (n := length (Rocks.rockTypes s)) in *.
  set (st0 := ([], Rocks.clear_visible (Rocks.visibleInstancesByTypeLOD s))).
  pose proof (cull_chunks n (Rocks.viewDistance s) (Rocks.chunkSize s) cam
                (Rocks.chunks s) st0) as Hchunks.
  pose proof (cull_shape n (Rocks.viewDistance s) (Rocks.chunkSize s) cam
                (Rocks.chunks s) st0 (clear_visible_shape n _ Hs)) as Hshape.
  pose proof (cull_Forall n (Rocks.viewDistance s) (Rocks.chunkSize s) cam
                (rock_index_ok (Rocks.numTypes s)) (Rocks.chunks s) st0 Hc
                (clear_visible_Forall _ _)) as Hvalid.
  unfold Rocks.numTypes in *. fold n in Hvalid, Hchunks, Hshape |- *.
  destruct (foldl _ st0 (Rocks.chunks s)) as [chunks' visible'].
  subst st0. cbn [fst snd app] in *. subst chunks'.
  constructor; cbn [fst Rocks.rockTypes Rocks.chunks Rocks.allInstances
                    Rocks.instancesByTypeLOD Rocks.visibleInstancesByTypeLOD
                    Rocks.instanceBuffersByType];
    unfold Rocks.numTypes; cbn [Rocks.rockTypes]; fold n; try assumption.
  - apply Forall_map. eapply Forall_impl; [exact Hc |]. intros c H. exact H.
  - intros t0. unfold rocks_chunk_instances, rocks_population in *.
    cbn [Rocks.chunks Rocks.instancesByTypeLOD].
    rewrite chunk_instances_flagged. apply Hpop.
Qed.

Lemma rocks_inv_draw (D : Device) (cam : Vec3.t) (s : Rocks.t) :
  rocks_inv s -> rocks_inv (fst (Rocks.draw D cam s)).
Proof.
  intros H. unfold Rocks.draw. destruct (Rocks.rockTypes s); [exact H |].
  now apply rocks_inv_culling.
Qed.

Lemma rocks_inv_assign (tx tz hi med : Q) (s : Rocks.t) :
  rocks_inv s -> rocks_inv (rocks_assign tx tz hi med s).
Proof. intros [Hs Ha Hc Hp Hv Hpop Hb]. constructor; assumption. Qed.

Lemma rocks_reachable_inv (P : Platform) (D : Device) (s : Rocks.t) :
  rocks_reachable P D s -> rocks_inv s.
Proof.
  induction 1.
  - now apply rocks_inv_init.
  - now apply rocks_inv_update.
  - now apply rocks_inv_draw.
  - now apply rocks_inv_assign.
Qed.

(** ** Rocks: index validity, culling, buffer capacity *)

Lemma rocks_held_valid (P : Platform) (D : Device) (s : Rocks.t) :
  rocks_reachable P D s -> Forall (rock_index_ok (Rocks.numTypes s)) (rocks_held s).
Proof.
  intros Hr. destruct (rocks_reachable_inv P D s Hr) as [_ Ha Hc Hp Hv _ _].
  unfold rocks_held. repeat (apply Forall_app; split).
  - exact Ha.
  - now apply Forall_chunks_concat.
  - apply Forall_concat, Forall_concat. exact Hp.
  - apply Forall_concat, Forall_concat. exact Hv.
Qed.




(** ** Grass: tables of buckets indexed by group and type *)

Lemma map_alter_same {A B : Type} (h : A -> B) (f : A -> A) (k : nat) (l : list A) :
  (forall a, h (f a) = h a) -> map h (alter f k l) = map h l.
Proof.
  intros Hf. revert k. induction l as [| a l IH]; intros [| k]; cbn; auto.
  - now rewrite Hf.
  - f_equal. apply IH.
Qed.

Lemma map_alter_commute {A B : Type} (h : A -> B) (f : A -> A) (g : B -> B)
    (k : nat) (l : list A) :
  (forall a, h (f a) = g (h a)) -> map h (alter f k l) = alter g k (map h l).
Proof.
  intros Hf. revert k. induction l as [| a l IH]; intros [| k]; cbn; auto.
  - now rewrite Hf.
  - f_equal. apply IH.
Qed.

Lemma map_imap_same {A B : Type} (h : A -> B) (f : nat -> A -> A) (l : list A) :
  (forall k a, h (f k a) = h a) -> map h (imap f l) = map h l.
Proof.
  intros Hf. revert f Hf. induction l as [| a l IH]; intros f Hf; cbn; [reflexivity |].
  rewrite Hf. f_equal. apply IH. intros k b. apply Hf.
Qed.

Lemma alter_out_of_range {A : Type} (f : A -> A) (k : nat) (l : list A) :
  (length l <= k)%nat -> alter f k l = l.
Proof.
  revert k. induction l as [| a l IH]; intros [| k] H; cbn in *; auto; try lia.
  f_equal. apply IH. lia.
Qed.

Lemma push_at_out_of_range {A : Type} (i : Z) (a : A) (v : list (list A)) :
  ~ (0 <= i < Z.of_nat (length v))%Z -> push_at i a v = v.
Proof.
  intros H. unfold push_at. destruct (Z.ltb_spec i 0); [reflexivity |].
  apply alter_out_of_range. lia.
Qed.


(** With both indices inside the table the bucket grows by exactly one. *)
Lemma bucket2_push_at2_slot_exact {A : Type} (i j t0 l0 : Z) (a : A)
    (v : list (list (list A))) :
  (0 <= i < Z.of_nat (length v))%Z ->
  (0 <= j < Z.of_nat (length (default [] (v !! Z.to_nat i))))%Z ->
  length (bucket2 (push_at2 i j a v) t0 l0)
  = (length (bucket2 v t0 l0) + (if (i =? t0)%Z && (j =? l0)%Z then 1 else 0))%nat.
Proof.
  intros Hi Hj. unfold bucket2, push_at2.
  destruct (Z.ltb_spec i 0); [lia |].
  destruct (Z.ltb_spec t0 0).
  - destruct (Z.eqb_spec i t0); [lia | reflexivity].
  - destruct (Z.eqb_spec i t0) as [-> | Hne]; cbn [andb].
    + rewrite list_lookup_alter_eq.
      destruct (v !! Z.to_nat t0) as [row |]; cbn in *; [| lia].
      destruct (Z.eqb_spec j l0) as [-> | Hne].
      * rewrite bucket_push_at_eq, length_app by lia. reflexivity.
      * rewrite bucket_push_at_ne by assumption. lia.
    + rewrite list_lookup_alter_ne by lia. lia.
Qed.

Lemma map_length_push_at2 {A : Type} (i j : Z) (a : A) (v : list (list (list A))) :
  map length (push_at2 i j a v) = map length v.
Proof.
  unfold push_at2. destruct (i <? 0)%Z; [reflexivity |].
  apply map_alter_same. intros row. apply length_push_at.
Qed.


Lemma row_length_lookup {A : Type} (v : list (list (list A))) (counts : list nat) (k : nat) :
  map length v = counts ->
  length (default [] (v !! k)) = default 0%nat (counts !! k).
Proof.
  intros <-. rewrite lookup_map. now destruct (v !! k).
Qed.

(** ** Grass: counting *)

Lemma count_slot_app (gi t0 : Z) (l1 l2 : list GrassInstance.t) :
  count_slot gi t0 (l1 ++ l2) = (count_slot gi t0 l1 + count_slot gi t0 l2)%nat.
Proof. unfold count_slot. now rewrite filter_app, length_app. Qed.

Lemma count_slot_one (gi t0 : Z) (i : GrassInstance.t) :
  count_slot gi t0 [i]
  = if (GrassInstance.groupIndex i =? gi)%Z && (GrassInstance.typeIndex i =? t0)%Z
    then 1%nat else 0%nat.
Proof.
  unfold count_slot.
  destruct (Z.eqb_spec (GrassInstance.groupIndex i) gi) as [E1 | E1];
    destruct (Z.eqb_spec (GrassInstance.typeIndex i) t0) as [E2 | E2]; cbn [andb].
  - now rewrite filter_cons_True.
  - rewrite filter_cons_False; [reflexivity | tauto].
  - rewrite filter_cons_False; [reflexivity | tauto].
  - rewrite filter_cons_False; [reflexivity | tauto].
Qed.

Lemma count_slot_cons (gi t0 : Z) (i : GrassInstance.t) (l : list GrassInstance.t) :
  count_slot gi t0 (i :: l) = (count_slot gi t0 [i] + count_slot gi t0 l)%nat.
Proof. apply (count_slot_app gi t0 [i] l). Qed.

Lemma count_slot_none (gi t0 : Z) (counts : list nat) (l : list GrassInstance.t) :
  Forall (grass_index_ok counts) l -> (gi < 0)%Z -> count_slot gi t0 l = 0%nat.
Proof.
  intros Hl Hg. induction Hl as [| i l Hi _ IH]; [reflexivity |].
  rewrite count_slot_cons, IH, count_slot_one.
  destruct Hi as [Hi _].
  destruct (Z.eqb_spec (GrassInstance.groupIndex i) gi) as [E | E]; [lia | reflexivity].
Qed.

(** ** Grass: loading, index normalisation, chunking *)

Lemma loadGrassGroups_fresh_acc (D : Device) (configs : list GrassGroupConfig.t)
    (groups : list GrassGroup.t) :
  Forall (fun g => GrassGroup.types g <> []
                   /\ GrassGroup.instancesByType g = []
                   /\ GrassGroup.visibleInstancesByType g = []
                   /\ GrassGroup.instanceBuffers g = []) groups ->
  Forall (fun g => GrassGroup.types g <> []
                   /\ GrassGroup.instancesByType g = []
                   /\ GrassGroup.visibleInstancesByType g = []
                   /\ GrassGroup.instanceBuffers g = [])
         (HybridGrassField.loadGrassGroups D configs groups).
Proof.
  unfold HybridGrassField.loadGrassGroups.
  generalize (imap (fun (i : nat) (gc : GrassGroupConfig.t) => (i, gc)) configs).
  intros l. revert groups. induction l as [| gc l IH]; intros groups H;
    cbn [foldl]; [exact H |].
  apply IH. destruct (HybridGrassField.load_types D _ _) as [| ty types] eqn:E;
    [exact H |].
  apply Forall_app. split; [exact H |].
  constructor; [| constructor]. cbn. repeat split; discriminate.
Qed.

Lemma loadGrassGroups_fresh (D : Device) (configs : list GrassGroupConfig.t) :
  Forall (fun g => GrassGroup.types g <> []
                   /\ GrassGroup.instancesByType g = []
                   /\ GrassGroup.visibleInstancesByType g = []
                   /\ GrassGroup.instanceBuffers g = [])
         (HybridGrassField.loadGrassGroups D configs []).
Proof. apply loadGrassGroups_fresh_acc. constructor. Qed.

Lemma type_counts_lookup (groups : list GrassGroup.t) (gi : Z) :
  default 0%nat (type_counts groups !! Z.to_nat gi)
  = length (GrassGroup.types (HybridGrassField.group_at groups gi)).
Proof.
  unfold type_counts, HybridGrassField.group_at. rewrite lookup_map.
  now destruct (groups !! Z.to_nat gi).
Qed.

Lemma clamp_indices_ok (groups : list GrassGroup.t) (inst : GrassInstance.t) :
  groups <> [] ->
  Forall (fun g => GrassGroup.types g <> []) groups ->
  grass_index_ok (type_counts groups) (HybridGrassField.clamp_indices groups inst).
Proof.
  intros Hne Hty. unfold HybridGrassField.clamp_indices, grass_index_ok.
  cbn [GrassInstance.groupIndex GrassInstance.typeIndex].
  set (n := Z.of_nat (length groups)).
  assert (Hn : (0 < n)%Z) by (subst n; destruct groups; [contradiction | cbn [length]; lia]).
  set (gi := if (_ <? 0)%Z || (n <=? _)%Z then _ else _).
  assert (Hgi : (0 <= gi < n)%Z).
  { subst gi. set (g0 := GrassInstance.groupIndex inst).
    destruct (Z.ltb_spec g0 0); cbn [orb].
    - pose proof (Z.rem_bound_pos_neg g0 n ltac:(lia) ltac:(lia)).
      destruct (Z.ltb_spec (Z.rem g0 n) 0); lia.
    - destruct (Z.leb_spec n g0).
      + pose proof (Z.rem_bound_pos g0 n ltac:(lia) ltac:(lia)).
        destruct (Z.ltb_spec (Z.rem g0 n) 0); lia.
      + lia. }
  unfold type_counts at 1. rewrite length_map. fold n. split; [exact Hgi |].
  rewrite type_counts_lookup.
  set (m := Z.of_nat (length (GrassGroup.types (HybridGrassField.group_at groups gi)))).
  assert (Hm : (0 < m)%Z).
  { subst m. unfold HybridGrassField.group_at.
    destruct (lookup_lt_is_Some_2 groups (Z.to_nat gi)) as [g Hg]; [lia |].
    rewrite Hg. cbn [default]. unfold Datatypes.id.
    rewrite Forall_forall in Hty.
    assert (GrassGroup.types g <> []) by (apply Hty; eapply list_elem_of_lookup_2; exact Hg).
    destruct (GrassGroup.types g); [contradiction | cbn [length]; lia]. }
  set (t0 := GrassInstance.typeIndex inst).
  destruct (Z.ltb_spec 0 m); [| lia]. cbn [andb].
  destruct (Z.ltb_spec t0 0); cbn [orb].
  - pose proof (Z.rem_bound_pos_neg t0 m ltac:(lia) ltac:(lia)).
    destruct (Z.ltb_spec (Z.rem t0 m) 0); lia.
  - destruct (Z.leb_spec m t0).
    + pose proof (Z.rem_bound_pos t0 m ltac:(lia) ltac:(lia)).
      destruct (Z.ltb_spec (Z.rem t0 m) 0); lia.
    + lia.
Qed.

Lemma grass_chunks_alter_count (gi t0 : Z) (inst : GrassInstance.t) (k : nat)
    (chunks : list GrassChunk.t) :
  (count_slot gi t0
     (concat (map GrassChunk.instances (alter (HybridGrassField.add_to_chunk inst) k chunks)))
   <= count_slot gi t0 (concat (map GrassChunk.instances chunks))
      + count_slot gi t0 [inst])%nat.
Proof.
  revert k. induction chunks as [| c chunks IH]; intros k;
    [destruct k; cbn -[count_slot]; lia |].
  destruct k as [| k]; cbn [alter list_alter map concat].
  - unfold HybridGrassField.add_to_chunk at 1. cbn [GrassChunk.instances].
    rewrite !count_slot_app. lia.
  - rewrite !count_slot_app. specialize (IH k). cbn [alter] in IH. lia.
Qed.

Lemma grass_organize_count (gi t0 : Z) (tx tz cs : Q) (l : list GrassInstance.t)
    (chunks : list GrassChunk.t) :
  (count_slot gi t0
     (concat (map GrassChunk.instances
                (foldl (HybridGrassField.assign_chunk tx tz cs) chunks l)))
   <= count_slot gi t0 (concat (map GrassChunk.instances chunks)) + count_slot gi t0 l)%nat.
Proof.
  revert chunks. induction l as [| i l IH]; intros chunks; cbn [foldl];
    [cbn -[count_slot]; lia |].
  rewrite (count_slot_cons gi t0 i l). etransitivity; [apply IH |].
  unfold HybridGrassField.assign_chunk. destruct (_ <? 0)%Z; [lia |].
  pose proof (grass_chunks_alter_count gi t0 i
                (Z.to_nat (HybridGrassField.chunk_index tx tz cs (GrassInstance.position i)))
                chunks).
  lia.
Qed.

Lemma grass_organize_Forall (R : GrassInstance.t -> Prop) (tx tz cs : Q)
    (l : list GrassInstance.t) (chunks : list GrassChunk.t) :
  Forall R l ->
  Forall (fun c => Forall R (GrassChunk.instances c)) chunks ->
  Forall (fun c => Forall R (GrassChunk.instances c))
         (foldl (HybridGrassField.assign_chunk tx tz cs) chunks l).
Proof.
  intros Hl. revert chunks. induction Hl as [| i l Hi _ IH]; intros chunks Hc;
    cbn [foldl]; [exact Hc |].
  apply IH. unfold HybridGrassField.assign_chunk. destruct (_ <? 0)%Z; [exact Hc |].
  apply Forall_alter; [exact Hc |].
  intros c _ H. unfold HybridGrassField.add_to_chunk. cbn. apply Forall_app.
  split; [exact H | now constructor].
Qed.

Lemma grass_empty_chunks_empty (tx tz cs : Q) :
  Forall (fun c => GrassChunk.instances c = []) (HybridGrassField.empty_chunks tx tz cs).
Proof.
  unfold HybridGrassField.empty_chunks. cbv zeta.
  apply Forall_bind, Forall_true. intros cz.
  apply Forall_bind, Forall_true. intros cx.
  constructor; [reflexivity | constructor].
Qed.

Lemma grass_concat_instances_nil (chunks : list GrassChunk.t) :
  Forall (fun c => GrassChunk.instances c = []) chunks ->
  concat (map GrassChunk.instances chunks) = [].
Proof.
  induction 1 as [| c chunks Hc _ IH]; [reflexivity |].
  cbn. now rewrite Hc, IH.
Qed.

Lemma Forall_grass_chunks_concat (R : GrassInstance.t -> Prop) (chunks : list GrassChunk.t) :
  Forall (fun c => Forall R (GrassChunk.instances c)) chunks ->
  Forall R (concat (map GrassChunk.instances chunks)).
Proof.
  induction 1 as [| c chunks Hc _ IH]; [constructor |].
  cbn. apply Forall_app. split; assumption.
Qed.

(** ** Grass: the bucket loops as table updates *)

Lemma add_instance_persistent (inst : GrassInstance.t) (g : GrassGroup.t) :
  GrassGroup.instancesByType (HybridGrassField.add_instance inst g)
  = push_at (GrassInstance.typeIndex inst) inst (GrassGroup.instancesByType g).
Proof.
  unfold HybridGrassField.add_instance.
  destruct (Z.leb_spec 0 (GrassInstance.typeIndex inst));
    destruct (Z.ltb_spec (GrassInstance.typeIndex inst)
                (Z.of_nat (length (GrassGroup.instancesByType g))));
    cbn [andb]; try reflexivity; symmetry; apply push_at_out_of_range; lia.
Qed.

Lemma show_instance_visible (inst : GrassInstance.t) (g : GrassGroup.t) :
  GrassGroup.visibleInstancesByType (HybridGrassField.show_instance inst g)
  = push_at (GrassInstance.typeIndex inst) inst (GrassGroup.visibleInstancesByType g).
Proof.
  unfold HybridGrassField.show_instance.
  destruct (Z.leb_spec 0 (GrassInstance.typeIndex inst));
    destruct (Z.ltb_spec (GrassInstance.typeIndex inst)
                (Z.of_nat (length (GrassGroup.visibleInstancesByType g))));
    cbn [andb]; try reflexivity; symmetry; apply push_at_out_of_range; lia.
Qed.

Lemma push_at2_as_alter {A : Type} (i j : Z) (a : A) (f : list (list A) -> list (list A))
    (v : list (list (list A))) :
  (forall row, f row = push_at j a row) ->
  (if (0 <=? i)%Z && (i <? Z.of_nat (length v))%Z then alter f (Z.to_nat i) v else v)
  = push_at2 i j a v.
Proof.
  intros Hf. unfold push_at2.
  destruct (Z.leb_spec 0 i); destruct (Z.ltb_spec i 0); try lia; cbn [andb];
    [| reflexivity].
  destruct (Z.ltb_spec i (Z.of_nat (length v))).
  - apply list_alter_ext; [intros; apply Hf | reflexivity].
  - symmetry. apply alter_out_of_range. lia.
Qed.

Lemma separate_one_persistent (groups : list GrassGroup.t) (inst : GrassInstance.t) :
  grass_persistent (HybridGrassField.separate_one groups inst)
  = grass_collect (grass_persistent groups) inst.
Proof.
  unfold grass_persistent, grass_collect, HybridGrassField.separate_one.
  rewrite <- (push_at2_as_alter _ _ _
                (push_at (GrassInstance.typeIndex inst) inst)) by reflexivity.
  rewrite length_map.
  destruct (_ && _); [| reflexivity].
  apply map_alter_commute. intros g. apply add_instance_persistent.
Qed.

Lemma collect_one_visible (groups : list GrassGroup.t) (inst : GrassInstance.t) :
  grass_visible (HybridGrassField.collect_one groups inst)
  = grass_collect (grass_visible groups) inst.
Proof.
  unfold grass_visible, grass_collect, HybridGrassField.collect_one.
  rewrite <- (push_at2_as_alter _ _ _
                (push_at (GrassInstance.typeIndex inst) inst)) by reflexivity.
  rewrite length_map.
  destruct (_ && _); [| reflexivity].
  apply map_alter_commute. intros g. apply show_instance_visible.
Qed.

(** What the bucket loops leave alone. *)
Lemma separate_one_frame {B : Type} (h : GrassGroup.t -> B)
    (groups : list GrassGroup.t) (inst : GrassInstance.t) :
  (forall g, h (HybridGrassField.add_instance inst g) = h g) ->
  map h (HybridGrassField.separate_one groups inst) = map h groups.
Proof.
  intros Hh. unfold HybridGrassField.separate_one.
  destruct (_ && _); [| reflexivity]. now apply map_alter_same.
Qed.

Lemma collect_one_frame {B : Type} (h : GrassGroup.t -> B)
    (groups : list GrassGroup.t) (inst : GrassInstance.t) :
  (forall g, h (HybridGrassField.show_instance inst g) = h g) ->
  map h (HybridGrassField.collect_one groups inst) = map h groups.
Proof.
  intros Hh. unfold HybridGrassField.collect_one.
  destruct (_ && _); [| reflexivity]. now apply map_alter_same.
Qed.

Lemma add_instance_types (inst : GrassInstance.t) (g : GrassGroup.t) :
  GrassGroup.types (HybridGrassField.add_instance inst g) = GrassGroup.types g.
Proof. unfold HybridGrassField.add_instance. now destruct (_ && _). Qed.

Lemma add_instance_visible (inst : GrassInstance.t) (g : GrassGroup.t) :
  GrassGroup.visibleInstancesByType (HybridGrassField.add_instance inst g)
  = GrassGroup.visibleInstancesByType g.
Proof. unfold HybridGrassField.add_instance. now destruct (_ && _). Qed.

Lemma add_instance_buffers (inst : GrassInstance.t) (g : GrassGroup.t) :
  GrassGroup.instanceBuffers (HybridGrassField.add_instance inst g)
  = GrassGroup.instanceBuffers g.
Proof. unfold HybridGrassField.add_instance. now destruct (_ && _). Qed.

Lemma show_instance_types (inst : GrassInstance.t) (g : GrassGroup.t) :
  GrassGroup.types (HybridGrassField.show_instance inst g) = GrassGroup.types g.
Proof. unfold HybridGrassField.show_instance. now destruct (_ && _). Qed.

Lemma show_instance_persistent (inst : GrassInstance.t) (g : GrassGroup.t) :
  GrassGroup.instancesByType (HybridGrassField.show_instance inst g)
  = GrassGroup.instancesByType g.
Proof. unfold HybridGrassField.show_instance. now destruct (_ && _). Qed.

Lemma show_instance_buffers (inst : GrassInstance.t) (g : GrassGroup.t) :
  GrassGroup.instanceBuffers (HybridGrassField.show_instance inst g)
  = GrassGroup.instanceBuffers g.
Proof. unfold HybridGrassField.show_instance. now destruct (_ && _). Qed.

Lemma foldl_frame {A B C : Type} (h : A -> C) (f : A -> B -> A) (l : list B) (a : A) :
  (forall a b, h (f a b) = h a) -> h (foldl f a l) = h a.
Proof.
  intros Hf. revert a. induction l as [| b l IH]; intros a; cbn [foldl];
    [reflexivity |]. now rewrite IH, Hf.
Qed.

Lemma foldl_commute {A A' B : Type} (h : A -> A') (f : A -> B -> A) (f' : A' -> B -> A')
    (l : list B) (a : A) :
  (forall a b, h (f a b) = f' (h a) b) -> h (foldl f a l) = foldl f' (h a) l.
Proof.
  intros Hf. revert a. induction l as [| b l IH]; intros a; cbn [foldl];
    [reflexivity |]. now rewrite IH, Hf.
Qed.

(** ** Grass: properties of the table updates *)

Section GrassTables.
Variable counts : list nat.

Local Abbreviation ok := (grass_index_ok counts).

Lemma collect_table_shape (l : list GrassInstance.t)
    (tbl : list (list (list GrassInstance.t))) :
  map length (foldl grass_collect tbl l) = map length tbl.
Proof.
  apply foldl_frame. intros t i. apply map_length_push_at2.
Qed.

Lemma collect_table_Forall (R : GrassInstance.t -> Prop) (l : list GrassInstance.t)
    (tbl : list (list (list GrassInstance.t))) :
  Forall R l -> Forall (Forall (Forall R)) tbl ->
  Forall (Forall (Forall R)) (foldl grass_collect tbl l).
Proof.
  intros Hl. revert tbl. induction Hl as [| i l Hi _ IH]; intros tbl Ht; cbn [foldl];
    [exact Ht |].
  apply IH. now apply Forall_push_at2.
Qed.



Lemma ok_in_table (tbl : list (list (list GrassInstance.t))) (i : GrassInstance.t) :
  map length tbl = counts -> ok i ->
  (0 <= GrassInstance.groupIndex i < Z.of_nat (length tbl))%Z
  /\ (0 <= GrassInstance.typeIndex i
      < Z.of_nat (length (default [] (tbl !! Z.to_nat (GrassInstance.groupIndex i)))))%Z.
Proof.
  intros Hs [Hg Ht]. rewrite (row_length_lookup tbl counts) by exact Hs.
  split; [| exact Ht]. rewrite <- Hs, length_map in Hg. exact Hg.
Qed.

Lemma collect_table_exact (l : list GrassInstance.t)
    (tbl : list (list (list GrassInstance.t))) (gi t0 : Z) :
  map length tbl = counts -> Forall ok l ->
  length (bucket2 (foldl grass_collect tbl l) gi t0)
  = (length (bucket2 tbl gi t0) + count_slot gi t0 l)%nat.
Proof.
  intros Hs Hl. revert tbl Hs. induction Hl as [| i l Hi _ IH]; intros tbl Hs;
    cbn [foldl]; [change (count_slot gi t0 []) with 0%nat; lia |].
  rewrite count_slot_cons, count_slot_one.
  rewrite IH by (unfold grass_collect; now rewrite map_length_push_at2).
  destruct (ok_in_table tbl i Hs Hi) as [Hg Ht].
  unfold grass_collect. rewrite bucket2_push_at2_slot_exact by assumption. lia.
Qed.


Variables viewDistance chunkSize : Q.
Variable cameraPos : Vec3.t.

Local Abbreviation cull := (grass_cull viewDistance chunkSize cameraPos).

Lemma cull_table_shape (chunks : list GrassChunk.t)
    (tbl : list (list (list GrassInstance.t))) :
  map length (foldl cull tbl chunks) = map length tbl.
Proof.
  apply foldl_frame. intros t c. unfold grass_cull.
  destruct (HybridGrassField.chunk_visible _ _ _ c); [| reflexivity].
  apply collect_table_shape.
Qed.

Lemma cull_table_Forall (R : GrassInstance.t -> Prop) (chunks : list GrassChunk.t)
    (tbl : list (list (list GrassInstance.t))) :
  Forall (fun c => Forall R (GrassChunk.instances c)) chunks ->
  Forall (Forall (Forall R)) tbl ->
  Forall (Forall (Forall R)) (foldl cull tbl chunks).
Proof.
  intros Hc. revert tbl. induction Hc as [| c chunks Hi _ IH]; intros tbl Ht;
    cbn [foldl]; [exact Ht |].
  apply IH. unfold grass_cull.
  destruct (HybridGrassField.chunk_visible _ _ _ c); [| exact Ht].
  now apply collect_table_Forall.
Qed.



End GrassTables.

(** ** Grass: groups and their tables *)

Lemma type_counts_types (groups : list GrassGroup.t) :
  type_counts groups = map length (map GrassGroup.types groups).
Proof. unfold type_counts. now rewrite map_map. Qed.

Lemma type_counts_frame (groups groups' : list GrassGroup.t) :
  map GrassGroup.types groups' = map GrassGroup.types groups ->
  type_counts groups' = type_counts groups.
Proof. intros H. now rewrite !type_counts_types, H. Qed.

Lemma group_at_types (groups : list GrassGroup.t) (gi : Z) :
  GrassGroup.types (HybridGrassField.group_at groups gi)
  = default [] (map GrassGroup.types groups !! Z.to_nat gi).
Proof.
  unfold HybridGrassField.group_at. rewrite lookup_map.
  now destruct (groups !! Z.to_nat gi).
Qed.

Lemma group_at_persistent (groups : list GrassGroup.t) (gi : Z) :
  GrassGroup.instancesByType (HybridGrassField.group_at groups gi)
  = default [] (grass_persistent groups !! Z.to_nat gi).
Proof.
  unfold HybridGrassField.group_at, grass_persistent. rewrite lookup_map.
  now destruct (groups !! Z.to_nat gi).
Qed.

Lemma totalGroupInstances_frame (g g' : GrassGroup.t) :
  GrassGroup.types g' = GrassGroup.types g ->
  GrassGroup.instancesByType g' = GrassGroup.instancesByType g ->
  HybridGrassField.totalGroupInstances g' = HybridGrassField.totalGroupInstances g.
Proof. intros H1 H2. unfold HybridGrassField.totalGroupInstances. now rewrite H1, H2. Qed.

Lemma population_frame (groups groups' : list GrassGroup.t) (gi : Z) :
  map GrassGroup.types groups' = map GrassGroup.types groups ->
  grass_persistent groups' = grass_persistent groups ->
  HybridGrassField.totalGroupInstances (HybridGrassField.group_at groups' gi)
  = HybridGrassField.totalGroupInstances (HybridGrassField.group_at groups gi).
Proof.
  intros H1 H2. apply totalGroupInstances_frame.
  - now rewrite !group_at_types, H1.
  - now rewrite !group_at_persistent, H2.
Qed.



(** A buffer that exists has the size that the group's capacity
    requires. *)
Lemma create_group_buffers_size (D : Device) (gi : Z) (g : GrassGroup.t)
    (k : nat) (sz : Z) :
  GrassGroup.instanceBuffers g = [] ->
  GrassGroup.instanceBuffers (HybridGrassField.create_group_buffers D gi g) !! k
  = Some (Some sz) ->
  sz = ((if (HybridGrassField.totalGroupInstances g =? 0)%Z then 1000
         else HybridGrassField.totalGroupInstances g) * GrassInstanceGPU.sizeof)%Z.
Proof.
  intros Hb. unfold HybridGrassField.create_group_buffers.
  cbn [GrassGroup.instanceBuffers]. rewrite Hb, resize_vec_nil.
  set (b := (_ * GrassInstanceGPU.sizeof)%Z).
  assert (H : Forall (fun o => o = None \/ o = Some b)
                (replicate (length (GrassGroup.types g)) (@None Z))).
  { apply Forall_replicate. now left. }
  revert H. generalize (replicate (length (GrassGroup.types g)) (@None Z)).
  generalize (seqZ 0 (Z.of_nat (length (GrassGroup.types g)))).
  intros l. induction l as [| t0 l IH]; intros slots H; cbn [foldl].
  - intros Hk. rewrite Forall_forall in H.
    destruct (H (Some sz)) as [E | E]; [eapply list_elem_of_lookup_2; exact Hk | |];
      congruence.
  - apply IH. destruct (create_ok D gi t0); [| exact H].
    apply Forall_insert; [exact H | now right].
Qed.


(** ** Grass: the culling pass on the groups *)

Lemma clear_group_visible (groups : list GrassGroup.t) :
  grass_visible (map HybridGrassField.clear_group groups)
  = map (map (fun _ => [])) (grass_visible groups).
Proof. unfold grass_visible. rewrite !map_map. reflexivity. Qed.

Lemma cleared_shape (tbl : list (list (list GrassInstance.t))) :
  map length (map (map (fun _ : list GrassInstance.t => @nil GrassInstance.t)) tbl)
  = map length tbl.
Proof.
  rewrite map_map. apply map_ext. intros row. apply length_map.
Qed.


Lemma cleared_Forall (R : GrassInstance.t -> Prop)
    (tbl : list (list (list GrassInstance.t))) :
  Forall (Forall (Forall R))
         (map (map (fun _ : list GrassInstance.t => @nil GrassInstance.t)) tbl).
Proof.
  apply Forall_map, Forall_true. intros row.
  apply Forall_map, Forall_true. intros b. constructor.
Qed.

Section GrassCulling.
Variables viewDistance chunkSize : Q.
Variable cameraPos : Vec3.t.

Local Abbreviation cull :=
  (HybridGrassField.cull_chunk viewDistance chunkSize cameraPos).

Lemma grass_cull_chunks (chunks : list GrassChunk.t)
    (st : list GrassChunk.t * list GrassGroup.t) :
  fst (foldl cull st chunks)
  = fst st ++ map (grass_flagged viewDistance chunkSize cameraPos) chunks.
Proof.
  revert st. induction chunks as [| c chunks IH]; intros st; cbn [foldl map].
  - now rewrite app_nil_r.
  - rewrite IH. unfold HybridGrassField.cull_chunk. cbn [fst].
    now rewrite <- app_assoc.
Qed.

Lemma grass_cull_visible (chunks : list GrassChunk.t)
    (st : list GrassChunk.t * list GrassGroup.t) :
  grass_visible (snd (foldl cull st chunks))
  = foldl (grass_cull viewDistance chunkSize cameraPos) (grass_visible (snd st)) chunks.
Proof.
  apply (foldl_commute (fun st => grass_visible (snd st))).
  intros st0 c. unfold HybridGrassField.cull_chunk, grass_cull. cbn [snd].
  destruct (HybridGrassField.chunk_visible _ _ _ c); [| reflexivity].
  apply (foldl_commute grass_visible). intros groups inst.
  apply collect_one_visible.
Qed.

Lemma grass_cull_frame {B : Type} (h : GrassGroup.t -> B) (chunks : list GrassChunk.t)
    (st : list GrassChunk.t * list GrassGroup.t) :
  (forall inst g, h (HybridGrassField.show_instance inst g) = h g) ->
  map h (snd (foldl cull st chunks)) = map h (snd st).
Proof.
  intros Hh. apply (foldl_frame (fun st => map h (snd st))).
  intros st0 c. unfold HybridGrassField.cull_chunk. cbn [snd].
  destruct (HybridGrassField.chunk_visible _ _ _ c); [| reflexivity].
  apply (foldl_frame (map h)). intros groups inst.
  apply collect_one_frame. apply Hh.
Qed.
End GrassCulling.

(** ** Grass: the invariant of the reachable states *)

Lemma resize_fresh_groups (groups : list GrassGroup.t) :
  Forall (fun g => GrassGroup.types g <> []
                   /\ GrassGroup.instancesByType g = []
                   /\ GrassGroup.visibleInstancesByType g = []
                   /\ GrassGroup.instanceBuffers g = []) groups ->
  map GrassGroup.types (map HybridGrassField.resize_group groups)
  = map GrassGroup.types groups
  /\ grass_persistent (map HybridGrassField.resize_group groups)
     = map (fun g => replicate (length (GrassGroup.types g)) []) groups
  /\ grass_visible (map HybridGrassField.resize_group groups)
     = map (fun g => replicate (length (GrassGroup.types g)) []) groups
  /\ Forall (fun g => GrassGroup.instanceBuffers g = [])
            (map HybridGrassField.resize_group groups).
Proof.
  intros H. unfold grass_persistent, grass_visible.
  rewrite !map_map. repeat split.
  - apply map_ext_Forall. eapply Forall_impl; [exact H |].
    intros g (_ & Hp & _). cbn. now rewrite Hp, resize_vec_nil.
  - apply map_ext_Forall. eapply Forall_impl; [exact H |].
    intros g (_ & _ & Hv & _). cbn. now rewrite Hv, resize_vec_nil.
  - apply Forall_map. eapply Forall_impl; [exact H |].
    intros g (_ & _ & _ & Hb). exact Hb.
Qed.

Lemma replicate_table_shape (groups : list GrassGroup.t) :
  map length (map (fun g => replicate (length (GrassGroup.types g))
                                      (@nil GrassInstance.t)) groups)
  = type_counts groups.
Proof.
  unfold type_counts. rewrite map_map. apply map_ext. intros g.
  apply length_replicate.
Qed.

Lemma replicate_table_Forall (R : GrassInstance.t -> Prop) (groups : list GrassGroup.t) :
  Forall (Forall (Forall R))
         (map (fun g => replicate (length (GrassGroup.types g))
                                  (@nil GrassInstance.t)) groups).
Proof.
  apply Forall_map, Forall_true. intros g. apply Forall_replicate. constructor.
Qed.

Lemma replicate_table_bucket2 (groups : list GrassGroup.t) (gi t0 : Z) :
  bucket2 (map (fun g => replicate (length (GrassGroup.types g))
                                   (@nil GrassInstance.t)) groups) gi t0 = [].
Proof.
  unfold bucket2, bucket.
  destruct (gi <? 0)%Z; [reflexivity |].
  destruct (t0 <? 0)%Z; [reflexivity |].
  rewrite lookup_map. destruct (groups !! Z.to_nat gi) as [g |]; [| reflexivity].
  cbn. destruct (replicate _ _ !! Z.to_nat t0) as [b |] eqn:E; [| reflexivity].
  apply lookup_replicate in E. now destruct E as [-> _].
Qed.

Lemma separate_frame {B : Type} (h : GrassGroup.t -> B) (groups : list GrassGroup.t)
    (l : list GrassInstance.t) :
  (forall inst g, h (HybridGrassField.add_instance inst g) = h g) ->
  map h (foldl HybridGrassField.separate_one groups l) = map h groups.
Proof.
  intros Hh. apply (foldl_frame (map h)). intros gs inst.
  apply separate_one_frame. apply Hh.
Qed.

Lemma grass_inv_init (D : Device) (tx tz vd0 : Q) (configs : list GrassGroupConfig.t)
    (pre : list GrassInstance.t) (vd cs : Q) :
  grass_inv (HybridGrassField.initWithInstances D
               (grass_assign tx tz vd0 HybridGrassField.new) configs pre vd cs).
Proof.
  unfold HybridGrassField.initWithInstances.
  cbn [grass_assign HybridGrassField.new HybridGrassField.groups
       HybridGrassField.terrainSizeX HybridGrassField.terrainSizeZ
       HybridGrassField.chunks HybridGrassField.allInstances
       HybridGrassField.normalizedGroupWeights HybridGrassField.normalizedTypeWeights
       HybridGrassField.windTime].
  pose proof (loadGrassGroups_fresh D configs) as Hfresh.
  destruct (HybridGrassField.loadGrassGroups D configs []) as [| g0 gs] eqn:Hload.
  - constructor;
      cbn [HybridGrassField.groups HybridGrassField.chunks HybridGrassField.allInstances];
      try reflexivity; try constructor.
    + intros gi t0. cbn. lia.
    + intros gi t0 sz. unfold grass_buffer. cbn [HybridGrassField.groups grass_buffers map].
      rewrite lookup_nil. cbn [default]. rewrite lookup_nil. discriminate.
  - set (groups0 := g0 :: gs) in *.
    set (counts := type_counts groups0).
    set (all := map (HybridGrassField.clamp_indices groups0) pre).
    assert (Hall : Forall (grass_index_ok counts) all).
    { subst all. apply Forall_map, Forall_true. intros i.
      apply clamp_indices_ok; [subst groups0; discriminate |].
      eapply Forall_impl; [exact Hfresh |]. intros g Hg. apply Hg. }
    set (chunks := HybridGrassField.organizeIntoChunks tx tz cs all).
    assert (Hchunks : Forall (fun c => Forall (grass_index_ok counts)
                                         (GrassChunk.instances c)) chunks).
    { subst chunks. unfold HybridGrassField.organizeIntoChunks.
      apply grass_organize_Forall; [exact Hall |].
      eapply Forall_impl; [apply grass_empty_chunks_empty |].
      intros c Hc. cbn in Hc. rewrite Hc. constructor. }
    destruct (resize_fresh_groups groups0 Hfresh) as (Hty0 & Hp0 & Hv0 & Hb0).
    unfold HybridGrassField.finishInit.
    cbn [HybridGrassField.groups HybridGrassField.terrainSizeX
         HybridGrassField.terrainSizeZ HybridGrassField.chunks
         HybridGrassField.allInstances HybridGrassField.viewDistance
         HybridGrassField.normalizedGroupWeights HybridGrassField.normalizedTypeWeights
         HybridGrassField.chunkSize HybridGrassField.windTime].
    fold all. fold chunks.
    unfold HybridGrassField.separateInstancesByGroupAndType.
    set (groups1 := foldl HybridGrassField.separate_one
                      (map HybridGrassField.resize_group groups0) all).
    set (groups2 := HybridGrassField.createInstanceBuffers D groups1).
    assert (Hty1 : map GrassGroup.types groups1 = map GrassGroup.types groups0).
    { subst groups1. rewrite separate_frame by apply add_instance_types. exact Hty0. }
    assert (Hv1 : grass_visible groups1
                  = map (fun g => replicate (length (GrassGroup.types g)) []) groups0).
    { subst groups1. unfold grass_visible in *.
      rewrite separate_frame by apply add_instance_visible. exact Hv0. }
    assert (Hp1 : grass_persistent groups1
                  = foldl grass_collect
                      (map (fun g => replicate (length (GrassGroup.types g)) []) groups0)
                      all).
    { subst groups1. rewrite <- Hp0.
      apply (foldl_commute grass_persistent). apply separate_one_persistent. }
    assert (Hb1 : Forall (fun g => GrassGroup.instanceBuffers g = []) groups1).
    { apply (proj1 (Forall_map GrassGroup.instanceBuffers (fun b => b = []) groups1)).
      replace (map GrassGroup.instanceBuffers groups1)
        with (map GrassGroup.instanceBuffers (map HybridGrassField.resize_group groups0)).
      - apply (proj2 (Forall_map GrassGroup.instanceBuffers (fun b => b = []) _)).
        exact Hb0.
      - subst groups1. symmetry. apply separate_frame. apply add_instance_buffers. }
    assert (Hty2 : map GrassGroup.types groups2 = map GrassGroup.types groups0).
    { subst groups2. unfold HybridGrassField.createInstanceBuffers.
      rewrite map_imap_same by reflexivity. exact Hty1. }
    assert (Hv2 : grass_visible groups2 = grass_visible groups1).
    { subst groups2. unfold HybridGrassField.createInstanceBuffers, grass_visible.
      apply map_imap_same. reflexivity. }
    assert (Hp2 : grass_persistent groups2 = grass_persistent groups1).
    { subst groups2. unfold HybridGrassField.createInstanceBuffers, grass_persistent.
      apply map_imap_same. reflexivity. }
    assert (Hc2 : type_counts groups2 = counts) by now apply type_counts_frame.
    constructor;
      cbn [HybridGrassField.groups HybridGrassField.chunks HybridGrassField.allInstances];
      rewrite ?Hc2, ?Hv2, ?Hp2, ?Hv1, ?Hp1.
    + apply replicate_table_shape.
    + rewrite collect_table_shape. apply replicate_table_shape.
    + exact Hall.
    + exact Hchunks.
    + apply collect_table_Forall; [exact Hall | apply replicate_table_Forall].
    + apply replicate_table_Forall.
    + intros gi t0. unfold grass_chunk_instances. cbn [HybridGrassField.chunks].
      rewrite (collect_table_exact counts) by
        (try exact Hall; apply replicate_table_shape).
      rewrite replicate_table_bucket2. cbn [length].
      pose proof (grass_organize_count gi t0 tx tz cs all
                    (HybridGrassField.empty_chunks tx tz cs)) as Hc.
      rewrite (grass_concat_instances_nil _ (grass_empty_chunks_empty tx tz cs)) in Hc.
      fold (HybridGrassField.organizeIntoChunks tx tz cs all) in Hc. fold chunks in Hc.
      change (count_slot gi t0 []) with 0%nat in Hc. lia.
    + intros gi t0 sz. unfold grass_buffer, grass_capacity, grass_population.
      cbn [HybridGrassField.groups]. unfold grass_buffers.
      rewrite (population_frame groups1 groups2) by
        (try exact Hp2; now rewrite Hty2, Hty1).
      subst groups2. unfold HybridGrassField.createInstanceBuffers.
      rewrite lookup_map, list_lookup_imap.
      unfold HybridGrassField.group_at.
      destruct (groups1 !! Z.to_nat gi) as [g1 |] eqn:Hg1;
        cbn [fmap option_fmap option_map default]; unfold Datatypes.id;
        [| rewrite lookup_nil; discriminate].
      destruct (GrassGroup.instanceBuffers _ !! Z.to_nat t0) as [[sz' |] |] eqn:Hk;
        cbn [default]; try discriminate.
      intros [= <-]. apply create_group_buffers_size in Hk; [exact Hk |].
      rewrite Forall_forall in Hb1. apply Hb1. eapply list_elem_of_lookup_2. exact Hg1.
Qed.

Lemma grass_inv_update (dt : Q) (s : HybridGrassField.t) :
  grass_inv s -> grass_inv (HybridGrassField.update dt s).
Proof. intros [H1 H2 H3 H4 H5 H6 H7 H8]. constructor; assumption. Qed.

Lemma grass_inv_assign (tx tz vd : Q) (s : HybridGrassField.t) :
  grass_inv s -> grass_inv (grass_assign tx tz vd s).
Proof. intros [H1 H2 H3 H4 H5 H6 H7 H8]. constructor; assumption. Qed.

Lemma grass_chunk_instances_flagged (vd cs : Q) (cam : Vec3.t)
    (chunks : list GrassChunk.t) :
  map GrassChunk.instances (map (grass_flagged vd cs cam) chunks)
  = map GrassChunk.instances chunks.
Proof. rewrite map_map. reflexivity. Qed.

(** What the culling pass leaves of the groups: everything but the
    visible buckets, which become the culled table. *)
Lemma grass_culling_groups (D : Device) (cam : Vec3.t) (s : HybridGrassField.t) :
  let s' := fst (HybridGrassField.performChunkCulling D cam s) in
  HybridGrassField.chunks s'
  = map (grass_flagged (HybridGrassField.viewDistance s) (HybridGrassField.chunkSize s) cam)
        (HybridGrassField.chunks s)
  /\ HybridGrassField.allInstances s' = HybridGrassField.allInstances s
  /\ map GrassGroup.types (HybridGrassField.groups s')
     = map GrassGroup.types (HybridGrassField.groups s)
  /\ grass_persistent (HybridGrassField.groups s')
     = grass_persistent (HybridGrassField.groups s)
  /\ grass_buffers (HybridGrassField.groups s')
     = grass_buffers (HybridGrassField.groups s)
  /\ grass_visible (HybridGrassField.groups s')
     = foldl (grass_cull (HybridGrassField.viewDistance s) (HybridGrassField.chunkSize s) cam)
             (map (map (fun _ => [])) (grass_visible (HybridGrassField.groups s)))
             (HybridGrassField.chunks s).
Proof.
  intros s'. subst s'. unfold HybridGrassField.performChunkCulling.
  set (st0 := ([], map HybridGrassField.clear_group (HybridGrassField.groups s))).
  pose proof (grass_cull_chunks (HybridGrassField.viewDistance s)
                (HybridGrassField.chunkSize s) cam (HybridGrassField.chunks s) st0) as Hc.
  pose proof (grass_cull_visible (HybridGrassField.viewDistance s)
                (HybridGrassField.chunkSize s) cam (HybridGrassField.chunks s) st0) as Hv.
  pose proof (grass_cull_frame (HybridGrassField.viewDistance s)
                (HybridGrassField.chunkSize s) cam GrassGroup.types
                (HybridGrassField.chunks s) st0 show_instance_types) as Ht.
  pose proof (grass_cull_frame (HybridGrassField.viewDistance s)
                (HybridGrassField.chunkSize s) cam GrassGroup.instancesByType
                (HybridGrassField.chunks s) st0 show_instance_persistent) as Hp.
  pose proof (grass_cull_frame (HybridGrassField.viewDistance s)
                (HybridGrassField.chunkSize s) cam GrassGroup.instanceBuffers
                (HybridGrassField.chunks s) st0 show_instance_buffers) as Hb.
  destruct (foldl _ st0 (HybridGrassField.chunks s)) as [chunks' groups'].
  subst st0. cbn [fst snd app] in *.
  rewrite clear_group_visible in Hv. rewrite map_map in Ht, Hp, Hb.
  cbn [HybridGrassField.chunks HybridGrassField.allInstances HybridGrassField.groups].
  unfold grass_persistent, grass_buffers. repeat split; assumption.
Qed.

Lemma grass_inv_culling (D : Device) (cam : Vec3.t) (s : HybridGrassField.t) :
  grass_inv s -> grass_inv (fst (HybridGrassField.performChunkCulling D cam s)).
Proof.
  intros [Hs Hps Ha Hc Hp Hv Hpop Hb].
  destruct (grass_culling_groups D cam s) as (Ec & Ea & Et & Ep & Eb & Ev).
  set (s' := fst (HybridGrassField.performChunkCulling D cam s)) in *.
  assert (Hcounts : type_counts (HybridGrassField.groups s')
                    = type_counts (HybridGrassField.groups s))
    by now apply type_counts_frame.
  constructor; rewrite ?Hcounts, ?Ea, ?Ep.
  - rewrite Ev, cull_table_shape, cleared_shape. exact Hs.
  - exact Hps.
  - exact Ha.
  - rewrite Ec. apply Forall_map. eapply Forall_impl; [exact Hc |]. intros c H. exact H.
  - exact Hp.
  - rewrite Ev. apply cull_table_Forall; [exact Hc | apply cleared_Forall].
  - intros gi t0. unfold grass_chunk_instances. rewrite Ec, grass_chunk_instances_flagged.
    apply Hpop.
  - intros gi t0 sz. unfold grass_buffer, grass_capacity, grass_population.
    rewrite Eb, (population_frame _ _ gi Et Ep). apply Hb.
Qed.

Lemma grass_inv_draw (D : Device) (cam : Vec3.t) (s : HybridGrassField.t) :
  grass_inv s -> grass_inv (fst (HybridGrassField.draw D cam s)).
Proof.
  intros H. unfold HybridGrassField.draw. destruct (HybridGrassField.groups s);
    [exact H |].
  change (grass_inv (fst (HybridGrassField.performChunkCulling D cam s))).
  now apply grass_inv_culling.
Qed.

Lemma grass_reachable_inv (D : Device) (s : HybridGrassField.t) :
  grass_reachable D s -> grass_inv s.
Proof.
  induction 1.
  - apply grass_inv_init.
  - now apply grass_inv_update.
  - now apply grass_inv_draw.
  - now apply grass_inv_assign.
Qed.

(** ** Grass: index validity, culling, buffer capacity *)

Lemma grass_held_valid (D : Device) (s : HybridGrassField.t) :
  grass_reachable D s ->
  Forall (grass_index_ok (type_counts (HybridGrassField.groups s))) (grass_held s).
Proof.
  intros Hr. destruct (grass_reachable_inv D s Hr) as [_ _ Ha Hc Hp Hv _ _].
  unfold grass_held. repeat (apply Forall_app; split).
  - exact Ha.
  - now apply Forall_grass_chunks_concat.
  - apply Forall_concat, Forall_concat. exact Hp.
  - apply Forall_concat, Forall_concat. exact Hv.
Qed.




(* ===================================================================== *)
(** * The claims on the two instance subsystems *)
(* ===================================================================== *)




(** C6.  In every state that follows [initWithInstances], whatever
    indices the supplied instances carried, every instance held by the
    rock field has [0 <= typeIndex < number of loaded types], and every
    instance held by the grass field has
    [0 <= groupIndex < number of loaded groups] and
    [0 <= typeIndex < type count of that group]; the states include those
    reached by any later [update], [draw] and assignment of public
    members. *)
Theorem C6_indices_valid_after_ingestion (P : Platform) (D : Device) :
  (forall s : Rocks.t,
     rocks_reachable P D s ->
     Forall (fun i : RockInstance.t =>
               (0 <= RockInstance.typeIndex i < Z.of_nat (length (Rocks.rockTypes s)))%Z)
            (rocks_held s))
  /\ (forall s : HybridGrassField.t,
        grass_reachable D s ->
        Forall (fun i : GrassInstance.t =>
                  (0 <= GrassInstance.groupIndex i
                   < Z.of_nat (length (HybridGrassField.groups s)))%Z
                  /\ (0 <= GrassInstance.typeIndex i
                      < Z.of_nat (length (GrassGroup.types
                           (HybridGrassField.group_at (HybridGrassField.groups s)
                              (GrassInstance.groupIndex i)))))%Z)
               (grass_held s)).
Proof.
  split.
  - intros s Hr. exact (rocks_held_valid P D s Hr).
  - intros s Hr. eapply Forall_impl; [exact (grass_held_valid D s Hr) |].
    intros i [Hg Ht]. unfold type_counts in Hg. rewrite length_map in Hg.
    rewrite type_counts_lookup in Ht. split; assumption.
Qed.

(* ===================================================================== *)
(** * The theorems at concrete inputs *)
(* ===================================================================== *)

(** [generate] called twice with seed 1 on the [Rocky] preset. *)
Lemma C1_generate_deterministic_witness :
  1%Z <> 0%Z
  /\ (let first := VegetationGenerator.generate rocky_platform
                     (VegetationGenerator.new rocky_platform) 0
                     flat_terrain VegetationPresets.Rocky 20 5 1 in
      let second := VegetationGenerator.generate rocky_platform first 99
                      flat_terrain VegetationPresets.Rocky 20 5 1 in
      VegetationGenerator.grassItems rocky_platform second
      = VegetationGenerator.grassItems rocky_platform first
      /\ VegetationGenerator.rockItems rocky_platform second
         = VegetationGenerator.rockItems rocky_platform first).
Proof.
  split; [discriminate |].
  apply (C1_generate_deterministic rocky_platform
           (VegetationGenerator.new rocky_platform) 0 99
           flat_terrain VegetationPresets.Rocky 20 5 1).
  discriminate.
Defined.

(** A grass candidate half a unit from the rock placed at the origin. *)
Lemma C3_overlap_checked_across_categories_witness :
  exists item : VegetationItem.t,
    head (VegetationGenerator.rockItems placing_platform placed_state) = Some item
    /\ VegetationItem.type item = Rock
    /\ In item (neighbours (VegetationGenerator.spatialGrid placing_platform placed_state)
                  (1 # 2) 0)
    /\ SpatialHashGrid.overlaps (1 # 2) 0
         (candidate_radius placing_platform placed_state Grass) item = true
    /\ (let r := VegetationGenerator.tryPlaceItem placing_platform placed_state
                   (1 # 2) 0 Grass in
        fst r = false
        /\ VegetationGenerator.grassItems placing_platform (snd r)
           = VegetationGenerator.grassItems placing_platform placed_state
        /\ VegetationGenerator.rockItems placing_platform (snd r)
           = VegetationGenerator.rockItems placing_platform placed_state).
Proof.
  eexists. split; [vm_compute; reflexivity |].
  split; [reflexivity |].
  match goal with
  | |- In ?i ?l /\ ?ov = true /\ _ =>
      assert (Hin : In i l) by (vm_compute; left; reflexivity);
      assert (Hov : ov = true) by (vm_compute; reflexivity)
  end.
  split; [exact Hin |]. split; [exact Hov |].
  exact (C3_overlap_checked_across_categories placing_platform placed_state (1 # 2) 0 Grass
           _ Hin Hov).
Defined.

Lemma example_rock_field_reachable :
  rocks_reachable zero_platform good_device example_rock_field.
Proof.
  unfold example_rock_field.
  apply rocks_reach_update, rocks_reach_assign, rocks_reach_init.
  unfold example_rocks. repeat constructor; cbn; lia.
Qed.

Lemma example_grass_field_reachable :
  grass_reachable good_device example_grass_field.
Proof. unfold example_grass_field. apply grass_reach_init. Qed.



(** The example fields, whose inputs carry indices outside the palettes,
    after one [draw]. *)
Lemma C6_indices_valid_after_ingestion_witness :
  let r := fst (Rocks.draw good_device (Vec3.mk 0 0 0) example_rock_field) in
  let g := fst (HybridGrassField.draw good_device (Vec3.mk 0 0 0) example_grass_field) in
  (rocks_reachable zero_platform good_device r
   /\ Forall (fun i : RockInstance.t =>
                (0 <= RockInstance.typeIndex i < Z.of_nat (length (Rocks.rockTypes r)))%Z)
             (rocks_held r))
  /\ (grass_reachable good_device g
      /\ Forall (fun i : GrassInstance.t =>
                   (0 <= GrassInstance.groupIndex i
                    < Z.of_nat (length (HybridGrassField.groups g)))%Z
                   /\ (0 <= GrassInstance.typeIndex i
                       < Z.of_nat (length (GrassGroup.types
                            (HybridGrassField.group_at (HybridGrassField.groups g)
                               (GrassInstance.groupIndex i)))))%Z)
                (grass_held g)).
Proof.
  intros r g.
  assert (Hr : rocks_reachable zero_platform good_device r)
    by (apply rocks_reach_draw, example_rock_field_reachable).
  assert (Hg : grass_reachable good_device g)
    by (apply grass_reach_draw, example_grass_field_reachable).
  split; split.
  - exact Hr.
  - exact (proj1 (C6_indices_valid_after_ingestion zero_platform good_device) r Hr).
  - exact Hg.
  - exact (proj2 (C6_indices_valid_after_ingestion zero_platform good_device) g Hg).
Defined.


(* ===================================================================== *)
(** * Further properties of the code *)
(* ===================================================================== *)

(** ** The generator: what [tryPlaceItem] does *)

Section PlaceItem.
Variable P : Platform.

Lemma draw_real_state (a b : Q) (s : VegetationGenerator.t P) :
  snd (VegetationGenerator.draw_real P a b s)
  = VegetationGenerator.set_rng P (snd (uniform_real P a b (VegetationGenerator.rng P s))) s.
Proof.
  unfold VegetationGenerator.draw_real. now destruct (uniform_real P a b _).
Qed.

Lemma draw_int_state (a b : Z) (s : VegetationGenerator.t P) :
  snd (VegetationGenerator.draw_int P a b s)
  = VegetationGenerator.set_rng P (snd (uniform_int P a b (VegetationGenerator.rng P s))) s.
Proof.
  unfold VegetationGenerator.draw_int. now destruct (uniform_int P a b _).
Qed.

(** [tryPlaceItem] either changes the engine only, or appends one item
    to the list of its category and inserts it into the grid. *)
Lemma tryPlaceItem_cases (s : VegetationGenerator.t P) (x z : Q) (type : VegetationType) :
  let r := VegetationGenerator.tryPlaceItem P s x z type in
  (fst r = false /\ exists g, snd r = VegetationGenerator.set_rng P g s)
  \/ (exists (h : Q -> Q -> Q) (item : VegetationItem.t) (g : mt19937 P),
        fst r = true
        /\ VegetationGenerator.terrain P s = Some h
        /\ VegetationGenerator.isValidTerrainLocation P s x z = true
        /\ VegetationItem.position item = Vec3.mk x (h x z) z
        /\ VegetationItem.type item = type
        /\ VegetationItem.scale item = candidate_scale P s type
        /\ VegetationItem.radius item
           = base_radius (VegetationGenerator.config P s) type * VegetationItem.scale item
        /\ SpatialHashGrid.checkOverlap (VegetationGenerator.spatialGrid P s) x z
             (VegetationItem.radius item) = false
        /\ snd r
           = VegetationGenerator.set_spatialGrid P
               (SpatialHashGrid.insert item (VegetationGenerator.spatialGrid P s))
               (match type with
                | Rock =>
                    VegetationGenerator.set_rockItems P
                      (VegetationGenerator.rockItems P s ++ [item])
                      (VegetationGenerator.set_rng P g s)
                | Grass =>
                    VegetationGenerator.set_grassItems P
                      (VegetationGenerator.grassItems P s ++ [item])
                      (VegetationGenerator.set_rng P g s)
                end)).
Proof.
  cbv zeta. unfold VegetationGenerator.tryPlaceItem.
  destruct (VegetationGenerator.terrain P s) as [h |] eqn:Ht.
  2:{ left. split; [reflexivity |]. exists (VegetationGenerator.rng P s).
      now destruct s. }
  destruct (VegetationGenerator.isValidTerrainLocation P s x z) eqn:Hv; cbn [negb].
  2:{ left. split; [reflexivity |]. exists (VegetationGenerator.rng P s).
      now destruct s. }
  destruct type; unfold candidate_scale, VegetationGenerator.draw_real,
    VegetationGenerator.draw_int;
    destruct (uniform_real P _ _ (VegetationGenerator.rng P s)) as [scale g1];
    cbn [fst snd VegetationGenerator.rng VegetationGenerator.set_rng
         VegetationGenerator.config VegetationGenerator.spatialGrid];
    destruct (uniform_int P _ _ g1) as [ti g2];
    cbn [fst snd VegetationGenerator.rng VegetationGenerator.set_rng
         VegetationGenerator.config VegetationGenerator.spatialGrid];
    (destruct (SpatialHashGrid.checkOverlap _ x z _) eqn:Hov;
     [left; split; [reflexivity |]; exists g2; reflexivity |]);
    destruct (uniform_real P 0 (2 * PI_f) g2) as [rot g3];
    right; eexists h, _, g3;
    cbn [fst snd VegetationGenerator.rng VegetationGenerator.set_rng
         VegetationGenerator.config VegetationGenerator.spatialGrid
         VegetationGenerator.set_rockItems VegetationGenerator.set_grassItems
         VegetationGenerator.set_spatialGrid VegetationGenerator.terrain
         VegetationGenerator.terrainSizeX VegetationGenerator.terrainSizeZ
         VegetationGenerator.noise VegetationGenerator.grassItems
         VegetationGenerator.rockItems
         VegetationItem.position VegetationItem.type VegetationItem.scale
         VegetationItem.radius base_radius];
    repeat split; try reflexivity; try assumption.
Qed.
End PlaceItem.

(** ** The generator: invariants of [generate] *)

Section GeneratorState.
Variable P : Platform.

Lemma spawn_cell_state (spacing halfX halfZ jitter : Q) (gz gx : Z)
    (points : list Vec2.t) (s : VegetationGenerator.t P) :
  exists g,
    snd (VegetationGenerator.spawn_cell P spacing halfX halfZ jitter gz gx (points, s))
    = VegetationGenerator.set_rng P g s.
Proof.
  unfold VegetationGenerator.spawn_cell, VegetationGenerator.draw_real.
  destruct (uniform_real P _ _ (VegetationGenerator.rng P s)) as [jx g1].
  cbn [VegetationGenerator.rng VegetationGenerator.set_rng].
  destruct (uniform_real P _ _ g1) as [jz g2].
  cbn [VegetationGenerator.rng VegetationGenerator.set_rng].
  destruct (uniform_real P 0 1 g2) as [skip g3].
  exists g3. destruct (fltb skip _); [reflexivity |].
  destruct (negb _); reflexivity.
Qed.

Lemma foldl_state {A B : Type}
    (f : B * VegetationGenerator.t P -> A -> B * VegetationGenerator.t P)
    (l : list A) (b : B) (s : VegetationGenerator.t P) :
  (forall b0 s0 a, exists g, snd (f (b0, s0) a) = VegetationGenerator.set_rng P g s0) ->
  exists g, snd (foldl f (b, s) l) = VegetationGenerator.set_rng P g s
            \/ snd (foldl f (b, s) l) = s.
Proof.
  intros Hf. revert b s. induction l as [| a l IH]; intros b s; cbn [foldl].
  - exists (VegetationGenerator.rng P s). now right.
  - destruct (f (b, s) a) as [b1 s1] eqn:E.
    destruct (Hf b s a) as [g1 H1]. rewrite E in H1. cbn [snd] in H1. subst s1.
    destruct (IH b1 (VegetationGenerator.set_rng P g1 s)) as [g2 [H2 | H2]].
    + exists g2. left. rewrite H2. reflexivity.
    + exists g1. left. exact H2.
Qed.

Lemma set_rng_same (s : VegetationGenerator.t P) :
  VegetationGenerator.set_rng P (VegetationGenerator.rng P s) s = s.
Proof. now destruct s. Qed.

Lemma generateSpawnPointsGrid_state (s : VegetationGenerator.t P) :
  exists g,
    snd (VegetationGenerator.generateSpawnPointsGrid P s)
    = VegetationGenerator.set_rng P g s.
Proof.
  unfold VegetationGenerator.generateSpawnPointsGrid.
  match goal with
  | |- context [foldl ?f ([], s) ?l] =>
      destruct (foldl_state f l [] s) as [g0 H0]
  end.
  { intros b0 s0 gz.
    match goal with
    | |- context [foldl ?f (b0, s0) ?l] =>
        destruct (foldl_state f l b0 s0) as [g1 [H1 | H1]]
    end.
    - intros b1 s1 gx. apply spawn_cell_state.
    - exists g1. exact H1.
    - exists (VegetationGenerator.rng P s0). rewrite H1. symmetry. apply set_rng_same. }
  match goal with
  | |- context [foldl ?f ([], s) ?l] => destruct (foldl f ([], s) l) as [points s1]
  end.
  cbn [snd] in H0.
  destruct (std_shuffle P points _) as [points' g]. cbn [snd].
  exists g. destruct H0 as [-> | ->]; reflexivity.
Qed.
End GeneratorState.

Section GeneratorInvariant.
Variable P : Platform.
Variable I : VegetationGenerator.t P -> Prop.
Variable Pos : Q -> Q -> Prop.

Hypothesis I_rng :
  forall g s, I s -> I (VegetationGenerator.set_rng P g s).
Hypothesis I_place :
  forall s x z type,
    I s -> Pos x z -> I (snd (VegetationGenerator.tryPlaceItem P s x z type)).
Hypothesis Pos_spawn :
  forall s, I s ->
    Forall (fun p => Pos (Vec2.x p) (Vec2.y p))
           (fst (VegetationGenerator.generateSpawnPointsGrid P s)).
Hypothesis Pos_member :
  forall s x z, I s ->
    fltb x (- (VegetationGenerator.terrainSizeX P s * (1 # 2)))
    || fltb (VegetationGenerator.terrainSizeX P s * (1 # 2)) x
    || fltb z (- (VegetationGenerator.terrainSizeZ P s * (1 # 2)))
    || fltb (VegetationGenerator.terrainSizeZ P s * (1 # 2)) z = false ->
    Pos x z.

Lemma inv_draw_real (a b : Q) (s : VegetationGenerator.t P) :
  I s -> I (snd (VegetationGenerator.draw_real P a b s)).
Proof. intros Hs. rewrite draw_real_state. now apply I_rng. Qed.

Lemma inv_draw_int (a b : Z) (s : VegetationGenerator.t P) :
  I s -> I (snd (VegetationGenerator.draw_int P a b s)).
Proof. intros Hs. rewrite draw_int_state. now apply I_rng. Qed.

Lemma inv_cluster_member (cx cz : Q) (type : VegetationType)
    (s : VegetationGenerator.t P) :
  I s -> I (VegetationGenerator.cluster_member P cx cz type s).
Proof.
  intros Hs. unfold VegetationGenerator.cluster_member.
  pose proof (inv_draw_real 0 1 s Hs) as H1.
  destruct (VegetationGenerator.draw_real P 0 1 s) as [t0 s1]. cbn [snd] in H1.
  pose proof (inv_draw_real 0 1 s1 H1) as H2.
  destruct (VegetationGenerator.draw_real P 0 1 s1) as [j s2]. cbn [snd] in H2.
  pose proof (inv_draw_real 0 (2 * PI_f) s2 H2) as H3.
  destruct (VegetationGenerator.draw_real P 0 (2 * PI_f) s2) as [angle s3].
  cbn [snd] in H3.
  match goal with |- I (if ?b then _ else _) => destruct b eqn:Hb end;
    [exact H3 |].
  apply I_place; [exact H3 |]. now apply (Pos_member s3).
Qed.

Lemma inv_generateCluster (s : VegetationGenerator.t P) (cx cz : Q)
    (type : VegetationType) :
  I s -> Pos cx cz -> I (VegetationGenerator.generateCluster P s cx cz type).
Proof.
  intros Hs Hp. unfold VegetationGenerator.generateCluster.
  pose proof (inv_draw_int
    (ClusterConfig.minItems (VegetationGenerator.clusterConfig P s type))
    (ClusterConfig.maxItems (VegetationGenerator.clusterConfig P s type)) s Hs) as H1.
  destruct (VegetationGenerator.draw_int P _ _ s) as [itemCount s1]. cbn [snd] in H1.
  generalize (Z.to_nat (itemCount - 1)). intros n.
  induction n as [| n IH]; cbn [Nat.iter nat_rect].
  - now apply I_place.
  - now apply inv_cluster_member.
Qed.

Lemma inv_place_point (s : VegetationGenerator.t P) (point : Vec2.t) :
  I s -> Pos (Vec2.x point) (Vec2.y point) ->
  I (VegetationGenerator.place_point P s point).
Proof.
  intros Hs Hp. unfold VegetationGenerator.place_point,
    VegetationGenerator.determineType, VegetationGenerator.shouldGenerateCluster.
  pose proof (inv_draw_real 0 1 s Hs) as H1.
  destruct (VegetationGenerator.draw_real P 0 1 s) as [r s1]. cbn [snd] in H1.
  pose proof (inv_draw_real 0 1 s1 H1) as H2.
  destruct (VegetationGenerator.draw_real P 0 1 s1) as [r2 s2]. cbn [snd] in H2.
  match goal with |- I (if ?b then _ else _) => destruct b end;
    [now apply inv_generateCluster | now apply I_place].
Qed.

Lemma inv_generate (s : VegetationGenerator.t P) (rd : Z) (terrain : HeightmapTerrain)
    (config : VegetationConfig.t) (sx sz : Q) (seed : Z) :
  I (VegetationGenerator.reset P s rd terrain config sx sz seed) ->
  I (VegetationGenerator.generate P s rd terrain config sx sz seed).
Proof.
  intros H0. unfold VegetationGenerator.generate.
  pose proof (Pos_spawn _ H0) as Hp.
  destruct (generateSpawnPointsGrid_state P
              (VegetationGenerator.reset P s rd terrain config sx sz seed)) as [g Hg].
  destruct (VegetationGenerator.generateSpawnPointsGrid P _) as [points s1].
  cbn [fst snd] in *. subst s1.
  assert (H1 : I (VegetationGenerator.set_rng P g
                    (VegetationGenerator.reset P s rd terrain config sx sz seed)))
    by now apply I_rng.
  revert H1. generalize (VegetationGenerator.set_rng P g
                    (VegetationGenerator.reset P s rd terrain config sx sz seed)).
  induction Hp as [| p points Hpp Hps IH]; cbn [foldl]; intros s1 H1; [exact H1 |].
  apply IH. now apply inv_place_point.
Qed.
End GeneratorInvariant.

(** Without a terrain, [generate] places nothing: both output lists are
    empty, whatever the configuration, the world size and the seed. *)
Theorem generate_without_terrain (P : Platform) (s : VegetationGenerator.t P) (rd : Z)
    (config : VegetationConfig.t) (sx sz : Q) (seed : Z) :
  let out := VegetationGenerator.generate P s rd None config sx sz seed in
  VegetationGenerator.grassItems P out = []
  /\ VegetationGenerator.rockItems P out = [].
Proof.
  cbv zeta.
  apply (inv_generate P
           (fun s0 => VegetationGenerator.terrain P s0 = None
                      /\ VegetationGenerator.grassItems P s0 = []
                      /\ VegetationGenerator.rockItems P s0 = [])
           (fun _ _ => True)).
  - intros g s0 H. exact H.
  - intros s0 x z type (Ht & Hg & Hr) _.
    unfold VegetationGenerator.tryPlaceItem. rewrite Ht. cbn [snd]. auto.
  - intros s0 _. apply Forall_forall. auto.
  - auto.
  - unfold VegetationGenerator.reset. cbn. auto.
Qed.

(** Every item of [grassItems] is of category [Grass] and every item of
    [rockItems] of category [Rock]; each lies on the terrain surface
    ([position.y] is the height sampled at its [x] and [z]) and has the
    base radius of its category times its own scale as radius. *)
Theorem generate_items_well_formed (P : Platform) (s : VegetationGenerator.t P) (rd : Z)
    (h : Q -> Q -> Q) (config : VegetationConfig.t) (sx sz : Q) (seed : Z) :
  let out := VegetationGenerator.generate P s rd (Some h) config sx sz seed in
  Forall (fun item : VegetationItem.t =>
            VegetationItem.type item = Grass
            /\ VegetationItem.radius item
               = VegetationConfig.grassRadius config * VegetationItem.scale item
            /\ Vec3.y (VegetationItem.position item)
               = h (Vec3.x (VegetationItem.position item))
                   (Vec3.z (VegetationItem.position item)))
         (VegetationGenerator.grassItems P out)
  /\ Forall (fun item : VegetationItem.t =>
               VegetationItem.type item = Rock
               /\ VegetationItem.radius item
                  = VegetationConfig.rockRadius config * VegetationItem.scale item
               /\ Vec3.y (VegetationItem.position item)
                  = h (Vec3.x (VegetationItem.position item))
                      (Vec3.z (VegetationItem.position item)))
            (VegetationGenerator.rockItems P out).
Proof.
  cbv zeta.
  pose (I := fun s0 => VegetationGenerator.terrain P s0 = Some h
                       /\ VegetationGenerator.config P s0 = config
                       /\ Forall (item_wf h config Grass) (VegetationGenerator.grassItems P s0)
                       /\ Forall (item_wf h config Rock) (VegetationGenerator.rockItems P s0)).
  assert (H : I (VegetationGenerator.generate P s rd (Some h) config sx sz seed)).
  { apply (inv_generate P I (fun _ _ => True)); unfold I.
    - intros g s0 H. exact H.
    - intros s0 x z type (Ht & Hc & Hg & Hr) _.
      destruct (tryPlaceItem_cases P s0 x z type) as [(_ & g & ->) | Hplaced];
        [auto |].
      destruct Hplaced as (h' & item & g & _ & Ht' & _ & Hpos & Hty & _ & Hrad & _ & ->).
      rewrite Ht in Ht'. injection Ht' as <-.
      assert (Hwf : item_wf h config type item).
      { unfold item_wf. rewrite Hpos, Hrad, Hc, Hty. cbn. auto. }
      destruct type; cbn; repeat split; try assumption;
        (apply Forall_app; split; [assumption | constructor; [exact Hwf | constructor]]).
    - intros s0 _. apply Forall_forall. auto.
    - auto.
    - unfold VegetationGenerator.reset. cbn. auto. }
  destruct H as (_ & _ & Hg & Hr). split; [exact Hg | exact Hr].
Qed.

(** ** Arithmetic of cells *)

Lemma fclamp_range (v lo hi : Q) :
  lo <= hi -> lo <= fclamp v lo hi /\ fclamp v lo hi <= hi.
Proof.
  intros H. unfold fclamp.
  destruct (fltb v lo) eqn:E1.
  - split; lra.
  - apply fltb_false in E1. destruct (fltb hi v) eqn:E2.
    + split; lra.
    + apply fltb_false in E2. split; lra.
Qed.

Lemma int_of_float_nonneg (q : Q) : 0 <= q -> int_of_float q = Qfloor q.
Proof.
  destruct q as [n d]. unfold int_of_float, Qfloor, Qle. cbn.
  intros H. apply Z.quot_div_nonneg; lia.
Qed.

Lemma int_of_float_inject (n : Z) : int_of_float (inject_Z n) = n.
Proof. unfold int_of_float, inject_Z. cbn. apply Z.quot_1_r. Qed.

Lemma Qfloor_nonneg (q : Q) : 0 <= q -> (0 <= Qfloor q)%Z.
Proof. intros H. change 0%Z with (Qfloor 0). now apply Qfloor_resp_le. Qed.

Lemma Qdiv_nonneg (a c : Q) : 0 <= a -> 0 < c -> 0 <= a / c.
Proof. intros Ha Hc. apply Qle_shift_div_l; [exact Hc | lra]. Qed.

Lemma Qdiv_le_compat (a b c : Q) : a <= b -> 0 < c -> a / c <= b / c.
Proof.
  intros Hab Hc. apply Qle_shift_div_l; [exact Hc |].
  assert (E : a / c * c == a) by (field; lra). lra.
Qed.

(** The cell coordinate of a point of the world, along one axis, lies in
    the grid. *)
Lemma cell_in_range (w cs x : Q) :
  0 < cs -> - (w * (1 # 2)) <= x -> x <= w * (1 # 2) ->
  (0 <= int_of_float ((x + w * (1 # 2)) / cs)
   < int_of_float (ceilf (w / cs)) + 1)%Z.
Proof.
  intros Hcs Hlo Hhi.
  assert (H0 : 0 <= (x + w * (1 # 2)) / cs) by (apply Qdiv_nonneg; lra).
  rewrite (int_of_float_nonneg _ H0). unfold ceilf. rewrite int_of_float_inject.
  split; [now apply Qfloor_nonneg |].
  assert (H1 : (x + w * (1 # 2)) / cs <= w / cs) by (apply Qdiv_le_compat; lra).
  pose proof (Qfloor_resp_le _ _ H1) as H2.
  pose proof (Qle_floor_ceiling (w / cs)) as H3. rewrite <- Zle_Qle in H3. lia.
Qed.

(** Two points whose coordinates (shifted by the offset) fall into cells
    at least two apart are more than a cell size apart. *)
Lemma cells_far_apart (o cs xa xb : Q) :
  0 < cs -> 0 <= xa + o -> 0 <= xb + o ->
  (int_of_float ((xa + o) / cs) + 2 <= int_of_float ((xb + o) / cs))%Z ->
  cs < xb - xa.
Proof.
  intros Hcs Ha Hb Hc.
  rewrite !int_of_float_nonneg in Hc by (apply Qdiv_nonneg; lra).
  pose proof (Qlt_floor ((xa + o) / cs)) as H1.
  pose proof (Qfloor_le ((xb + o) / cs)) as H2.
  assert (H3 : inject_Z (Qfloor ((xa + o) / cs) + 1) + 1
               <= inject_Z (Qfloor ((xb + o) / cs))).
  { rewrite <- (inject_Z_plus _ 1). rewrite <- Zle_Qle. lia. }
  assert (H4 : 1 < (xb + o) / cs - (xa + o) / cs) by lra.
  assert (E : (xb + o) / cs - (xa + o) / cs == (xb - xa) / cs) by (field; lra).
  rewrite E in H4.
  assert (E2 : (xb - xa) / cs * cs == xb - xa) by (field; lra).
  assert (H5 : 0 < ((xb - xa) / cs - 1) * cs) by (apply Qmult_lt_0_compat; lra).
  lra.
Qed.

Lemma square_le_of_le (r c : Q) : 0 <= r -> r <= c -> r * r <= c * c.
Proof.
  intros H0 H1.
  assert (H : 0 <= (c - r) * (c + r)) by (apply Qmult_le_0_compat; lra). lra.
Qed.

Lemma square_lt_of_lt (c d : Q) : 0 <= c -> c < d -> c * c < d * d.
Proof.
  intros H0 H1.
  assert (H : 0 < (d - c) * (d + c)) by (apply Qmult_lt_0_compat; lra). lra.
Qed.

(** ** The spawn points *)

Lemma foldl_fst_inv {A B S : Type} (R : B -> Prop) (f : B * S -> A -> B * S)
    (l : list A) (st : B * S) :
  (forall st0 a, R (fst st0) -> R (fst (f st0 a))) ->
  R (fst st) -> R (fst (foldl f st l)).
Proof.
  intros Hf. revert st. induction l as [| a l IH]; cbn [foldl]; intros st Hs;
    [exact Hs | apply IH, Hf, Hs].
Qed.

Section SpawnPoints.
Variable P : Platform.
Hypothesis Hshuffle : shuffle_sound P.

Lemma spawn_cell_points (R : Vec2.t -> Prop) (spacing halfX halfZ jitter : Q)
    (gz gx : Z) (st : list Vec2.t * VegetationGenerator.t P) :
  (forall x z, R (Vec2.mk (fclamp x (- halfX + 1) (halfX - 1))
                          (fclamp z (- halfZ + 1) (halfZ - 1)))) ->
  Forall R (fst st) ->
  Forall R (fst (VegetationGenerator.spawn_cell P spacing halfX halfZ jitter gz gx st)).
Proof.
  intros HR. destruct st as [points s]. cbn [fst]. intros Hp.
  unfold VegetationGenerator.spawn_cell.
  destruct (VegetationGenerator.draw_real P (- jitter) jitter s) as [jx s1].
  destruct (VegetationGenerator.draw_real P (- jitter) jitter s1) as [jz s2].
  destruct (VegetationGenerator.draw_real P 0 1 s2) as [skip s3].
  destruct (fltb skip _); [exact Hp |].
  destruct (negb _); [exact Hp |].
  cbn [fst]. apply Forall_app. split; [exact Hp |].
  constructor; [apply HR | constructor].
Qed.

(** Every spawn point lies at least one unit inside the world rectangle,
    when the world is at least two units wide and deep. *)
Lemma spawn_points_in_world (s : VegetationGenerator.t P) :
  2 <= VegetationGenerator.terrainSizeX P s ->
  2 <= VegetationGenerator.terrainSizeZ P s ->
  Forall (fun p => in_world (VegetationGenerator.terrainSizeX P s)
                            (VegetationGenerator.terrainSizeZ P s)
                            (Vec2.x p) (Vec2.y p))
         (fst (VegetationGenerator.generateSpawnPointsGrid P s)).
Proof.
  intros Hx Hz. unfold VegetationGenerator.generateSpawnPointsGrid.
  match goal with
  | |- context [foldl ?f ([], s) ?l] =>
      pose proof (foldl_fst_inv
        (Forall (fun p => in_world (VegetationGenerator.terrainSizeX P s)
                                   (VegetationGenerator.terrainSizeZ P s)
                                   (Vec2.x p) (Vec2.y p))) f l ([], s)) as Hloop
  end.
  cbv beta in Hloop.
  match type of Hloop with ?A -> ?B -> _ => assert (HA : A); [| assert (HB : B)] end.
  { intros st0 gz H0. apply foldl_fst_inv; [| exact H0].
    intros st1 gx H1. apply spawn_cell_points; [| exact H1].
    intros x z. cbn [Vec2.x Vec2.y]. unfold in_world.
    destruct (fclamp_range x (- (VegetationGenerator.terrainSizeX P s * (1 # 2)) + 1)
                (VegetationGenerator.terrainSizeX P s * (1 # 2) - 1)) as [? ?]; [lra |].
    destruct (fclamp_range z (- (VegetationGenerator.terrainSizeZ P s * (1 # 2)) + 1)
                (VegetationGenerator.terrainSizeZ P s * (1 # 2) - 1)) as [? ?]; [lra |].
    repeat split; lra. }
  { constructor. }
  specialize (Hloop HA HB). clear HA HB.
  match goal with
  | |- context [foldl ?f ([], s) ?l] => destruct (foldl f ([], s) l) as [points s1]
  end.
  cbn [fst] in Hloop.
  destruct (std_shuffle P points (VegetationGenerator.rng P s1)) as [points' g] eqn:E.
  cbn [fst]. apply Forall_forall. intros p Hp.
  apply list_elem_of_In in Hp.
  assert (Hin : In p points).
  { apply (Hshuffle _ points (VegetationGenerator.rng P s1)). rewrite E. exact Hp. }
  rewrite Forall_forall in Hloop. apply Hloop. now apply list_elem_of_In.
Qed.
End SpawnPoints.

(** The test of [generateCluster] keeps the members that lie in the
    world rectangle. *)
Lemma member_in_world (sx sz x z : Q) :
  fltb x (- (sx * (1 # 2))) || fltb (sx * (1 # 2)) x
  || fltb z (- (sz * (1 # 2))) || fltb (sz * (1 # 2)) z = false ->
  in_world sx sz x z.
Proof.
  intros H. apply orb_false_elim in H as [H H4].
  apply orb_false_elim in H as [H H3]. apply orb_false_elim in H as [H1 H2].
  apply fltb_false in H1, H2, H3, H4. unfold in_world. auto.
Qed.

(** ** The grid: what is stored is found *)

Lemma pairwise_nil {A : Type} (R : A -> A -> Prop) : pairwise R [].
Proof. intros i j a b H. now rewrite lookup_nil in H. Qed.

Lemma pairwise_snoc {A : Type} (R : A -> A -> Prop) (l : list A) (c : A) :
  (forall a b, R a b -> R b a) ->
  pairwise R l -> Forall (fun a => R a c) l -> pairwise R (l ++ [c]).
Proof.
  intros Hsym Hl Hc i j a b Hi Hj Hne.
  rewrite Forall_forall in Hc.
  apply lookup_app_Some in Hi as [Hi | [Hi1 Hi2]];
    apply lookup_app_Some in Hj as [Hj | [Hj1 Hj2]].
  - now apply (Hl i j).
  - apply list_lookup_singleton_Some in Hj2 as [_ <-].
    apply Hc. now apply list_elem_of_lookup_2 in Hi.
  - apply list_lookup_singleton_Some in Hi2 as [_ <-].
    apply Hsym, Hc. now apply list_elem_of_lookup_2 in Hj.
  - apply list_lookup_singleton_Some in Hi2 as [Hi2 _].
    apply list_lookup_singleton_Some in Hj2 as [Hj2 _]. lia.
Qed.

Lemma apart_sym (a b : VegetationItem.t) : apart a b -> apart b a.
Proof.
  unfold apart, distSqXZ. intros H.
  set (ra := VegetationItem.radius a) in *. set (rb := VegetationItem.radius b) in *.
  set (xa := Vec3.x (VegetationItem.position a)) in *.
  set (xb := Vec3.x (VegetationItem.position b)) in *.
  set (za := Vec3.z (VegetationItem.position a)) in *.
  set (zb := Vec3.z (VegetationItem.position b)) in *.
  assert (E1 : (rb + ra) * (rb + ra) == (ra + rb) * (ra + rb)) by ring.
  assert (E2 : (xb - xa) * (xb - xa) + (zb - za) * (zb - za)
               == (xa - xb) * (xa - xb) + (za - zb) * (za - zb)) by ring.
  rewrite E1, E2. exact H.
Qed.

Lemma adjacent_cells_sym (c1 c2 : Z * Z) : adjacent_cells c1 c2 -> adjacent_cells c2 c1.
Proof. unfold adjacent_cells. lia. Qed.

Lemma spaced_sym (g : SpatialHashGrid.t) (a b : VegetationItem.t) :
  spaced g a b -> spaced g b a.
Proof. unfold spaced. intros H Hadj. apply apart_sym, H, adjacent_cells_sym, Hadj. Qed.

Lemma item_cell_dims (g g' : SpatialHashGrid.t) (a : VegetationItem.t) :
  same_dims g g' -> item_cell g a = item_cell g' a.
Proof.
  intros (H1 & H2 & H3 & _). unfold item_cell, cell_of. now rewrite H1, H2, H3.
Qed.

Lemma spaced_dims (g g' : SpatialHashGrid.t) (a b : VegetationItem.t) :
  same_dims g g' -> spaced g a b -> spaced g' a b.
Proof.
  intros Hd. unfold spaced. now rewrite !(item_cell_dims g g' _ Hd).
Qed.

Lemma neighbourhood_complete (dx dz : Z) :
  (-1 <= dx <= 1)%Z -> (-1 <= dz <= 1)%Z -> In (dx, dz) SpatialHashGrid.neighbourhood.
Proof.
  intros Hx Hz.
  assert (Ex : dx = (-1)%Z \/ dx = 0%Z \/ dx = 1%Z) by lia.
  assert (Ez : dz = (-1)%Z \/ dz = 0%Z \/ dz = 1%Z) by lia.
  destruct Ex as [-> | [-> | ->]], Ez as [-> | [-> | ->]]; cbn; tauto.
Qed.

Section GridLookup.
Variable g0 : SpatialHashGrid.t.
Variable g : SpatialHashGrid.t.
Hypothesis Hdims : same_dims g g0.

(** An item stored in the bucket of its cell is examined by
    [checkOverlap] for every candidate of an adjacent cell. *)
Lemma stored_is_neighbour (a : VegetationItem.t) (x z : Q) :
  (0 <= fst (item_cell g0 a) < SpatialHashGrid.gridWidth g0)%Z ->
  (0 <= snd (item_cell g0 a) < SpatialHashGrid.gridHeight g0)%Z ->
  In a (bucket (SpatialHashGrid.cells g) (item_bucket g0 a)) ->
  adjacent_cells (item_cell g0 a) (cell_of g0 x z) ->
  In a (neighbours g x z).
Proof.
  destruct Hdims as (H1 & H2 & H3 & H4 & H5).
  intros Hcx Hcz Hin [Hax Haz]. unfold neighbours.
  apply list_elem_of_In. apply list_elem_of_bind.
  exists (fst (item_cell g0 a) - fst (cell_of g0 x z),
          snd (item_cell g0 a) - snd (cell_of g0 x z))%Z.
  split.
  - cbn [fst snd]. unfold SpatialHashGrid.out_of_grid.
    rewrite H1, H2, H3, H4, H5.
    change (int_of_float ((x + SpatialHashGrid.offsetX g0) / SpatialHashGrid.cellSize g0))
      with (fst (cell_of g0 x z)).
    change (int_of_float ((z + SpatialHashGrid.offsetZ g0) / SpatialHashGrid.cellSize g0))
      with (snd (cell_of g0 x z)).
    replace (fst (cell_of g0 x z) + (fst (item_cell g0 a) - fst (cell_of g0 x z)))%Z
      with (fst (item_cell g0 a)) by lia.
    replace (snd (cell_of g0 x z) + (snd (item_cell g0 a) - snd (cell_of g0 x z)))%Z
      with (snd (item_cell g0 a)) by lia.
    destruct (Z.ltb_spec (fst (item_cell g0 a)) 0); [lia |].
    destruct (Z.leb_spec (SpatialHashGrid.gridWidth g0) (fst (item_cell g0 a))); [lia |].
    destruct (Z.ltb_spec (snd (item_cell g0 a)) 0); [lia |].
    destruct (Z.leb_spec (SpatialHashGrid.gridHeight g0) (snd (item_cell g0 a))); [lia |].
    cbn [orb]. apply list_elem_of_In. exact Hin.
  - apply list_elem_of_In. apply neighbourhood_complete; lia.
Qed.

(** A candidate that [checkOverlap] lets pass does not overlap any stored
    item of an adjacent cell. *)
Lemma checkOverlap_false_apart (a : VegetationItem.t) (x z radius : Q) :
  (0 <= fst (item_cell g0 a) < SpatialHashGrid.gridWidth g0)%Z ->
  (0 <= snd (item_cell g0 a) < SpatialHashGrid.gridHeight g0)%Z ->
  In a (bucket (SpatialHashGrid.cells g) (item_bucket g0 a)) ->
  adjacent_cells (item_cell g0 a) (cell_of g0 x z) ->
  SpatialHashGrid.checkOverlap g x z radius = false ->
  (VegetationItem.radius a + radius) * (VegetationItem.radius a + radius)
  <= (Vec3.x (VegetationItem.position a) - x) * (Vec3.x (VegetationItem.position a) - x)
     + (Vec3.z (VegetationItem.position a) - z) * (Vec3.z (VegetationItem.position a) - z).
Proof.
  intros Hcx Hcz Hin Hadj Hov.
  pose proof (stored_is_neighbour a x z Hcx Hcz Hin Hadj) as Hn.
  rewrite checkOverlap_neighbours in Hov.
  assert (Ha : SpatialHashGrid.overlaps x z radius a = false).
  { destruct (SpatialHashGrid.overlaps x z radius a) eqn:E; [| reflexivity].
    assert (existsb (SpatialHashGrid.overlaps x z radius) (neighbours g x z) = true)
      by (apply existsb_exists; eauto).
    congruence. }
  unfold SpatialHashGrid.overlaps in Ha. cbv zeta in Ha.
  now apply fltb_false in Ha.
Qed.

(** [insert] stores an item whose cell lies in the grid in the bucket of
    that cell, and keeps what was stored. *)
Lemma insert_stores (item : VegetationItem.t) :
  length (SpatialHashGrid.cells g)
  = Z.to_nat (SpatialHashGrid.gridWidth g0 * SpatialHashGrid.gridHeight g0) ->
  (0 <= fst (item_cell g0 item) < SpatialHashGrid.gridWidth g0)%Z ->
  (0 <= snd (item_cell g0 item) < SpatialHashGrid.gridHeight g0)%Z ->
  same_dims (SpatialHashGrid.insert item g) g0
  /\ length (SpatialHashGrid.cells (SpatialHashGrid.insert item g))
     = length (SpatialHashGrid.cells g)
  /\ In item (bucket (SpatialHashGrid.cells (SpatialHashGrid.insert item g))
                     (item_bucket g0 item))
  /\ (forall a i, In a (bucket (SpatialHashGrid.cells g) i) ->
                  In a (bucket (SpatialHashGrid.cells (SpatialHashGrid.insert item g)) i)).
Proof.
  destruct Hdims as (H1 & H2 & H3 & H4 & H5).
  intros Hlen Hcx Hcz.
  assert (Hidx : SpatialHashGrid.getCellIndex g
                   (Vec3.x (VegetationItem.position item))
                   (Vec3.z (VegetationItem.position item))
                 = item_bucket g0 item).
  { unfold SpatialHashGrid.getCellIndex, SpatialHashGrid.out_of_grid, item_bucket.
    rewrite H1, H2, H3, H4, H5.
    change (int_of_float ((Vec3.x (VegetationItem.position item)
                           + SpatialHashGrid.offsetX g0) / SpatialHashGrid.cellSize g0))
      with (fst (item_cell g0 item)).
    change (int_of_float ((Vec3.z (VegetationItem.position item)
                           + SpatialHashGrid.offsetZ g0) / SpatialHashGrid.cellSize g0))
      with (snd (item_cell g0 item)).
    destruct (Z.ltb_spec (fst (item_cell g0 item)) 0); [lia |].
    destruct (Z.leb_spec (SpatialHashGrid.gridWidth g0) (fst (item_cell g0 item))); [lia |].
    destruct (Z.ltb_spec (snd (item_cell g0 item)) 0); [lia |].
    destruct (Z.leb_spec (SpatialHashGrid.gridHeight g0) (snd (item_cell g0 item))); [lia |].
    reflexivity. }
  assert (Hrange : (0 <= item_bucket g0 item
                    < Z.of_nat (length (SpatialHashGrid.cells g)))%Z).
  { rewrite Hlen. unfold item_bucket. nia. }
  unfold SpatialHashGrid.insert. rewrite Hidx.
  destruct (Z.leb_spec 0 (item_bucket g0 item)); [| lia].
  destruct (Z.ltb_spec (item_bucket g0 item)
              (Z.of_nat (length (SpatialHashGrid.cells g)))); [| lia].
  cbn [andb SpatialHashGrid.cells].
  split; [repeat split; assumption |].
  split; [apply length_push_at |].
  split.
  - rewrite bucket_push_at_eq by exact Hrange. apply in_or_app. right. now left.
  - intros a i Ha. now apply bucket_push_at_incl.
Qed.
End GridLookup.

(** ** The generator: spacing of the placed items *)

Section Spacing.
Variable P : Platform.
Variables sx sz cs : Q.
Hypothesis Hcs : 0 < cs.

Local Abbreviation g0 := (grid0 sx sz cs).
Local Abbreviation inv := (spacing_inv P sx sz g0).

Lemma item_cell_in_grid (a : VegetationItem.t) :
  in_world sx sz (Vec3.x (VegetationItem.position a)) (Vec3.z (VegetationItem.position a)) ->
  (0 <= fst (item_cell g0 a) < SpatialHashGrid.gridWidth g0)%Z
  /\ (0 <= snd (item_cell g0 a) < SpatialHashGrid.gridHeight g0)%Z.
Proof.
  intros [[Hx1 Hx2] [Hz1 Hz2]].
  unfold item_cell, cell_of, grid0, SpatialHashGrid.init.
  cbn [fst snd SpatialHashGrid.offsetX SpatialHashGrid.offsetZ SpatialHashGrid.cellSize
       SpatialHashGrid.gridWidth SpatialHashGrid.gridHeight].
  split; apply cell_in_range; assumption.
Qed.

Lemma spacing_rng (g : mt19937 P) (s : VegetationGenerator.t P) :
  inv s -> inv (VegetationGenerator.set_rng P g s).
Proof. intros []. constructor; assumption. Qed.

Lemma Forall_snoc_l {A : Type} (Q : A -> Prop) (l1 l2 : list A) (c : A) :
  Forall Q (l1 ++ l2) -> Q c -> Forall Q ((l1 ++ [c]) ++ l2).
Proof.
  intros H Hc. apply Forall_app in H as [H1 H2].
  apply Forall_app. split; [| exact H2].
  apply Forall_app. split; [exact H1 | constructor; [exact Hc | constructor]].
Qed.

Lemma Forall_snoc_r {A : Type} (Q : A -> Prop) (l1 l2 : list A) (c : A) :
  Forall Q (l1 ++ l2) -> Q c -> Forall Q (l1 ++ (l2 ++ [c])).
Proof.
  intros H Hc. apply Forall_app in H as [H1 H2].
  apply Forall_app. split; [exact H1 |].
  apply Forall_app. split; [exact H2 | constructor; [exact Hc | constructor]].
Qed.

Lemma spacing_place (s : VegetationGenerator.t P) (x z : Q) (type : VegetationType) :
  inv s -> in_world sx sz x z ->
  inv (snd (VegetationGenerator.tryPlaceItem P s x z type)).
Proof.
  intros Hs Hw.
  destruct (tryPlaceItem_cases P s x z type) as [(_ & g & ->) | Hplaced];
    [now apply spacing_rng |].
  destruct Hplaced as (h & item & g & _ & _ & _ & Hpos & _ & _ & _ & Hov & ->).
  destruct Hs as [HsX HsZ Hdims Hlen Hworld Hstored Hgrass Hrock Hcross].
  assert (Hwi : in_world sx sz (Vec3.x (VegetationItem.position item))
                               (Vec3.z (VegetationItem.position item)))
    by (rewrite Hpos; exact Hw).
  destruct (item_cell_in_grid item Hwi) as [Hcx Hcz].
  destruct (insert_stores g0 _ Hdims item Hlen Hcx Hcz) as (Hd' & Hl' & Hin' & Hkeep).
  assert (Hcell : item_cell g0 item = cell_of g0 x z)
    by (unfold item_cell; now rewrite Hpos).
  assert (K : Forall (fun a => spaced g0 a item)
                (VegetationGenerator.grassItems P s ++ VegetationGenerator.rockItems P s)).
  { rewrite Forall_forall in Hworld, Hstored. apply Forall_forall. intros a Ha.
    unfold spaced. intros Hadj. rewrite Hcell in Hadj.
    destruct (item_cell_in_grid a (Hworld a Ha)) as [Hax Haz].
    pose proof (checkOverlap_false_apart g0 _ Hdims a x z (VegetationItem.radius item)
                  Hax Haz (Hstored a Ha) Hadj Hov) as Hap.
    unfold apart, distSqXZ. rewrite Hpos. exact Hap. }
  apply Forall_app in K as [Kg Kr].
  assert (Hstored' :
            Forall (fun a => In a (bucket (SpatialHashGrid.cells
                      (SpatialHashGrid.insert item (VegetationGenerator.spatialGrid P s)))
                      (item_bucket g0 a)))
                   (VegetationGenerator.grassItems P s ++ VegetationGenerator.rockItems P s)).
  { eapply Forall_impl; [exact Hstored |]. intros a Ha. now apply Hkeep. }
  destruct type; constructor;
    cbn [VegetationGenerator.terrainSizeX VegetationGenerator.terrainSizeZ
         VegetationGenerator.spatialGrid VegetationGenerator.grassItems
         VegetationGenerator.rockItems VegetationGenerator.set_spatialGrid
         VegetationGenerator.set_grassItems VegetationGenerator.set_rockItems
         VegetationGenerator.set_rng];
    try assumption; try congruence.
  - now apply Forall_snoc_l.
  - now apply Forall_snoc_l.
  - apply pairwise_snoc; [apply spaced_sym | exact Hgrass | exact Kg].
  - intros a b Ha Hb. apply in_app_or in Ha as [Ha | [<- | []]].
    + now apply Hcross.
    + apply spaced_sym. rewrite Forall_forall in Kr. apply Kr.
      now apply list_elem_of_In.
  - now apply Forall_snoc_r.
  - now apply Forall_snoc_r.
  - apply pairwise_snoc; [apply spaced_sym | exact Hrock | exact Kr].
  - intros a b Ha Hb. apply in_app_or in Hb as [Hb | [<- | []]].
    + now apply Hcross.
    + rewrite Forall_forall in Kg. apply Kg. now apply list_elem_of_In.
Qed.

Lemma spacing_reset (s : VegetationGenerator.t P) (rd : Z) (terrain : HeightmapTerrain)
    (config : VegetationConfig.t) (seed : Z) :
  generation_cellSize config = cs ->
  inv (VegetationGenerator.reset P s rd terrain config sx sz seed).
Proof.
  intros <-. unfold VegetationGenerator.reset, generation_cellSize. constructor; cbn.
  - reflexivity.
  - reflexivity.
  - repeat split.
  - apply length_replicate.
  - constructor.
  - constructor.
  - apply pairwise_nil.
  - apply pairwise_nil.
  - intros a b [].
Qed.
End Spacing.

Lemma pairwise_app {A : Type} (R : A -> A -> Prop) (l1 l2 : list A) :
  (forall a b, R a b -> R b a) ->
  pairwise R l1 -> pairwise R l2 ->
  (forall a b, In a l1 -> In b l2 -> R a b) ->
  pairwise R (l1 ++ l2).
Proof.
  intros Hsym H1 H2 H12 i j a b Hi Hj Hne.
  apply lookup_app_Some in Hi as [Hi | [Hi1 Hi2]];
    apply lookup_app_Some in Hj as [Hj | [Hj1 Hj2]].
  - now apply (H1 i j).
  - apply H12; apply list_elem_of_In; eapply list_elem_of_lookup_2; eassumption.
  - apply Hsym, H12; apply list_elem_of_In; eapply list_elem_of_lookup_2; eassumption.
  - apply (H2 (i - length l1)%nat (j - length l1)%nat); [assumption .. | lia].
Qed.

(** Every item that [generate] places lies in the world rectangle
    [[-sx/2, sx/2] x [-sz/2, sz/2]], provided the world is at least two
    units wide and deep and [std::shuffle] returns elements of its
    input. *)
Theorem generate_items_in_world (P : Platform) (s : VegetationGenerator.t P) (rd : Z)
    (terrain : HeightmapTerrain) (config : VegetationConfig.t) (sx sz : Q) (seed : Z) :
  shuffle_sound P -> 2 <= sx -> 2 <= sz ->
  let out := VegetationGenerator.generate P s rd terrain config sx sz seed in
  Forall (fun item : VegetationItem.t =>
            (- (sx * (1 # 2)) <= Vec3.x (VegetationItem.position item)
             /\ Vec3.x (VegetationItem.position item) <= sx * (1 # 2))
            /\ (- (sz * (1 # 2)) <= Vec3.z (VegetationItem.position item)
                /\ Vec3.z (VegetationItem.position item) <= sz * (1 # 2)))
         (VegetationGenerator.grassItems P out ++ VegetationGenerator.rockItems P out).
Proof.
  intros Hsh Hx Hz. cbv zeta.
  pose (I := fun s0 =>
               VegetationGenerator.terrainSizeX P s0 = sx
               /\ VegetationGenerator.terrainSizeZ P s0 = sz
               /\ Forall (fun item =>
                            in_world sx sz (Vec3.x (VegetationItem.position item))
                                           (Vec3.z (VegetationItem.position item)))
                         (VegetationGenerator.grassItems P s0
                          ++ VegetationGenerator.rockItems P s0)).
  assert (H : I (VegetationGenerator.generate P s rd terrain config sx sz seed)).
  { apply (inv_generate P I (in_world sx sz)); unfold I.
    - intros g s0 H. exact H.
    - intros s0 x z type (HX & HZ & Hw) Hp.
      destruct (tryPlaceItem_cases P s0 x z type) as [(_ & g & ->) | Hplaced];
        [auto |].
      destruct Hplaced as (h & item & g & _ & _ & _ & Hpos & _ & _ & _ & _ & ->).
      assert (Hwi : in_world sx sz (Vec3.x (VegetationItem.position item))
                                   (Vec3.z (VegetationItem.position item)))
        by (rewrite Hpos; exact Hp).
      destruct type; cbn; repeat split; try assumption.
      + now apply Forall_snoc_l.
      + now apply Forall_snoc_r.
    - intros s0 (HX & HZ & _). rewrite <- HX, <- HZ.
      apply spawn_points_in_world; [exact Hsh | rewrite HX; exact Hx | rewrite HZ; exact Hz].
    - intros s0 x z (HX & HZ & _) Ht. rewrite HX, HZ in Ht. now apply member_in_world.
    - unfold VegetationGenerator.reset. cbn. repeat split. constructor. }
  destruct H as (_ & _ & H). exact H.
Qed.

Section SpacingTheorems.
Variable P : Platform.
Variable s : VegetationGenerator.t P.
Variable rd : Z.
Variable terrain : HeightmapTerrain.
Variable config : VegetationConfig.t.
Variables sx sz : Q.
Variable seed : Z.
Hypothesis Hsh : shuffle_sound P.
Hypothesis Hx : 2 <= sx.
Hypothesis Hz : 2 <= sz.
Hypothesis Hcs : 0 < generation_cellSize config.

Lemma generate_spacing_inv :
  spacing_inv P sx sz (grid0 sx sz (generation_cellSize config))
    (VegetationGenerator.generate P s rd terrain config sx sz seed).
Proof.
  apply (inv_generate P _ (in_world sx sz)).
  - intros g s0. apply spacing_rng.
  - intros s0 x z type. now apply spacing_place.
  - intros s0 [HX HZ]. rewrite <- HX, <- HZ.
    apply spawn_points_in_world; [exact Hsh | rewrite HX; exact Hx | rewrite HZ; exact Hz].
  - intros s0 x z [HX HZ] Ht. rewrite HX, HZ in Ht. now apply member_in_world.
  - now apply spacing_reset.
Qed.
End SpacingTheorems.


(** When no item of the output has a radius above half the cell size
    (twice the larger base radius) or below zero, no two items of the
    output overlap at all. *)
Theorem generate_items_apart (P : Platform) (s : VegetationGenerator.t P) (rd : Z)
    (terrain : HeightmapTerrain) (config : VegetationConfig.t) (sx sz : Q) (seed : Z) :
  shuffle_sound P -> 2 <= sx -> 2 <= sz -> 0 < generation_cellSize config ->
  let out := VegetationGenerator.generate P s rd terrain config sx sz seed in
  let items := VegetationGenerator.grassItems P out ++ VegetationGenerator.rockItems P out in
  Forall (fun item : VegetationItem.t =>
            0 <= VegetationItem.radius item
            /\ VegetationItem.radius item <= generation_cellSize config * (1 # 2)) items ->
  forall (i j : nat) (a b : VegetationItem.t),
    items !! i = Some a -> items !! j = Some b -> i <> j ->
    (VegetationItem.radius a + VegetationItem.radius b)
    * (VegetationItem.radius a + VegetationItem.radius b)
    <= distSqXZ (VegetationItem.position a) (VegetationItem.position b).
Proof.
  intros Hsh Hx Hz Hcs out items Hrad i j a b Hi Hj Hne. subst items out.
  destruct (generate_spacing_inv P s rd terrain config sx sz seed Hsh Hx Hz Hcs)
    as [_ _ _ _ Hw _ Hg Hr Hc].
  set (cs := generation_cellSize config) in *.
  assert (Hp : pairwise (spaced (grid0 sx sz cs))
                 (VegetationGenerator.grassItems P
                    (VegetationGenerator.generate P s rd terrain config sx sz seed)
                  ++ VegetationGenerator.rockItems P
                       (VegetationGenerator.generate P s rd terrain config sx sz seed)))
    by (apply pairwise_app; [apply spaced_sym | assumption ..]).
  pose proof (Hp i j a b Hi Hj Hne) as Hsp.
  rewrite Forall_forall in Hrad, Hw.
  assert (Ha : a ∈ VegetationGenerator.grassItems P
                    (VegetationGenerator.generate P s rd terrain config sx sz seed)
                  ++ VegetationGenerator.rockItems P
                       (VegetationGenerator.generate P s rd terrain config sx sz seed))
    by (eapply list_elem_of_lookup_2; eassumption).
  assert (Hb : b ∈ VegetationGenerator.grassItems P
                    (VegetationGenerator.generate P s rd terrain config sx sz seed)
                  ++ VegetationGenerator.rockItems P
                       (VegetationGenerator.generate P s rd terrain config sx sz seed))
    by (eapply list_elem_of_lookup_2; eassumption).
  destruct (Hrad a Ha) as [Hra0 Hra1]. destruct (Hrad b Hb) as [Hrb0 Hrb1].
  destruct (Hw a Ha) as [[Hax1 Hax2] [Haz1 Haz2]].
  destruct (Hw b Hb) as [[Hbx1 Hbx2] [Hbz1 Hbz2]].
  unfold spaced, adjacent_cells in Hsp.
  assert (Hr2 : (VegetationItem.radius a + VegetationItem.radius b)
                * (VegetationItem.radius a + VegetationItem.radius b) <= cs * cs)
    by (apply square_le_of_le; lra).
  unfold item_cell, cell_of, grid0, SpatialHashGrid.init in Hsp.
  cbn [fst snd SpatialHashGrid.offsetX SpatialHashGrid.offsetZ SpatialHashGrid.cellSize]
    in Hsp.
  set (xa := Vec3.x (VegetationItem.position a)) in *.
  set (xb := Vec3.x (VegetationItem.position b)) in *.
  set (za := Vec3.z (VegetationItem.position a)) in *.
  set (zb := Vec3.z (VegetationItem.position b)) in *.
  set (cxa := int_of_float ((xa + sx * (1 # 2)) / cs)) in *.
  set (cxb := int_of_float ((xb + sx * (1 # 2)) / cs)) in *.
  set (cza := int_of_float ((za + sz * (1 # 2)) / cs)) in *.
  set (czb := int_of_float ((zb + sz * (1 # 2)) / cs)) in *.
  assert (Hsq : forall d e : Q, cs < d -> cs * cs <= d * d + e * e).
  { intros d e Hd. pose proof (square_lt_of_lt cs d ltac:(lra) Hd).
    pose proof (Qsquare_nonneg e). lra. }
  assert (Hcases : ((Z.abs (cxa - cxb) <= 1)%Z /\ (Z.abs (cza - czb) <= 1)%Z)
                   \/ (cxa + 2 <= cxb)%Z \/ (cxb + 2 <= cxa)%Z
                   \/ (cza + 2 <= czb)%Z \/ (czb + 2 <= cza)%Z) by lia.
  unfold distSqXZ. fold xa xb za zb.
  destruct Hcases as [Hadj | [Hc1 | [Hc1 | [Hc1 | Hc1]]]].
  - specialize (Hsp Hadj). unfold apart, distSqXZ in Hsp. exact Hsp.
  - pose proof (cells_far_apart (sx * (1 # 2)) cs xa xb Hcs ltac:(lra) ltac:(lra) Hc1) as Hfar.
    pose proof (Hsq (xb - xa) (za - zb) Hfar) as H1.
    assert (E : (xa - xb) * (xa - xb) == (xb - xa) * (xb - xa)) by ring. lra.
  - pose proof (cells_far_apart (sx * (1 # 2)) cs xb xa Hcs ltac:(lra) ltac:(lra) Hc1) as Hfar.
    pose proof (Hsq (xa - xb) (za - zb) Hfar) as H1. lra.
  - pose proof (cells_far_apart (sz * (1 # 2)) cs za zb Hcs ltac:(lra) ltac:(lra) Hc1) as Hfar.
    pose proof (Hsq (zb - za) (xa - xb) Hfar) as H1.
    assert (E : (za - zb) * (za - zb) == (zb - za) * (zb - za)) by ring. lra.
  - pose proof (cells_far_apart (sz * (1 # 2)) cs zb za Hcs ltac:(lra) ltac:(lra) Hc1) as Hfar.
    pose proof (Hsq (za - zb) (xa - xb) Hfar) as H1. lra.
Qed.

(** ** The scripted platform shuffles soundly *)

Lemma In_insert {A : Type} (l : list A) (i : nat) (x y : A) :
  In x (<[i := y]> l) -> x = y \/ In x l.
Proof.
  revert i. induction l as [| a l IH]; intros [| i]; cbn; try tauto.
  - intros [<- | H]; auto.
  - intros [<- | H]; auto. destruct (IH i H); auto.
Qed.

Lemma In_swap {A : Type} (i j : nat) (l : list A) (x : A) :
  In x (Script.swap i j l) -> In x l.
Proof.
  unfold Script.swap.
  destruct (l !! i) as [a |] eqn:Ei; [| auto].
  destruct (l !! j) as [b |] eqn:Ej; [| auto].
  intros H. apply In_insert in H as [-> | H].
  - apply list_elem_of_In. eapply list_elem_of_lookup_2; eassumption.
  - apply In_insert in H as [-> | H]; [| exact H].
    apply list_elem_of_In. eapply list_elem_of_lookup_2; eassumption.
Qed.

Lemma script_shuffle_sound (table : Z -> Script.state) :
  shuffle_sound (Script.platform table).
Proof.
  intros A l g a. cbn. unfold Script.shuffle.
  generalize (seq 1 (length l - 1)). intros steps.
  enough (H : forall (st : list A * Script.state),
            In a (fst (foldl (fun (st : list A * Script.state) (i : nat) =>
                                let '(j, r) := Script.uniform_int 0 (Z.of_nat i) (snd st) in
                                (Script.swap i (Z.to_nat j) (fst st), r)) st steps)) ->
            In a (fst st)) by (intros Ha; exact (H (l, g) Ha)).
  induction steps as [| i steps IH]; cbn [foldl]; intros st Ha; [exact Ha |].
  apply IH in Ha. destruct (Script.uniform_int 0 (Z.of_nat i) (snd st)) as [j r].
  cbn [fst] in Ha. now apply In_swap in Ha.
Qed.

(** The theorems on the placement of items, on a run that places two
    rocks. *)
Lemma generate_items_in_world_witness :
  shuffle_sound gentle_platform /\ 2 <= 20 /\ 2 <= 5
  /\ (let out := VegetationGenerator.generate gentle_platform
                   (VegetationGenerator.new gentle_platform) 0%Z flat_terrain
                   VegetationPresets.Rocky 20 5 1%Z in
      Forall (fun item : VegetationItem.t =>
                (- (20 * (1 # 2)) <= Vec3.x (VegetationItem.position item)
                 /\ Vec3.x (VegetationItem.position item) <= 20 * (1 # 2))
                /\ (- (5 * (1 # 2)) <= Vec3.z (VegetationItem.position item)
                    /\ Vec3.z (VegetationItem.position item) <= 5 * (1 # 2)))
             (VegetationGenerator.grassItems gentle_platform out
              ++ VegetationGenerator.rockItems gentle_platform out)).
Proof.
  assert (H1 : shuffle_sound gentle_platform) by apply script_shuffle_sound.
  assert (H2 : 2 <= 20) by (vm_compute; discriminate).
  assert (H3 : 2 <= 5) by (vm_compute; discriminate).
  repeat split; try assumption.
  exact (generate_items_in_world gentle_platform (VegetationGenerator.new gentle_platform)
           0%Z flat_terrain VegetationPresets.Rocky 20 5 1%Z H1 H2 H3).
Defined.


Lemma generate_items_apart_witness :
  let out := VegetationGenerator.generate gentle_platform
               (VegetationGenerator.new gentle_platform) 0%Z flat_terrain
               VegetationPresets.Rocky 20 5 1%Z in
  let items := VegetationGenerator.grassItems gentle_platform out
               ++ VegetationGenerator.rockItems gentle_platform out in
  shuffle_sound gentle_platform /\ 2 <= 20 /\ 2 <= 5
  /\ 0 < generation_cellSize VegetationPresets.Rocky
  /\ length items = 2%nat
  /\ Forall (fun item : VegetationItem.t =>
               0 <= VegetationItem.radius item
               /\ VegetationItem.radius item
                  <= generation_cellSize VegetationPresets.Rocky * (1 # 2)) items
  /\ (forall (i j : nat) (a b : VegetationItem.t),
        items !! i = Some a -> items !! j = Some b -> i <> j ->
        (VegetationItem.radius a + VegetationItem.radius b)
        * (VegetationItem.radius a + VegetationItem.radius b)
        <= distSqXZ (VegetationItem.position a) (VegetationItem.position b)).
Proof.
  intros out items.
  assert (H1 : shuffle_sound gentle_platform) by apply script_shuffle_sound.
  assert (H2 : 2 <= 20) by (vm_compute; discriminate).
  assert (H3 : 2 <= 5) by (vm_compute; discriminate).
  assert (H4 : 0 < generation_cellSize VegetationPresets.Rocky) by (vm_compute; reflexivity).
  assert (H5 : Forall (fun item : VegetationItem.t =>
               0 <= VegetationItem.radius item
               /\ VegetationItem.radius item
                  <= generation_cellSize VegetationPresets.Rocky * (1 # 2)) items).
  { vm_compute. repeat constructor; discriminate. }
  split; [exact H1 |]. split; [exact H2 |]. split; [exact H3 |]. split; [exact H4 |].
  split; [vm_compute; reflexivity |]. split; [exact H5 |].
  exact (generate_items_apart gentle_platform (VegetationGenerator.new gentle_platform)
           0%Z flat_terrain VegetationPresets.Rocky 20 5 1%Z H1 H2 H3 H4 H5).
Defined.

(** ** The noise *)

Lemma lerp_proper (t t' a a' b b' : Q) :
  t == t' -> a == a' -> b == b' ->
  NoiseGenerator.lerp t a b == NoiseGenerator.lerp t' a' b'.
Proof. intros Ht Ha Hb. unfold NoiseGenerator.lerp. now rewrite Ht, Ha, Hb. Qed.

Lemma fade_proper (t t' : Q) : t == t' -> NoiseGenerator.fade t == NoiseGenerator.fade t'.
Proof. intros Ht. unfold NoiseGenerator.fade. now rewrite Ht. Qed.

Lemma grad_proper (hash : Z) (x x' y y' : Q) :
  x == x' -> y == y' -> NoiseGenerator.grad hash x y == NoiseGenerator.grad hash x' y'.
Proof.
  intros Hx Hy. unfold NoiseGenerator.grad. cbv zeta.
  destruct (Z.land hash 3 <? 2)%Z, (Z.land (Z.land hash 3) 1 =? 0)%Z,
    (Z.land (Z.land hash 3) 2 =? 0)%Z; now rewrite Hx, Hy.
Qed.

Lemma grad_origin (hash : Z) (x y : Q) :
  x == 0 -> y == 0 -> NoiseGenerator.grad hash x y == 0.
Proof.
  intros Hx Hy. rewrite (grad_proper hash x 0 y 0 Hx Hy).
  unfold NoiseGenerator.grad. cbv zeta.
  destruct (Z.land hash 3 <? 2)%Z, (Z.land (Z.land hash 3) 1 =? 0)%Z,
    (Z.land (Z.land hash 3) 2 =? 0)%Z; ring.
Qed.

Lemma Qfloor_unique (q : Q) (n : Z) :
  inject_Z n <= q -> q < inject_Z (n + 1) -> Qfloor q = n.
Proof.
  intros H1 H2.
  pose proof (Qfloor_resp_le _ _ H1) as H3. rewrite Qfloor_Z in H3.
  pose proof (Qfloor_le q) as H4.
  assert (H5 : inject_Z (Qfloor q) < inject_Z (n + 1)) by lra.
  rewrite <- Zlt_Qlt in H5. lia.
Qed.

Lemma Qfloor_shift (q : Q) (k : Z) : Qfloor (q + inject_Z k) = (Qfloor q + k)%Z.
Proof.
  apply Qfloor_unique.
  - rewrite inject_Z_plus. pose proof (Qfloor_le q). lra.
  - replace (Qfloor q + k + 1)%Z with ((Qfloor q + 1) + k)%Z by lia.
    rewrite inject_Z_plus. pose proof (Qlt_floor q). lra.
Qed.

(** [noise2D] vanishes at every point with integer coordinates, whatever
    the permutation table. *)
Theorem noise2D_zero_on_lattice (n : NoiseGenerator.t) (i j : Z) :
  NoiseGenerator.noise2D n (inject_Z i) (inject_Z j) == 0.
Proof.
  unfold NoiseGenerator.noise2D. cbv zeta. unfold floorf. rewrite !Qfloor_Z.
  assert (Hi : inject_Z i - inject_Z i == 0) by ring.
  assert (Hj : inject_Z j - inject_Z j == 0) by ring.
  set (fx := inject_Z i - inject_Z i) in *. set (fy := inject_Z j - inject_Z j) in *.
  assert (Hu : NoiseGenerator.fade fx == 0)
    by (rewrite (fade_proper fx 0 Hi); unfold NoiseGenerator.fade; ring).
  assert (Hv : NoiseGenerator.fade fy == 0)
    by (rewrite (fade_proper fy 0 Hj); unfold NoiseGenerator.fade; ring).
  match goal with
  | |- NoiseGenerator.lerp _ (NoiseGenerator.lerp _ ?g1 ?g2)
         (NoiseGenerator.lerp _ ?g3 ?g4) == 0 =>
      rewrite (lerp_proper _ 0 (NoiseGenerator.lerp (NoiseGenerator.fade fx) g1 g2) g1
                 (NoiseGenerator.lerp (NoiseGenerator.fade fx) g3 g4)
                 (NoiseGenerator.lerp (NoiseGenerator.fade fx) g3 g4) Hv);
      [| rewrite (lerp_proper _ 0 g1 g1 g2 g2 Hu);
         [unfold NoiseGenerator.lerp; ring | reflexivity | reflexivity]
       | reflexivity]
  end.
  unfold NoiseGenerator.lerp at 1.
  rewrite (grad_origin _ fx fy Hi Hj). ring.
Qed.

(** [noise2D] has period 256 along both axes (the lattice coordinates
    are reduced by [& 255]). *)
Theorem noise2D_periodic (n : NoiseGenerator.t) (x y : Q) (kx ky : Z) :
  NoiseGenerator.noise2D n (x + inject_Z (256 * kx)) (y + inject_Z (256 * ky))
  == NoiseGenerator.noise2D n x y.
Proof.
  unfold NoiseGenerator.noise2D. cbv zeta. unfold floorf. rewrite !Qfloor_shift.
  assert (EX : Z.land (Qfloor x + 256 * kx) 255 = Z.land (Qfloor x) 255).
  { change 255%Z with (Z.ones 8). rewrite !Z.land_ones by lia.
    change (2 ^ 8)%Z with 256%Z. rewrite Z.mul_comm. apply Z_mod_plus_full. }
  assert (EY : Z.land (Qfloor y + 256 * ky) 255 = Z.land (Qfloor y) 255).
  { change 255%Z with (Z.ones 8). rewrite !Z.land_ones by lia.
    change (2 ^ 8)%Z with 256%Z. rewrite Z.mul_comm. apply Z_mod_plus_full. }
  rewrite EX, EY.
  assert (Hx : x + inject_Z (256 * kx) - inject_Z (Qfloor x + 256 * kx)
               == x - inject_Z (Qfloor x)) by (rewrite inject_Z_plus; ring).
  assert (Hy : y + inject_Z (256 * ky) - inject_Z (Qfloor y + 256 * ky)
               == y - inject_Z (Qfloor y)) by (rewrite inject_Z_plus; ring).
  assert (Hx1 : x + inject_Z (256 * kx) - inject_Z (Qfloor x + 256 * kx) - 1
                == x - inject_Z (Qfloor x) - 1) by (rewrite Hx; reflexivity).
  assert (Hy1 : y + inject_Z (256 * ky) - inject_Z (Qfloor y + 256 * ky) - 1
                == y - inject_Z (Qfloor y) - 1) by (rewrite Hy; reflexivity).
  repeat (apply lerp_proper || apply fade_proper || apply grad_proper); assumption.
Qed.

(** ** The choice of the category *)

(** The rock chance is clamped to [[0.05, 0.95]]: whatever the
    configuration, the position and the noise, [determineType] returns
    [Rock] when the variate it draws is below [0.05] and [Grass] when it
    is [0.95] or more. *)
Theorem determineType_extremes (P : Platform) (s : VegetationGenerator.t P) (x z : Q) :
  let r := fst (VegetationGenerator.draw_real P 0 1 s) in
  (r < 5 # 100 -> fst (VegetationGenerator.determineType P s x z) = Rock)
  /\ (95 # 100 <= r -> fst (VegetationGenerator.determineType P s x z) = Grass).
Proof.
  cbv zeta. unfold VegetationGenerator.determineType. cbv zeta.
  match goal with
  | |- context [fclamp ?c (5 # 100) (95 # 100)] =>
      destruct (fclamp_range c (5 # 100) (95 # 100)) as [Hlo Hhi];
        [vm_compute; discriminate |]; set (chance := fclamp c (5 # 100) (95 # 100)) in *
  end.
  destruct (VegetationGenerator.draw_real P 0 1 s) as [r s1]. cbn [fst].
  split; intros Hr.
  - assert (E : fltb r chance = true) by (apply fltb_true; lra). now rewrite E.
  - assert (E : fltb r chance = false) by (apply fltb_false; lra). now rewrite E.
Qed.

Lemma determineType_extremes_witness :
  let s := VegetationGenerator.reset zero_platform (VegetationGenerator.new zero_platform)
             0%Z flat_terrain VegetationConfig.default 20 20 1%Z in
  fst (VegetationGenerator.draw_real zero_platform 0 1 s) < 5 # 100
  /\ fst (VegetationGenerator.determineType zero_platform s 3 4) = Rock.
Proof.
  intros s.
  assert (H : fst (VegetationGenerator.draw_real zero_platform 0 1 s) < 5 # 100)
    by (vm_compute; reflexivity).
  split; [exact H |].
  exact (proj1 (determineType_extremes zero_platform s 3 4) H).
Defined.

(** ** The spatial hash grid *)

Lemma same_dims_refl (g : SpatialHashGrid.t) : same_dims g g.
Proof. repeat split. Qed.

Lemma checkOverlap_empty (g : SpatialHashGrid.t) (x z radius : Q) :
  Forall (fun b => b = []) (SpatialHashGrid.cells g) ->
  SpatialHashGrid.checkOverlap g x z radius = false.
Proof.
  intros He. rewrite checkOverlap_neighbours.
  destruct (existsb _ _) eqn:E; [| reflexivity].
  apply existsb_exists in E as (a & Ha & _). exfalso.
  apply list_elem_of_In in Ha. unfold neighbours in Ha.
  apply list_elem_of_bind in Ha as (d & Ha & _).
  destruct (SpatialHashGrid.out_of_grid g _ _); [inversion Ha |].
  unfold bucket in Ha. destruct (_ <? 0)%Z; [inversion Ha |].
  destruct (SpatialHashGrid.cells g !! _) as [b |] eqn:Eb; cbn in Ha; [| inversion Ha].
  rewrite Forall_forall in He.
  rewrite (He b) in Ha by (eapply list_elem_of_lookup_2; eassumption).
  inversion Ha.
Qed.

(** A grid that has just been initialised or cleared reports no overlap,
    for any candidate; [clear] keeps the geometry and the number of
    buckets. *)
Theorem grid_empty_after_init_and_clear (g : SpatialHashGrid.t)
    (worldSizeX worldSizeZ cellSize x z radius : Q) :
  SpatialHashGrid.checkOverlap
    (SpatialHashGrid.init worldSizeX worldSizeZ cellSize g) x z radius = false
  /\ SpatialHashGrid.checkOverlap (SpatialHashGridExt.clear g) x z radius = false
  /\ same_dims (SpatialHashGridExt.clear g) g
  /\ length (SpatialHashGrid.cells (SpatialHashGridExt.clear g))
     = length (SpatialHashGrid.cells g).
Proof.
  split; [| split; [| split]].
  - apply checkOverlap_empty. cbn. apply Forall_forall. intros b Hb.
    now apply elem_of_replicate in Hb as [-> _].
  - apply checkOverlap_empty. cbn. apply Forall_forall. intros b Hb.
    apply list_elem_of_In, in_map_iff in Hb as (b0 & <- & _). reflexivity.
  - repeat split.
  - cbn. apply length_map.
Qed.

(** Round trip of [insert] and [checkOverlap]: once an item whose cell
    lies in the grid has been inserted, every candidate that overlaps it
    and falls into the same or a touching cell is reported. *)
Theorem insert_then_checkOverlap (g : SpatialHashGrid.t) (item : VegetationItem.t)
    (x z radius : Q) :
  grid_wf g ->
  cell_in_grid g (item_cell g item) ->
  adjacent_cells (item_cell g item) (cell_of g x z) ->
  SpatialHashGrid.overlaps x z radius item = true ->
  SpatialHashGrid.checkOverlap (SpatialHashGrid.insert item g) x z radius = true.
Proof.
  intros Hwf [Hcx Hcz] Hadj Hov.
  destruct (insert_stores g g (same_dims_refl g) item Hwf Hcx Hcz)
    as (Hd & _ & Hin & _).
  rewrite checkOverlap_neighbours. apply existsb_exists. exists item.
  split; [| exact Hov].
  exact (stored_is_neighbour g _ Hd item x z Hcx Hcz Hin Hadj).
Qed.

Lemma insert_then_checkOverlap_witness :
  grid_wf example_grid
  /\ cell_in_grid example_grid (item_cell example_grid example_item)
  /\ adjacent_cells (item_cell example_grid example_item) (cell_of example_grid 3 (- (2)))
  /\ SpatialHashGrid.overlaps 3 (- (2)) 3 example_item = true
  /\ SpatialHashGrid.checkOverlap (SpatialHashGrid.insert example_item example_grid)
       3 (- (2)) 3 = true.
Proof.
  assert (H1 : grid_wf example_grid) by reflexivity.
  assert (H2 : cell_in_grid example_grid (item_cell example_grid example_item))
    by (vm_compute; repeat split; discriminate).
  assert (H3 : adjacent_cells (item_cell example_grid example_item)
                 (cell_of example_grid 3 (- (2))))
    by (vm_compute; split; discriminate).
  assert (H4 : SpatialHashGrid.overlaps 3 (- (2)) 3 example_item = true) by reflexivity.
  split; [exact H1 |]. split; [exact H2 |]. split; [exact H3 |]. split; [exact H4 |].
  exact (insert_then_checkOverlap example_grid example_item 3 (- (2)) 3 H1 H2 H3 H4).
Defined.

(** An item whose cell lies outside the grid is dropped by [insert]: the
    grid is left as it was. *)
Theorem insert_outside_grid (g : SpatialHashGrid.t) (item : VegetationItem.t) :
  ~ cell_in_grid g (item_cell g item) ->
  SpatialHashGrid.insert item g = g.
Proof.
  intros Hout. unfold SpatialHashGrid.insert, SpatialHashGrid.getCellIndex.
  cbv zeta.
  change (int_of_float ((Vec3.x (VegetationItem.position item)
                         + SpatialHashGrid.offsetX g) / SpatialHashGrid.cellSize g))
    with (fst (item_cell g item)).
  change (int_of_float ((Vec3.z (VegetationItem.position item)
                         + SpatialHashGrid.offsetZ g) / SpatialHashGrid.cellSize g))
    with (snd (item_cell g item)).
  destruct (SpatialHashGrid.out_of_grid g _ _) eqn:E; [reflexivity |].
  exfalso. apply Hout. unfold SpatialHashGrid.out_of_grid in E.
  apply orb_false_elim in E as [E E4]. apply orb_false_elim in E as [E E3].
  apply orb_false_elim in E as [E1 E2].
  unfold cell_in_grid. lia.
Qed.

Lemma insert_outside_grid_witness :
  ~ cell_in_grid example_grid (item_cell example_grid stray_item)
  /\ SpatialHashGrid.insert stray_item example_grid = example_grid.
Proof.
  assert (H : ~ cell_in_grid example_grid (item_cell example_grid stray_item)).
  { vm_compute. intros [[_ H] _]. discriminate H. }
  split; [exact H |].
  exact (insert_outside_grid example_grid stray_item H).
Defined.

(** ** Game.cpp: rocks, spawn point and lake *)

Lemma near_spawn_spec (item : VegetationItem.t) :
  GameExt.near_spawn item = false <-> 25 <= originSq (VegetationItem.position item).
Proof.
  unfold GameExt.near_spawn, originSq. cbv zeta. rewrite fltb_false.
  assert (E : 5 * 5 == 25) by reflexivity. now rewrite E.
Qed.

Lemma convertToRockInstances_loop (items : list VegetationItem.t)
    (acc : list RockInstance.t) :
  exists out : list RockInstance.t,
    foldl (fun (instances : list RockInstance.t) (item : VegetationItem.t) =>
             if GameExt.near_spawn item then instances
             else instances
                  ++ [RockInstance.mk (VegetationItem.position item)
                        (VegetationItem.rotationY item) (VegetationItem.scale item)
                        (VegetationItem.typeIndex item) 0 2%Z])
          acc items = acc ++ out
    /\ Forall2 rock_of_item
               (filter (fun item => GameExt.near_spawn item = false) items) out.
Proof.
  revert acc. induction items as [| item items IH]; intros acc; cbn [foldl].
  - exists []. split; [now rewrite app_nil_r | constructor].
  - destruct (GameExt.near_spawn item) eqn:E.
    + destruct (IH acc) as (out & H1 & H2). exists out. split; [exact H1 |].
      rewrite filter_cons_False by congruence. exact H2.
    + destruct (IH (acc ++ [RockInstance.mk (VegetationItem.position item)
                              (VegetationItem.rotationY item) (VegetationItem.scale item)
                              (VegetationItem.typeIndex item) 0 2%Z]))
        as (out & H1 & H2).
      eexists (_ :: out). split; [rewrite H1, <- app_assoc; reflexivity |].
      rewrite filter_cons_True by exact E. constructor; [| exact H2].
      repeat split.
Qed.

(** [convertToRockInstances] keeps, in input order and once each,
    exactly the items at squared XZ distance of at least 25 from the
    origin (the spawn point), copies their position, rotation, scale and
    type index, and gives each the LOD level 2 and the camera distance 0;
    every returned rock is therefore at least 5 units from the spawn
    point. *)
Theorem convertToRockInstances_skips_spawn (items : list VegetationItem.t) :
  let out := GameExt.convertToRockInstances items in
  Forall (fun inst : RockInstance.t => 25 <= originSq (RockInstance.position inst)) out
  /\ exists keep : VegetationItem.t -> bool,
       (forall item, keep item = true <-> 25 <= originSq (VegetationItem.position item))
       /\ Forall2 rock_of_item (filter (fun item => keep item = true) items) out.
Proof.
  cbv zeta. unfold GameExt.convertToRockInstances.
  destruct (convertToRockInstances_loop items []) as (out & -> & H).
  cbn [app]. split.
  - assert (Hk : Forall (fun item => GameExt.near_spawn item = false)
                   (filter (fun item => GameExt.near_spawn item = false) items)).
    { apply Forall_forall. intros item Hi. apply list_elem_of_filter in Hi. tauto. }
    revert Hk. induction H as [| item inst kept out' Hc Hall IH]; intros Hk; constructor.
    + destruct Hc as (Hp & _). rewrite Hp. apply near_spawn_spec. now inversion Hk.
    + apply IH. now inversion Hk.
  - exists (fun item => negb (GameExt.near_spawn item)). split.
    + intros item. rewrite <- near_spawn_spec.
      destruct (GameExt.near_spawn item); cbn; split; congruence.
    + erewrite list_filter_iff; [exact H |].
      intros item. cbv beta. now rewrite negb_true_iff.
Qed.

Lemma checkRockCollision_false (position : Vec3.t) (rocks : list RockInstance.t)
    (playerRadius : Q) :
  Forall (fun rock =>
            (playerRadius + RockInstance.scale rock * (15 # 10))
            * (playerRadius + RockInstance.scale rock * (15 # 10))
            <= (Vec3.x position - Vec3.x (RockInstance.position rock))
               * (Vec3.x position - Vec3.x (RockInstance.position rock))
               + (Vec3.z position - Vec3.z (RockInstance.position rock))
                 * (Vec3.z position - Vec3.z (RockInstance.position rock))) rocks ->
  GameExt.checkRockCollision position rocks playerRadius = false.
Proof.
  induction 1 as [| rock rocks Hr Hrs IH]; cbn [GameExt.checkRockCollision];
    [reflexivity |].
  cbv zeta. apply fltb_false in Hr. now rewrite Hr.
Qed.

(** The spawn point is free of rocks: a player standing at the origin
    collides with none of the rocks that [convertToRockInstances]
    returns, provided the player's radius plus the collision radius
    [1.5 * scale] of every item is at most 5 in absolute value. *)
Theorem spawn_point_is_free (items : list VegetationItem.t) (y playerRadius : Q) :
  Forall (fun item : VegetationItem.t =>
            - (5) <= playerRadius + VegetationItem.scale item * (15 # 10)
            /\ playerRadius + VegetationItem.scale item * (15 # 10) <= 5) items ->
  GameExt.checkRockCollision (Vec3.mk 0 y 0)
    (GameExt.convertToRockInstances items) playerRadius = false.
Proof.
  intros Hs. apply checkRockCollision_false.
  unfold GameExt.convertToRockInstances.
  destruct (convertToRockInstances_loop items []) as (out & -> & H).
  cbn [app].
  assert (Hk : Forall (fun item =>
                         GameExt.near_spawn item = false
                         /\ - (5) <= playerRadius + VegetationItem.scale item * (15 # 10)
                         /\ playerRadius + VegetationItem.scale item * (15 # 10) <= 5)
                 (filter (fun item => GameExt.near_spawn item = false) items)).
  { apply Forall_forall. intros item Hi. apply list_elem_of_filter in Hi as [Hn Hi].
    rewrite Forall_forall in Hs. split; [exact Hn | now apply Hs]. }
  revert Hk. induction H as [| item inst kept out' Hc Hall IH]; intros Hk; constructor.
  - inversion Hk as [| ? ? (Hn & Hlo & Hhi) _]; subst.
    destruct Hc as (Hp & _ & Hsc & _). rewrite Hp, Hsc.
    apply near_spawn_spec in Hn. unfold originSq in Hn. cbn [Vec3.x Vec3.z].
    set (r := playerRadius + VegetationItem.scale item * (15 # 10)) in *.
    set (px := Vec3.x (VegetationItem.position item)) in *.
    set (pz := Vec3.z (VegetationItem.position item)) in *.
    assert (H1 : 0 <= (5 - r) * (5 + r)) by (apply Qmult_le_0_compat; lra).
    assert (E1 : (0 - px) * (0 - px) + (0 - pz) * (0 - pz) == px * px + pz * pz) by ring.
    lra.
  - apply IH. now inversion Hk.
Qed.

Lemma spawn_point_is_free_witness :
  Forall (fun item : VegetationItem.t =>
            - (5) <= (1 # 2) + VegetationItem.scale item * (15 # 10)
            /\ (1 # 2) + VegetationItem.scale item * (15 # 10) <= 5) example_items
  /\ length (GameExt.convertToRockInstances example_items) = 2%nat
  /\ GameExt.checkRockCollision (Vec3.mk 0 (17 # 10) 0)
       (GameExt.convertToRockInstances example_items) (1 # 2) = false.
Proof.
  assert (H : Forall (fun item : VegetationItem.t =>
            - (5) <= (1 # 2) + VegetationItem.scale item * (15 # 10)
            /\ (1 # 2) + VegetationItem.scale item * (15 # 10) <= 5) example_items)
    by (vm_compute; repeat constructor; discriminate).
  split; [exact H |]. split; [reflexivity |].
  exact (spawn_point_is_free example_items (17 # 10) (1 # 2) H).
Defined.

(** No grass stands in the water: none of the instances that
    [convertToGrassInstances] returns for a lake is at a position where
    [checkLakeCollision] blocks a player of radius [playerRadius], as long
    as [-2.5 <= playerRadius <= 2 * radius + 1.5]. *)
Theorem grass_outside_water (P : Platform) (lake : LakeConfig.t)
    (items : list VegetationItem.t) (numGroups numTypesPerGroup : Z) (playerRadius : Q) :
  - (5 # 2) <= playerRadius ->
  playerRadius <= 2 * LakeConfig.radius lake + (3 # 2) ->
  Forall (fun inst : GrassInstance.t =>
            GameExt.checkLakeCollision (GrassInstance.position inst) lake playerRadius
            = false)
         (Game.convertToGrassInstances P (Some lake) items numGroups numTypesPerGroup).
Proof.
  intros Hlo Hhi. unfold Game.convertToGrassInstances.
  destruct (convert_loop P lake numGroups numTypesPerGroup items ([], mt_seed P 12345))
    as (out & -> & Hall).
  cbn [fst app].
  assert (Hk : Forall (fun item => Game.in_lake (Some lake) item = false)
                 (filter (fun item => Game.in_lake (Some lake) item = false) items)).
  { apply Forall_forall. intros item Hi. apply list_elem_of_filter in Hi. tauto. }
  revert Hk. induction Hall as [| item inst kept out' Hc Hall IH]; intros Hk; constructor.
  - inversion Hk as [| ? ? Hn _]; subst. destruct Hc as (Hp & _).
    unfold GameExt.checkLakeCollision. cbv zeta. rewrite Hp.
    assert (Hd : (LakeConfig.radius lake + 2) * (LakeConfig.radius lake + 2)
                 <= distSqXZ (VegetationItem.position item) (LakeConfig.center lake)).
    { destruct (Qlt_le_dec (distSqXZ (VegetationItem.position item) (LakeConfig.center lake))
                  ((LakeConfig.radius lake + 2) * (LakeConfig.radius lake + 2)))
        as [Hlt | Hle]; [| exact Hle].
      apply in_lake_spec in Hlt. congruence. }
    unfold distSqXZ in Hd.
    set (r := LakeConfig.radius lake) in *.
    assert (H1 : 0 <= (r + 2 - (r - playerRadius - (1 # 2)))
                      * (r + 2 + (r - playerRadius - (1 # 2))))
      by (apply Qmult_le_0_compat; lra).
    match goal with
    | |- (if fltb ?d ?w then true else false) = false =>
        assert (E : fltb d w = false) by (apply fltb_false; lra); now rewrite E
    end.
  - apply IH. now inversion Hk.
Qed.

Lemma grass_outside_water_witness :
  - (5 # 2) <= 1 # 2
  /\ 1 # 2 <= 2 * LakeConfig.radius example_lake + (3 # 2)
  /\ length (Game.convertToGrassInstances zero_platform (Some example_lake)
               example_items 2 3) = 2%nat
  /\ Forall (fun inst : GrassInstance.t =>
               GameExt.checkLakeCollision (GrassInstance.position inst) example_lake (1 # 2)
               = false)
            (Game.convertToGrassInstances zero_platform (Some example_lake)
               example_items 2 3).
Proof.
  assert (H1 : - (5 # 2) <= 1 # 2) by (vm_compute; discriminate).
  assert (H2 : 1 # 2 <= 2 * LakeConfig.radius example_lake + (3 # 2))
    by (vm_compute; discriminate).
  split; [exact H1 |]. split; [exact H2 |]. split; [reflexivity |].
  exact (grass_outside_water zero_platform example_lake example_items 2 3 (1 # 2) H1 H2).
Defined.

(** ** Weighted selection *)

Lemma sumf_acc (l : list Q) (a : Q) : foldl Qplus a l == a + HybridGrassField.sumf l.
Proof.
  unfold HybridGrassField.sumf. revert a.
  induction l as [| w l IH]; intros a; cbn [foldl]; [ring |].
  rewrite (IH (a + w)), (IH (0 + w)). ring.
Qed.

Lemma sumf_cons (w : Q) (l : list Q) :
  HybridGrassField.sumf (w :: l) == w + HybridGrassField.sumf l.
Proof.
  unfold HybridGrassField.sumf at 1. cbn [foldl]. rewrite sumf_acc. ring.
Qed.

Lemma sumf_scaled (l : list Q) (c : Q) :
  HybridGrassField.sumf (map (fun w => w / c) l) == HybridGrassField.sumf l / c.
Proof.
  induction l as [| w l IH]; cbn [map].
  - unfold HybridGrassField.sumf. cbn. unfold Qdiv. ring.
  - rewrite !sumf_cons, IH. unfold Qdiv. ring.
Qed.

(** [normalizeWeights] keeps the number of weights; the normalised
    weights sum to 1 when the given weights have a positive sum, and are
    all 0 otherwise. *)
Theorem normalize_sums_to_one (l : list Q) :
  length (HybridGrassField.normalize l) = length l
  /\ (0 < HybridGrassField.sumf l ->
      HybridGrassField.sumf (HybridGrassField.normalize l) == 1)
  /\ (HybridGrassField.sumf l <= 0 ->
      Forall (fun w => w = 0) (HybridGrassField.normalize l)).
Proof.
  unfold HybridGrassField.normalize. cbv zeta.
  split; [apply length_map |]. split; intros H.
  - assert (E : fltb 0 (HybridGrassField.sumf l) = true) by now apply fltb_true.
    rewrite E, sumf_scaled. field. lra.
  - assert (E : fltb 0 (HybridGrassField.sumf l) = false) by now apply fltb_false.
    rewrite E. apply Forall_forall. intros w Hw.
    apply list_elem_of_In, in_map_iff in Hw as (w0 & <- & _). reflexivity.
Qed.

Lemma normalize_sums_to_one_witness :
  0 < HybridGrassField.sumf [1; 3; 4]
  /\ HybridGrassField.sumf (HybridGrassField.normalize [1; 3; 4]) == 1.
Proof.
  assert (H : 0 < HybridGrassField.sumf [1; 3; 4]) by (vm_compute; reflexivity).
  split; [exact H |].
  exact (proj1 (proj2 (normalize_sums_to_one [1; 3; 4])) H).
Defined.

Lemma roulette_spec (weights : list Q) (i : Z) (c r : Q) :
  match HybridGrassFieldExt.roulette weights i c r with
  | Some k =>
      (i <= k < i + Z.of_nat (length weights))%Z
      /\ r <= c + running_sum weights (S (Z.to_nat (k - i)))
      /\ forall j : nat, (j < Z.to_nat (k - i))%nat -> c + running_sum weights (S j) < r
  | None =>
      forall j : nat, (j < length weights)%nat -> c + running_sum weights (S j) < r
  end.
Proof.
  revert i c. induction weights as [| w rest IH]; intros i c;
    cbn [HybridGrassFieldExt.roulette].
  - intros j Hj. cbn in Hj. lia.
  - cbv zeta. destruct (fleb r (c + w)) eqn:E.
    + apply fleb_true in E. replace (i - i)%Z with 0%Z by lia.
      cbn [length]. split; [lia |]. split.
      * change (Z.to_nat 0) with 0%nat. unfold running_sum. rewrite firstn_cons, take_0.
        rewrite sumf_cons. change (HybridGrassField.sumf []) with 0. lra.
      * intros j Hj. cbn in Hj. lia.
    + apply fleb_false in E. specialize (IH (i + 1)%Z (c + w)).
      assert (Hrs : forall j, c + running_sum (w :: rest) (S (S j))
                              == c + w + running_sum rest (S j)).
      { intros j. unfold running_sum. rewrite firstn_cons, sumf_cons. ring. }
      assert (Hr1 : c + running_sum (w :: rest) 1 == c + w).
      { unfold running_sum. rewrite firstn_cons, take_0, sumf_cons.
        change (HybridGrassField.sumf []) with 0. ring. }
      destruct (HybridGrassFieldExt.roulette rest (i + 1) (c + w) r) as [k |].
      * destruct IH as (Hk & Hle & Hlt). cbn [length].
        replace (Z.to_nat (k - i)) with (S (Z.to_nat (k - (i + 1)))) by lia.
        split; [lia |]. split.
        -- rewrite Hrs. exact Hle.
        -- intros [| j] Hj; [rewrite Hr1; exact E |].
           rewrite Hrs. apply Hlt. lia.
      * intros [| j] Hj; [rewrite Hr1; exact E |].
        rewrite Hrs. apply IH. cbn [length] in Hj. lia.
Qed.

(** [selectWeightedGroup] returns the first index at which the running
    sum of the normalised group weights reaches [randomValue]; when no
    running sum reaches it, it returns the last index, which is [-1] for
    an empty weight list.  The result is always below the number of
    weights and at least [-1]. *)
Theorem selectWeightedGroup_first_reached (s : HybridGrassField.t) (randomValue : Q) :
  let weights := HybridGrassField.normalizedGroupWeights s in
  let k := HybridGrassFieldExt.selectWeightedGroup s randomValue in
  (-1 <= k < Z.of_nat (length weights))%Z
  /\ (forall j : nat, (Z.of_nat j < k)%Z -> running_sum weights (S j) < randomValue)
  /\ (randomValue <= running_sum weights (Z.to_nat (k + 1))
      \/ (k = Z.of_nat (length weights) - 1)%Z
         /\ forall j : nat, (j < length weights)%nat ->
                            running_sum weights (S j) < randomValue).
Proof.
  cbv zeta. unfold HybridGrassFieldExt.selectWeightedGroup.
  pose proof (roulette_spec (HybridGrassField.normalizedGroupWeights s) 0 0 randomValue)
    as H.
  destruct (HybridGrassFieldExt.roulette _ 0 0 randomValue) as [k |].
  - destruct H as (Hk & Hle & Hlt). rewrite Z.sub_0_r in Hle, Hlt.
    split; [lia |]. split.
    + intros j Hj. specialize (Hlt j ltac:(lia)). lra.
    + left. replace (Z.to_nat (k + 1)) with (S (Z.to_nat k)) by lia. lra.
  - split; [lia |]. split.
    + intros j Hj. specialize (H j ltac:(lia)). lra.
    + right. split; [reflexivity |]. intros j Hj. specialize (H j Hj). lra.
Qed.

(** [selectWeightedType] answers 0 for a group index outside the table
    of type weights, and otherwise an index below the number of type
    weights of that group and at least [-1]. *)
Theorem selectWeightedType_range (s : HybridGrassField.t) (groupIndex : Z)
    (randomValue : Q) :
  let table := HybridGrassField.normalizedTypeWeights s in
  let k := HybridGrassFieldExt.selectWeightedType s groupIndex randomValue in
  if (groupIndex <? 0)%Z || (Z.of_nat (length table) <=? groupIndex)%Z
  then k = 0%Z
  else (-1 <= k < Z.of_nat (length (default [] (table !! Z.to_nat groupIndex))))%Z.
Proof.
  cbv zeta. unfold HybridGrassFieldExt.selectWeightedType.
  destruct ((groupIndex <? 0)%Z || _); [reflexivity |]. cbv zeta.
  pose proof (roulette_spec
    (default [] (HybridGrassField.normalizedTypeWeights s !! Z.to_nat groupIndex))
    0 0 randomValue) as H.
  destruct (HybridGrassFieldExt.roulette _ 0 0 randomValue) as [k |]; [| lia].
  destruct H as (Hk & _). lia.
Qed.

Lemma selectWeightedGroup_first_reached_witness :
  HybridGrassFieldExt.selectWeightedGroup weighted_field (1 # 2) = 1%Z
  /\ (Z.of_nat 0 < HybridGrassFieldExt.selectWeightedGroup weighted_field (1 # 2))%Z
  /\ running_sum (HybridGrassField.normalizedGroupWeights weighted_field) 1 < 1 # 2.
Proof.
  assert (H : (Z.of_nat 0 < HybridGrassFieldExt.selectWeightedGroup weighted_field (1 # 2))%Z)
    by (vm_compute; reflexivity).
  split; [reflexivity |]. split; [exact H |].
  exact (proj1 (proj2 (selectWeightedGroup_first_reached weighted_field (1 # 2))) 0%nat H).
Defined.

(** ** Poisson disk sampling *)

Lemma samples_apart_sym (radius : Q) (a b : Vec2.t) :
  samples_apart radius a b -> samples_apart radius b a.
Proof.
  unfold samples_apart. intros H.
  assert (E : (Vec2.x b - Vec2.x a) * (Vec2.x b - Vec2.x a)
              + (Vec2.y b - Vec2.y a) * (Vec2.y b - Vec2.y a)
              == (Vec2.x a - Vec2.x b) * (Vec2.x a - Vec2.x b)
                 + (Vec2.y a - Vec2.y b) * (Vec2.y a - Vec2.y b)) by ring.
  now rewrite E.
Qed.

Lemma tooClose_false (samples : list Vec2.t) (x z radius : Q) :
  RocksExt.tooClose samples x z radius = false ->
  Forall (fun e => samples_apart radius e (Vec2.mk x z)) samples.
Proof.
  unfold RocksExt.tooClose. induction samples as [| e samples IH]; cbn [existsb];
    intros H; constructor.
  - apply orb_false_elim in H as [H _]. cbv zeta in H. apply fltb_false in H.
    apply samples_apart_sym. exact H.
  - apply IH. now apply orb_false_elim in H as [_ H].
Qed.

Section Poisson.
Variable P : Platform.
Variables minX minZ width height radius : Q.

Lemma attempts_inv (n : nat) (st : list Vec2.t * mt19937 P) :
  pairwise (samples_apart radius) (fst st) ->
  let st' := RocksExt.attempts P n minX minZ width height radius st in
  pairwise (samples_apart radius) (fst st')
  /\ (length (fst st') <= length (fst st) + 1)%nat.
Proof.
  revert st. induction n as [| n IH]; intros st Hp; cbn [RocksExt.attempts].
  - split; [exact Hp | lia].
  - destruct (uniform_real P minX (minX + width) (snd st)) as [x g1].
    destruct (uniform_real P minZ (minZ + height) g1) as [z g2].
    destruct (RocksExt.tooClose (fst st) x z radius) eqn:E.
    + exact (IH (fst st, g2) Hp).
    + cbn [fst]. split.
      * apply pairwise_snoc; [apply samples_apart_sym | exact Hp |].
        now apply tooClose_false.
      * rewrite length_app. cbn. lia.
Qed.

Lemma poisson_loop (l : list Z) (st : list Vec2.t * mt19937 P) :
  pairwise (samples_apart radius) (fst st) ->
  let st' := foldl (fun (st0 : list Vec2.t * mt19937 P) (_ : Z) =>
                      RocksExt.attempts P 30 minX minZ width height radius st0) st l in
  pairwise (samples_apart radius) (fst st')
  /\ (length (fst st') <= length (fst st) + length l)%nat.
Proof.
  revert st. induction l as [| a l IH]; intros st Hp; cbn [foldl].
  - split; [exact Hp | lia].
  - destruct (attempts_inv 30 st Hp) as [H1 H2].
    destruct (IH _ H1) as [H3 H4]. split; [exact H3 |]. cbn [length]. lia.
Qed.
End Poisson.

(** Any two samples that [poissonDiskSampling] returns are at least
    [radius] apart (on squared distances), and it returns at most
    [numSamples] samples, none when [numSamples] is not positive. *)
Theorem poissonDiskSampling_spaced (P : Platform) (minX minZ width height radius : Q)
    (numSamples : Z) (g : mt19937 P) :
  let samples :=
    fst (RocksExt.poissonDiskSampling P minX minZ width height radius numSamples g) in
  (forall (i j : nat) (a b : Vec2.t),
     samples !! i = Some a -> samples !! j = Some b -> i <> j ->
     radius * radius
     <= (Vec2.x a - Vec2.x b) * (Vec2.x a - Vec2.x b)
        + (Vec2.y a - Vec2.y b) * (Vec2.y a - Vec2.y b))
  /\ (Z.of_nat (length samples) <= Z.max 0 numSamples)%Z.
Proof.
  cbv zeta. unfold RocksExt.poissonDiskSampling.
  destruct (poisson_loop P minX minZ width height radius (seqZ 0 numSamples) ([], g)
              (pairwise_nil _)) as [H1 H2].
  split; [exact H1 |]. rewrite length_seqZ in H2. cbn [fst length] in H2. lia.
Qed.

Lemma poissonDiskSampling_spaced_witness :
  let samples :=
    fst (RocksExt.poissonDiskSampling corner_platform 0 0 10 10 3 2
           (mt_seed corner_platform 0%Z)) in
  exists a b : Vec2.t,
    samples !! 0%nat = Some a /\ samples !! 1%nat = Some b /\ 0%nat <> 1%nat
    /\ 3 * 3 <= (Vec2.x a - Vec2.x b) * (Vec2.x a - Vec2.x b)
                + (Vec2.y a - Vec2.y b) * (Vec2.y a - Vec2.y b).
Proof.
  intros samples. eexists. eexists.
  assert (H1 : samples !! 0%nat = Some (Vec2.mk (0 + 0 * (0 + 10 - 0)) (0 + 0 * (0 + 10 - 0))))
    by (vm_compute; reflexivity).
  assert (H2 : samples !! 1%nat = Some (Vec2.mk (0 + 1 * (0 + 10 - 0)) (0 + 1 * (0 + 10 - 0))))
    by (vm_compute; reflexivity).
  assert (H3 : 0%nat <> 1%nat) by discriminate.
  split; [exact H1 |]. split; [exact H2 |]. split; [exact H3 |].
  exact (proj1 (poissonDiskSampling_spaced corner_platform 0 0 10 10 3 2
                  (mt_seed corner_platform 0%Z)) 0%nat 1%nat _ _ H1 H2 H3).
Defined.

(** ** The height map *)

Lemma iclamp_range (v lo hi : Z) : (lo <= hi)%Z -> (lo <= iclamp v lo hi <= hi)%Z.
Proof.
  intros H. unfold iclamp.
  destruct (Z.ltb_spec v lo); [lia |]. destruct (Z.ltb_spec hi v); lia.
Qed.

Lemma iclamp_id (v lo hi : Z) : (lo <= v <= hi)%Z -> iclamp v lo hi = v.
Proof.
  intros H. unfold iclamp.
  destruct (Z.ltb_spec v lo); [lia |]. destruct (Z.ltb_spec hi v); lia.
Qed.





Lemma fmin_le (a b : Q) : fmin a b <= a /\ fmin a b <= b.
Proof.
  unfold fmin. destruct (fltb b a) eqn:E.
  - apply fltb_true in E. split; lra.
  - apply fltb_false in E. split; lra.
Qed.

Lemma fmax_ge (a b : Q) : a <= fmax a b /\ b <= fmax a b.
Proof.
  unfold fmax. destruct (fltb a b) eqn:E.
  - apply fltb_true in E. split; lra.
  - apply fltb_false in E. split; lra.
Qed.

Section LoadSamples.
Variable t0 : Heightmap.t.
Variable full : Q.

Local Abbreviation step :=
  (fun (st : list Q * Q * Q) (iv : nat * Z) =>
     let n := float_of_int (snd iv) / full in
     let h := Heightmap.heightOffset t0 + n * Heightmap.heightScale t0 in
     Heightmap.store (fst iv) h st).

Lemma load_fold (vs : list Z) (k : nat) (hs : list Q) (lo hi : Q) :
  (k + length vs <= length hs)%nat ->
  exists hs' lo' hi',
    foldl step (hs, lo, hi) (imap (fun (i : nat) (v : Z) => ((k + i)%nat, v)) vs)
    = (hs', lo', hi')
    /\ hs' = take k hs ++ map (sample_height t0 full) vs ++ drop (k + length vs) hs
    /\ lo' <= lo /\ hi <= hi'
    /\ Forall (fun h => lo' <= h /\ h <= hi') (map (sample_height t0 full) vs).
Proof.
  revert k hs lo hi. induction vs as [| v vs IH]; intros k hs lo hi Hlen.
  - exists hs, lo, hi. cbn [imap foldl map length]. rewrite Nat.add_0_r.
    cbn [app]. rewrite take_drop. repeat split; try lra. constructor.
  - cbn [length] in Hlen. cbn [imap foldl]. cbv zeta. cbn [fst snd].
    unfold Heightmap.store at 2.
    destruct (IH (S k) (<[(k + 0)%nat := sample_height t0 full v]> hs)
                (fmin lo (sample_height t0 full v)) (fmax hi (sample_height t0 full v)))
      as (hs' & lo' & hi' & Hf & Hhs & Hlo & Hhi & Hall).
    { rewrite length_insert. lia. }
    exists hs', lo', hi'.
    split.
    { rewrite <- Hf. unfold sample_height. f_equal.
      apply imap_ext. intros i x _. cbn. f_equal. lia. }
    destruct (fmin_le lo (sample_height t0 full v)) as [Hm1 Hm2].
    destruct (fmax_ge hi (sample_height t0 full v)) as [HM1 HM2].
    split; [| split; [lra | split; [lra |]]].
    + rewrite Hhs. rewrite Nat.add_0_r.
      assert (Hk : (k < length hs)%nat) by lia.
      destruct (lookup_lt_is_Some_2 hs k Hk) as [old Hold].
      rewrite (take_S_r (<[k := sample_height t0 full v]> hs) k (sample_height t0 full v))
        by (apply list_lookup_insert_eq; exact Hk).
      rewrite take_insert_ge by lia.
      rewrite drop_insert_lt by lia.
      cbn [map length]. rewrite <- app_assoc. cbn [app].
      replace (S k + length vs)%nat with (k + S (length vs))%nat by lia. reflexivity.
    + cbn [map]. constructor; [split; lra | exact Hall].
Qed.

Lemma load_samples_spec (vs : list Z) :
  length vs = length (Heightmap.heights t0) ->
  let t1 := Heightmap.load_samples t0 full vs in
  Heightmap.heights t1 = map (sample_height t0 full) vs
  /\ Forall (fun h => Heightmap.minHeightWorld t1 <= h /\ h <= Heightmap.maxHeightWorld t1)
            (Heightmap.heights t1)
  /\ Heightmap.hmW t1 = Heightmap.hmW t0 /\ Heightmap.hmH t1 = Heightmap.hmH t0.
Proof.
  intros Hlen. cbv zeta. unfold Heightmap.load_samples.
  destruct (load_fold vs 0 (Heightmap.heights t0) 1000000000 (- (1000000000)))
    as (hs' & lo' & hi' & Hf & Hhs & _ & _ & Hall); [lia |].
  assert (E : imap (fun (i : nat) (v : Z) => (i, v)) vs
              = imap (fun (i : nat) (v : Z) => ((0 + i)%nat, v)) vs)
    by (apply imap_ext; reflexivity).
  rewrite E. cbv zeta in Hf |- *. rewrite Hf.
  cbn [Heightmap.heights Heightmap.minHeightWorld Heightmap.maxHeightWorld
                      Heightmap.hmW Heightmap.hmH].
  assert (Ehs : hs' = map (sample_height t0 full) vs).
  { rewrite Hhs. cbn [take app]. rewrite Nat.add_0_l, Hlen, drop_all. apply app_nil_r. }
  rewrite Ehs. repeat split. exact Hall.
Qed.
End LoadSamples.

Lemma samples16_length (n : nat) (bytes : list Byte.byte) :
  length bytes = (n * 2)%nat -> length (Heightmap.samples16 bytes) = n.
Proof.
  revert bytes. induction n as [| n IH]; intros bytes Hlen.
  - destruct bytes; [reflexivity | discriminate].
  - destruct bytes as [| lo [| hi rest]]; try discriminate.
    cbn [Heightmap.samples16 length]. f_equal. apply IH. cbn in Hlen. lia.
Qed.

(** The RAW loaders.  On a map whose height vector has one entry per
    grid point (as [init] sizes it), a load that succeeds stores the
    height [heightOffset + (sample / full scale) * heightScale] of every
    sample of the file, in file order, and leaves in [minHeightWorld] and
    [maxHeightWorld] bounds of all stored heights; a load that fails (no
    file, or a file shorter than the map) changes nothing. *)
Theorem loadRAW_records_heights (file : option (list Byte.byte)) (t0 : Heightmap.t) :
  length (Heightmap.heights t0) = Z.to_nat (Heightmap.hmW t0 * Heightmap.hmH t0) ->
  let expected := Z.to_nat (Heightmap.hmW t0 * Heightmap.hmH t0) in
  let r8 := Heightmap.loadRAW8 file t0 in
  let r16 := Heightmap.loadRAW16LE file t0 in
  (if fst r8
   then exists content,
          file = Some content
          /\ Heightmap.heights (snd r8)
             = map (sample_height t0 255) (map Heightmap.byte_value (take expected content))
          /\ Forall (fun h => Heightmap.minHeightWorld (snd r8) <= h
                              /\ h <= Heightmap.maxHeightWorld (snd r8))
                    (Heightmap.heights (snd r8))
   else snd r8 = t0)
  /\ (if fst r16
      then exists content,
             file = Some content
             /\ Heightmap.heights (snd r16)
                = map (sample_height t0 65535)
                      (Heightmap.samples16 (take (expected * 2) content))
             /\ Forall (fun h => Heightmap.minHeightWorld (snd r16) <= h
                                 /\ h <= Heightmap.maxHeightWorld (snd r16))
                       (Heightmap.heights (snd r16))
      else snd r16 = t0).
Proof.
  intros Hlen. cbv zeta. unfold Heightmap.loadRAW8, Heightmap.loadRAW16LE.
  destruct file as [content |]; [| split; reflexivity]. cbv zeta.
  split.
  - destruct (Nat.eqb_spec (length (take (Z.to_nat (Heightmap.hmW t0 * Heightmap.hmH t0))
                                      content))
                (Z.to_nat (Heightmap.hmW t0 * Heightmap.hmH t0))) as [E | E];
      cbn [negb fst snd]; [| reflexivity].
    exists content. split; [reflexivity |].
    destruct (load_samples_spec t0 255
                (map Heightmap.byte_value
                   (take (Z.to_nat (Heightmap.hmW t0 * Heightmap.hmH t0)) content)))
      as (H1 & H2 & _); [rewrite length_map; congruence |].
    split; assumption.
  - destruct (Nat.eqb_spec (length (take (Z.to_nat (Heightmap.hmW t0 * Heightmap.hmH t0) * 2)
                                      content))
                (Z.to_nat (Heightmap.hmW t0 * Heightmap.hmH t0) * 2)) as [E | E];
      cbn [negb fst snd]; [| reflexivity].
    exists content. split; [reflexivity |].
    destruct (load_samples_spec t0 65535
                (Heightmap.samples16
                   (take (Z.to_nat (Heightmap.hmW t0 * Heightmap.hmH t0) * 2) content)))
      as (H1 & H2 & _); [rewrite (samples16_length _ _ E); congruence |].
    split; assumption.
Qed.

Lemma length_bind_const {A B : Type} (f : A -> list B) (l : list A) (n : nat) :
  (forall a, a ∈ l -> length (f a) = n) -> length (l ≫= f) = (length l * n)%nat.
Proof.
  induction l as [| a l IH]; intros Hf; [reflexivity |].
  rewrite bind_cons, length_app, IH, Hf.
  - cbn [length]. lia.
  - left.
  - intros a0 Ha. apply Hf. now right.
Qed.

(** The terrain mesh: one vertex per grid point, two triangles per grid
    cell, and every index refers to a vertex. *)
Theorem terrain_mesh_indices_valid (t0 : Heightmap.t) :
  (1 <= Heightmap.hmW t0)%Z -> (1 <= Heightmap.hmH t0)%Z ->
  length (Heightmap.mesh_positions t0)
  = Z.to_nat (Heightmap.hmW t0 * Heightmap.hmH t0)
  /\ length (Heightmap.mesh_indices t0)
     = Z.to_nat (6 * ((Heightmap.hmW t0 - 1) * (Heightmap.hmH t0 - 1)))
  /\ Forall (fun i => (0 <= i < Z.of_nat (length (Heightmap.mesh_positions t0)))%Z)
            (Heightmap.mesh_indices t0).
Proof.
  intros HW HH.
  assert (Hp : length (Heightmap.mesh_positions t0)
               = Z.to_nat (Heightmap.hmW t0 * Heightmap.hmH t0)).
  { unfold Heightmap.mesh_positions. cbv zeta.
    rewrite (length_bind_const _ _ (Z.to_nat (Heightmap.hmW t0))).
    - rewrite length_seqZ. lia.
    - intros z _. rewrite (length_bind_const _ _ 1%nat).
      + rewrite length_seqZ. lia.
      + reflexivity. }
  split; [exact Hp |]. split.
  - unfold Heightmap.mesh_indices. cbv zeta.
    rewrite (length_bind_const _ _ (Z.to_nat (Heightmap.hmW t0 - 1) * 6)%nat).
    + rewrite length_seqZ, !Z2Nat.inj_mul by nia. change (Z.to_nat 6) with 6%nat. lia.
    + intros z _. rewrite (length_bind_const _ _ 6%nat).
      * rewrite length_seqZ. reflexivity.
      * reflexivity.
  - rewrite Hp. unfold Heightmap.mesh_indices. cbv zeta.
    apply Forall_bind, Forall_forall. intros z Hz. apply elem_of_seqZ in Hz.
    unfold compose. apply Forall_bind, Forall_forall. intros x Hx.
    apply elem_of_seqZ in Hx. unfold compose.
    repeat constructor; nia.
Qed.

Lemma terrain_mesh_indices_valid_witness :
  let t0 := Heightmap.init_members 3 2 20 10 40 0 Heightmap.new in
  (1 <= Heightmap.hmW t0)%Z /\ (1 <= Heightmap.hmH t0)%Z
  /\ Heightmap.mesh_indices t0 = [0; 1; 3; 1; 4; 3; 1; 2; 4; 2; 5; 4]%Z
  /\ Forall (fun i => (0 <= i < Z.of_nat (length (Heightmap.mesh_positions t0)))%Z)
            (Heightmap.mesh_indices t0).
Proof.
  intros t0.
  assert (H1 : (1 <= Heightmap.hmW t0)%Z) by (vm_compute; discriminate).
  assert (H2 : (1 <= Heightmap.hmH t0)%Z) by (vm_compute; discriminate).
  split; [exact H1 |]. split; [exact H2 |]. split; [reflexivity |].
  exact (proj2 (proj2 (terrain_mesh_indices_valid t0 H1 H2))).
Defined.

Lemma grid_fraction (w : Q) (n x : Z) :
  0 < w -> (2 <= n)%Z -> (0 <= x < n)%Z ->
  fclamp ((float_of_int x * (w / float_of_int (n - 1)) - w * (1 # 2) + w * (1 # 2)) / w) 0 1
  * float_of_int (n - 1) == inject_Z x.
Proof.
  intros Hw Hn Hx. unfold float_of_int.
  assert (Hn1 : 0 < inject_Z (n - 1)).
  { change 0 with (inject_Z 0). rewrite <- Zlt_Qlt. lia. }
  assert (Hx0 : 0 <= inject_Z x).
  { change 0 with (inject_Z 0). rewrite <- Zle_Qle. lia. }
  assert (Hx1 : inject_Z x <= inject_Z (n - 1)) by (rewrite <- Zle_Qle; lia).
  set (fx := (inject_Z x * (w / inject_Z (n - 1)) - w * (1 # 2) + w * (1 # 2)) / w).
  assert (E : fx == inject_Z x / inject_Z (n - 1)) by (unfold fx; field; split; lra).
  assert (E2 : fx * inject_Z (n - 1) == inject_Z x) by (rewrite E; field; lra).
  assert (H0 : 0 <= fx) by (rewrite E; apply Qdiv_nonneg; assumption).
  assert (H1 : fx <= 1).
  { rewrite E. apply Qle_shift_div_r; [exact Hn1 | lra]. }
  unfold fclamp.
  assert (F1 : fltb fx 0 = false) by now apply fltb_false.
  assert (F2 : fltb 1 fx = false) by now apply fltb_false.
  rewrite F1, F2. exact E2.
Qed.

(** Every vertex of the terrain mesh lies on the sampled surface:
    [sampleHeightWorld] at the XZ position of a vertex returns the height
    of that vertex (in exact arithmetic), for a map of at least 2 by 2
    samples and a world of positive size. *)
Theorem terrain_mesh_on_surface (t0 : Heightmap.t) :
  (2 <= Heightmap.hmW t0)%Z -> (2 <= Heightmap.hmH t0)%Z ->
  0 < Heightmap.worldX t0 -> 0 < Heightmap.worldZ t0 ->
  Forall (fun p : Vec3.t => Heightmap.sampleHeightWorld t0 (Vec3.x p) (Vec3.z p) == Vec3.y p)
         (Heightmap.mesh_positions t0).
Proof.
  intros HW HH HX HZ. unfold Heightmap.mesh_positions. cbv zeta.
  apply Forall_bind, Forall_forall. intros z Hz. apply elem_of_seqZ in Hz.
  unfold compose. apply Forall_bind, Forall_forall. intros x Hx.
  apply elem_of_seqZ in Hx. unfold compose.
  constructor; [| constructor]. cbn [Vec3.x Vec3.y Vec3.z].
  unfold Heightmap.sampleHeightWorld. cbv zeta.
  pose proof (grid_fraction (Heightmap.worldX t0) (Heightmap.hmW t0) x HX HW ltac:(lia))
    as Ex.
  pose proof (grid_fraction (Heightmap.worldZ t0) (Heightmap.hmH t0) z HZ HH ltac:(lia))
    as Ez.
  set (X := fclamp _ 0 1 * float_of_int (Heightmap.hmW t0 - 1)) in *.
  set (Z0 := fclamp _ 0 1 * float_of_int (Heightmap.hmH t0 - 1)) in *.
  assert (Fx : int_of_float (floorf X) = x).
  { unfold floorf. rewrite int_of_float_inject, Ex. apply Qfloor_Z. }
  assert (Fz : int_of_float (floorf Z0) = z).
  { unfold floorf. rewrite int_of_float_inject, Ez. apply Qfloor_Z. }
  rewrite Fx, Fz.
  assert (Tx : X - float_of_int x == 0) by (unfold float_of_int; rewrite Ex; ring).
  assert (Tz : Z0 - float_of_int z == 0) by (unfold float_of_int; rewrite Ez; ring).
  set (tx := X - float_of_int x) in *. set (tz := Z0 - float_of_int z) in *.
  rewrite Tx, Tz. ring.
Qed.


Lemma loadRAW_records_heights_witness :
  let t0 := Heightmap.init_members 3 2 20 10 40 0 Heightmap.new in
  let r8 := Heightmap.loadRAW8 (Some example_heightmap_file) t0 in
  length (Heightmap.heights t0) = Z.to_nat (Heightmap.hmW t0 * Heightmap.hmH t0)
  /\ fst r8 = true
  /\ Forall (fun h => Heightmap.minHeightWorld (snd r8) <= h
                      /\ h <= Heightmap.maxHeightWorld (snd r8))
            (Heightmap.heights (snd r8)).
Proof.
  intros t0 r8.
  assert (H : length (Heightmap.heights t0)
              = Z.to_nat (Heightmap.hmW t0 * Heightmap.hmH t0)) by reflexivity.
  split; [exact H |]. split; [reflexivity |].
  pose proof (proj1 (loadRAW_records_heights (Some example_heightmap_file) t0 H)) as T.
  change (fst (Heightmap.loadRAW8 (Some example_heightmap_file) t0)) with true in T.
  cbv iota in T. destruct T as (content & _ & _ & Hall). exact Hall.
Defined.

Lemma terrain_mesh_on_surface_witness :
  (2 <= Heightmap.hmW example_heightmap)%Z /\ (2 <= Heightmap.hmH example_heightmap)%Z
  /\ 0 < Heightmap.worldX example_heightmap /\ 0 < Heightmap.worldZ example_heightmap
  /\ length (Heightmap.mesh_positions example_heightmap) = 6%nat
  /\ Forall (fun p : Vec3.t =>
               Heightmap.sampleHeightWorld example_heightmap (Vec3.x p) (Vec3.z p)
               == Vec3.y p)
            (Heightmap.mesh_positions example_heightmap).
Proof.
  assert (H1 : (2 <= Heightmap.hmW example_heightmap)%Z) by (vm_compute; discriminate).
  assert (H2 : (2 <= Heightmap.hmH example_heightmap)%Z) by (vm_compute; discriminate).
  assert (H3 : 0 < Heightmap.worldX example_heightmap) by (vm_compute; reflexivity).
  assert (H4 : 0 < Heightmap.worldZ example_heightmap) by (vm_compute; reflexivity).
  split; [exact H1 |]. split; [exact H2 |]. split; [exact H3 |]. split; [exact H4 |].
  split; [reflexivity |].
  exact (terrain_mesh_on_surface example_heightmap H1 H2 H3 H4).
Defined.

(** ** Rocks.h and HybridGrassField.h: the draw calls *)

Lemma rocks_draw_state (has_mesh : Z -> Z -> bool) (D : Device) (cam : Vec3.t)
    (s : Rocks.t) :
  fst (RocksExt.draw has_mesh D cam s) = Rocks.draw D cam s.
Proof.
  unfold RocksExt.draw, Rocks.draw. destruct (Rocks.rockTypes s); [reflexivity |].
  cbn [fst]. now destruct (Rocks.performChunkCulling D cam s).
Qed.



Lemma grass_draw_state (has_mesh : Z -> Z -> bool) (D : Device) (cam : Vec3.t)
    (s : HybridGrassField.t) :
  fst (HybridGrassFieldExt.draw has_mesh D cam s) = HybridGrassField.draw D cam s.
Proof.
  unfold HybridGrassFieldExt.draw, HybridGrassField.draw.
  destruct (HybridGrassField.groups s); [reflexivity |].
  cbn [fst]. now destruct (HybridGrassField.performChunkCulling D cam s).
Qed.



(** ** Rocks.h and HybridGrassField.h: the chunk grid *)

Lemma Qceiling_pos (q : Q) : 0 < q -> (1 <= Qceiling q)%Z.
Proof.
  intros H. pose proof (Qle_ceiling q) as Hc.
  assert (Hz : (0 < Qceiling q)%Z).
  { rewrite Zlt_Qlt. change (inject_Z 0) with 0. lra. }
  lia.
Qed.

Lemma numChunks_pos (w cs : Q) :
  0 < cs -> 0 < w -> (1 <= int_of_float (ceilf (w / cs)))%Z.
Proof.
  intros Hcs Hw. unfold ceilf. rewrite int_of_float_inject.
  apply Qceiling_pos. apply Qlt_shift_div_l; [exact Hcs | lra].
Qed.

(** Along one axis: the clamped chunk coordinate of a point of the
    terrain is a chunk whose extent holds the point. *)
Lemma chunk_axis (w cs x : Q) :
  0 < cs -> 0 < w -> - (w * (1 # 2)) <= x -> x <= w * (1 # 2) ->
  let c := iclamp (int_of_float ((x + w * (1 # 2)) / cs)) 0
                  (int_of_float (ceilf (w / cs)) - 1) in
  let centre := float_of_int c * cs - w * (1 # 2) + cs * (1 # 2) in
  centre - cs * (1 # 2) <= x /\ x <= centre + cs * (1 # 2).
Proof.
  intros Hcs Hw Hlo Hhi. cbv zeta.
  pose proof (numChunks_pos w cs Hcs Hw) as Hn.
  set (q := (x + w * (1 # 2)) / cs).
  assert (Hq : q * cs == x + w * (1 # 2)) by (unfold q; field; lra).
  assert (H0 : 0 <= q) by (apply Qdiv_nonneg; lra).
  rewrite (int_of_float_nonneg _ H0).
  pose proof (Qfloor_nonneg q H0) as Hk0.
  pose proof (Qfloor_le q) as Hfl. pose proof (Qlt_floor q) as Hfu.
  revert Hn. unfold ceilf. rewrite int_of_float_inject. intros Hn.
  pose proof (Qle_ceiling (w / cs)) as Hceil.
  assert (Hwn : w <= inject_Z (Qceiling (w / cs)) * cs).
  { assert (E : w / cs * cs == w) by (field; lra).
    pose proof (Qmult_le_compat_r _ _ cs Hceil (Qlt_le_weak _ _ Hcs)). lra. }
  unfold iclamp, float_of_int.
  destruct (Z.ltb_spec (Qfloor q) 0) as [| _]; [lia |].
  destruct (Z.ltb_spec (Qceiling (w / cs) - 1) (Qfloor q)) as [Hbig | Hsmall].
  - assert (Hge : inject_Z (Qceiling (w / cs)) <= q).
    { eapply Qle_trans; [| exact Hfl]. rewrite <- Zle_Qle. lia. }
    pose proof (Qmult_le_compat_r _ _ cs Hge (Qlt_le_weak _ _ Hcs)) as Hm.
    assert (E : inject_Z (Qceiling (w / cs) - 1) == inject_Z (Qceiling (w / cs)) - 1).
    { unfold Z.sub. rewrite inject_Z_plus. reflexivity. }
    rewrite E. split; lra.
  - pose proof (Qmult_le_compat_r _ _ cs Hfl (Qlt_le_weak _ _ Hcs)) as Hm1.
    assert (Hm2 : q * cs <= inject_Z (Qfloor q + 1) * cs).
    { apply Qmult_le_compat_r; lra. }
    rewrite inject_Z_plus in Hm2. change (inject_Z 1) with 1 in Hm2.
    split; lra.
Qed.

Lemma lookup_bind_const {A B : Type} (h : A -> list B) (n : nat) (l : list A)
    (i j : nat) (a : A) :
  (forall x, length (h x) = n) -> l !! i = Some a -> (j < n)%nat ->
  (l ≫= h) !! (i * n + j)%nat = h a !! j.
Proof.
  intros Hh. revert i. induction l as [| x l IH]; intros i Hi Hj; [discriminate |].
  rewrite bind_cons. destruct i as [| i].
  - injection Hi as ->. cbn [Nat.mul Nat.add]. apply lookup_app_l. rewrite Hh. exact Hj.
  - cbn [lookup list_lookup] in Hi. rewrite lookup_app_r by (rewrite Hh; lia).
    rewrite Hh. replace (S i * n + j - n)%nat with (i * n + j)%nat by lia.
    now apply IH.
Qed.

Lemma lookup_row_major {A : Type} (f : Z -> Z -> A) (nz nx cz cx : Z) :
  (0 <= cz < nz)%Z -> (0 <= cx < nx)%Z ->
  (seqZ 0 nz ≫= fun cz => seqZ 0 nx ≫= fun cx => [f cz cx]) !! Z.to_nat (cz * nx + cx)
  = Some (f cz cx).
Proof.
  intros Hz Hx.
  replace (Z.to_nat (cz * nx + cx)) with (Z.to_nat cz * Z.to_nat nx + Z.to_nat cx)%nat
    by nia.
  rewrite (lookup_bind_const _ (Z.to_nat nx) _ _ _ cz).
  - replace (Z.to_nat cx) with (Z.to_nat cx * 1 + 0)%nat by lia.
    rewrite (lookup_bind_const _ 1%nat _ _ _ cx); [reflexivity | reflexivity | | lia].
    rewrite lookup_seqZ. split; lia.
  - intros x. rewrite (length_bind_const _ _ 1%nat) by reflexivity.
    rewrite length_seqZ. lia.
  - rewrite lookup_seqZ. split; lia.
  - lia.
Qed.

Lemma length_row_major {A : Type} (f : Z -> Z -> A) (nz nx : Z) :
  (0 <= nz)%Z -> (0 <= nx)%Z ->
  length (seqZ 0 nz ≫= fun cz => seqZ 0 nx ≫= fun cx => [f cz cx]) = Z.to_nat (nz * nx).
Proof.
  intros Hz Hx. rewrite (length_bind_const _ _ (Z.to_nat nx)).
  - rewrite length_seqZ. nia.
  - intros a _. rewrite (length_bind_const _ _ 1%nat) by reflexivity.
    rewrite length_seqZ. lia.
Qed.

Lemma rock_chunk_index_range (tx tz cs : Q) (p : Vec3.t) :
  0 < cs -> 0 < tx -> 0 < tz ->
  (0 <= Rocks.chunk_index tx tz cs p
   < Z.of_nat (length (Rocks.empty_chunks tx tz cs)))%Z.
Proof.
  intros Hcs Hx Hz. unfold Rocks.chunk_index, Rocks.empty_chunks. cbv zeta.
  pose proof (numChunks_pos tx cs Hcs Hx) as Hnx.
  pose proof (numChunks_pos tz cs Hcs Hz) as Hnz.
  rewrite length_row_major by lia.
  set (nx := int_of_float (ceilf (tx / cs))) in *.
  set (nz := int_of_float (ceilf (tz / cs))) in *.
  pose proof (iclamp_range (int_of_float ((Vec3.x p + tx * (1 # 2)) / cs)) 0 (nx - 1)).
  pose proof (iclamp_range (int_of_float ((Vec3.z p + tz * (1 # 2)) / cs)) 0 (nz - 1)).
  nia.
Qed.

Lemma rock_chunk_centre (tx tz cs : Q) (p : Vec3.t) (c : RockChunk.t) :
  0 < cs -> 0 < tx -> 0 < tz -> on_terrain tx tz p ->
  Rocks.empty_chunks tx tz cs !! Z.to_nat (Rocks.chunk_index tx tz cs p) = Some c ->
  within_chunk cs (RockChunk.centerPos c) p.
Proof.
  intros Hcs Hx Hz [[Hx1 Hx2] [Hz1 Hz2]].
  unfold Rocks.chunk_index, Rocks.empty_chunks. cbv zeta.
  pose proof (numChunks_pos tx cs Hcs Hx) as Hnx.
  pose proof (numChunks_pos tz cs Hcs Hz) as Hnz.
  pose proof (chunk_axis tx cs (Vec3.x p) Hcs Hx Hx1 Hx2) as Hax.
  pose proof (chunk_axis tz cs (Vec3.z p) Hcs Hz Hz1 Hz2) as Haz.
  cbv zeta in Hax, Haz.
  set (nx := int_of_float (ceilf (tx / cs))) in *.
  set (nz := int_of_float (ceilf (tz / cs))) in *.
  pose proof (iclamp_range (int_of_float ((Vec3.x p + tx * (1 # 2)) / cs)) 0 (nx - 1)).
  pose proof (iclamp_range (int_of_float ((Vec3.z p + tz * (1 # 2)) / cs)) 0 (nz - 1)).
  rewrite lookup_row_major by lia. intros [= <-].
  unfold within_chunk. cbn [RockChunk.centerPos Vec3.x Vec3.z].
  split; assumption.
Qed.

Lemma rock_alter_centres (inst : RockInstance.t) (k : nat) (chunks : list RockChunk.t) :
  map RockChunk.centerPos (alter (Rocks.add_to_chunk inst) k chunks)
  = map RockChunk.centerPos chunks.
Proof.
  revert k. induction chunks as [| c chunks IH]; intros k; [reflexivity |].
  destruct k as [| k]; cbn [alter list_alter map]; [reflexivity |].
  f_equal. apply IH.
Qed.

Lemma rock_alter_instances (inst : RockInstance.t) (k : nat) (chunks : list RockChunk.t) :
  (k < length chunks)%nat ->
  concat (map RockChunk.instances (alter (Rocks.add_to_chunk inst) k chunks))
  ≡ₚ concat (map RockChunk.instances chunks) ++ [inst].
Proof.
  revert k. induction chunks as [| c chunks IH]; intros k Hk; [cbn in Hk; lia |].
  destruct k as [| k]; cbn [alter list_alter map concat].
  - unfold Rocks.add_to_chunk. cbn [RockChunk.instances].
    rewrite <- !app_assoc. apply Permutation_app_head, Permutation_app_comm.
  - cbn [length] in Hk. rewrite (IH k) by lia. now rewrite app_assoc.
Qed.

Lemma rock_organize_perm (tx tz cs : Q) (l : list RockInstance.t)
    (chunks : list RockChunk.t) :
  0 < cs -> 0 < tx -> 0 < tz ->
  length chunks = length (Rocks.empty_chunks tx tz cs) ->
  concat (map RockChunk.instances (foldl (Rocks.assign_chunk tx tz cs) chunks l))
  ≡ₚ concat (map RockChunk.instances chunks) ++ l.
Proof.
  intros Hcs Hx Hz. revert chunks.
  induction l as [| i l IH]; intros chunks Hlen; cbn [foldl].
  - now rewrite app_nil_r.
  - pose proof (rock_chunk_index_range tx tz cs (RockInstance.position i) Hcs Hx Hz) as Hr.
    unfold Rocks.assign_chunk at 2. cbv zeta.
    destruct (Z.ltb_spec (Rocks.chunk_index tx tz cs (RockInstance.position i)) 0);
      [lia |].
    rewrite IH by (now rewrite length_alter).
    rewrite rock_alter_instances by lia.
    now rewrite <- app_assoc.
Qed.

Lemma rock_organize_within (tx tz cs : Q) (l : list RockInstance.t)
    (chunks : list RockChunk.t) :
  0 < cs -> 0 < tx -> 0 < tz ->
  Forall (fun i => on_terrain tx tz (RockInstance.position i)) l ->
  map RockChunk.centerPos chunks
  = map RockChunk.centerPos (Rocks.empty_chunks tx tz cs) ->
  Forall (fun c => Forall (fun i => within_chunk cs (RockChunk.centerPos c)
                                      (RockInstance.position i))
                          (RockChunk.instances c)) chunks ->
  Forall (fun c => Forall (fun i => within_chunk cs (RockChunk.centerPos c)
                                      (RockInstance.position i))
                          (RockChunk.instances c))
         (foldl (Rocks.assign_chunk tx tz cs) chunks l).
Proof.
  intros Hcs Hx Hz Hl. revert chunks.
  induction Hl as [| i l Hi _ IH]; intros chunks Hc Hin; cbn [foldl]; [exact Hin |].
  unfold Rocks.assign_chunk at 2. cbv zeta.
  destruct (Z.ltb_spec (Rocks.chunk_index tx tz cs (RockInstance.position i)) 0);
    [now apply IH |].
  apply IH; [now rewrite rock_alter_centres |].
  apply Forall_alter; [exact Hin |].
  intros c Hk Hcin. unfold Rocks.add_to_chunk.
  cbn [RockChunk.centerPos RockChunk.instances].
  apply Forall_app. split; [exact Hcin |]. constructor; [| constructor].
  assert (Hcentre : map RockChunk.centerPos chunks
                      !! Z.to_nat (Rocks.chunk_index tx tz cs (RockInstance.position i))
                    = Some (RockChunk.centerPos c))
    by (now rewrite lookup_map, Hk).
  rewrite Hc, lookup_map in Hcentre.
  destruct (Rocks.empty_chunks tx tz cs
              !! Z.to_nat (Rocks.chunk_index tx tz cs (RockInstance.position i)))
    as [c0 |] eqn:H0; [| discriminate].
  injection Hcentre as <-.
  now apply (rock_chunk_centre tx tz cs).
Qed.

(** With a positive chunk size and positive terrain sizes
    [Rocks::organizeIntoChunks] loses and duplicates nothing: the
    chunks together hold exactly the instances of the master list. *)
Theorem rocks_chunks_partition (tx tz cs : Q) (all : list RockInstance.t) :
  0 < cs -> 0 < tx -> 0 < tz ->
  concat (map RockChunk.instances (Rocks.organizeIntoChunks tx tz cs all)) ≡ₚ all.
Proof.
  intros Hcs Hx Hz. unfold Rocks.organizeIntoChunks.
  rewrite rock_organize_perm by (try assumption; reflexivity).
  now rewrite (concat_instances_nil _ (empty_chunks_empty tx tz cs)).
Qed.

(** Every instance that lies on the terrain is stored by
    [Rocks::organizeIntoChunks] in a chunk whose centre is at most half
    a chunk away from it along each axis. *)
Theorem rocks_chunks_contain (tx tz cs : Q) (all : list RockInstance.t) :
  0 < cs -> 0 < tx -> 0 < tz ->
  Forall (fun i => on_terrain tx tz (RockInstance.position i)) all ->
  Forall (fun c => Forall (fun i => within_chunk cs (RockChunk.centerPos c)
                                      (RockInstance.position i))
                          (RockChunk.instances c))
         (Rocks.organizeIntoChunks tx tz cs all).
Proof.
  intros Hcs Hx Hz Hall. unfold Rocks.organizeIntoChunks.
  apply rock_organize_within; try assumption; [reflexivity |].
  eapply Forall_impl; [apply empty_chunks_empty |].
  intros c Hc. cbn in Hc. rewrite Hc. constructor.
Qed.

Lemma grass_chunk_index_range (tx tz cs : Q) (p : Vec3.t) :
  0 < cs -> 0 < tx -> 0 < tz ->
  (0 <= HybridGrassField.chunk_index tx tz cs p
   < Z.of_nat (length (HybridGrassField.empty_chunks tx tz cs)))%Z.
Proof.
  intros Hcs Hx Hz. unfold HybridGrassField.chunk_index, HybridGrassField.empty_chunks. cbv zeta.
  pose proof (numChunks_pos tx cs Hcs Hx) as Hnx.
  pose proof (numChunks_pos tz cs Hcs Hz) as Hnz.
  rewrite length_row_major by lia.
  set (nx := int_of_float (ceilf (tx / cs))) in *.
  set (nz := int_of_float (ceilf (tz / cs))) in *.
  pose proof (iclamp_range (int_of_float ((Vec3.x p + tx * (1 # 2)) / cs)) 0 (nx - 1)).
  pose proof (iclamp_range (int_of_float ((Vec3.z p + tz * (1 # 2)) / cs)) 0 (nz - 1)).
  nia.
Qed.

Lemma grass_chunk_centre (tx tz cs : Q) (p : Vec3.t) (c : GrassChunk.t) :
  0 < cs -> 0 < tx -> 0 < tz -> on_terrain tx tz p ->
  HybridGrassField.empty_chunks tx tz cs !! Z.to_nat (HybridGrassField.chunk_index tx tz cs p) = Some c ->
  within_chunk cs (GrassChunk.centerPos c) p.
Proof.
  intros Hcs Hx Hz [[Hx1 Hx2] [Hz1 Hz2]].
  unfold HybridGrassField.chunk_index, HybridGrassField.empty_chunks. cbv zeta.
  pose proof (numChunks_pos tx cs Hcs Hx) as Hnx.
  pose proof (numChunks_pos tz cs Hcs Hz) as Hnz.
  pose proof (chunk_axis tx cs (Vec3.x p) Hcs Hx Hx1 Hx2) as Hax.
  pose proof (chunk_axis tz cs (Vec3.z p) Hcs Hz Hz1 Hz2) as Haz.
  cbv zeta in Hax, Haz.
  set (nx := int_of_float (ceilf (tx / cs))) in *.
  set (nz := int_of_float (ceilf (tz / cs))) in *.
  pose proof (iclamp_range (int_of_float ((Vec3.x p + tx * (1 # 2)) / cs)) 0 (nx - 1)).
  pose proof (iclamp_range (int_of_float ((Vec3.z p + tz * (1 # 2)) / cs)) 0 (nz - 1)).
  rewrite lookup_row_major by lia. intros [= <-].
  unfold within_chunk. cbn [GrassChunk.centerPos Vec3.x Vec3.z].
  split; assumption.
Qed.

Lemma grass_alter_centres (inst : GrassInstance.t) (k : nat) (chunks : list GrassChunk.t) :
  map GrassChunk.centerPos (alter (HybridGrassField.add_to_chunk inst) k chunks)
  = map GrassChunk.centerPos chunks.
Proof.
  revert k. induction chunks as [| c chunks IH]; intros k; [reflexivity |].
  destruct k as [| k]; cbn [alter list_alter map]; [reflexivity |].
  f_equal. apply IH.
Qed.

Lemma grass_alter_instances (inst : GrassInstance.t) (k : nat) (chunks : list GrassChunk.t) :
  (k < length chunks)%nat ->
  concat (map GrassChunk.instances (alter (HybridGrassField.add_to_chunk inst) k chunks))
  ≡ₚ concat (map GrassChunk.instances chunks) ++ [inst].
Proof.
  revert k. induction chunks as [| c chunks IH]; intros k Hk; [cbn in Hk; lia |].
  destruct k as [| k]; cbn [alter list_alter map concat].
  - unfold HybridGrassField.add_to_chunk. cbn [GrassChunk.instances].
    rewrite <- !app_assoc. apply Permutation_app_head, Permutation_app_comm.
  - cbn [length] in Hk. rewrite (IH k) by lia. now rewrite app_assoc.
Qed.

Lemma grass_organize_perm (tx tz cs : Q) (l : list GrassInstance.t)
    (chunks : list GrassChunk.t) :
  0 < cs -> 0 < tx -> 0 < tz ->
  length chunks = length (HybridGrassField.empty_chunks tx tz cs) ->
  concat (map GrassChunk.instances (foldl (HybridGrassField.assign_chunk tx tz cs) chunks l))
  ≡ₚ concat (map GrassChunk.instances chunks) ++ l.
Proof.
  intros Hcs Hx Hz. revert chunks.
  induction l as [| i l IH]; intros chunks Hlen; cbn [foldl].
  - now rewrite app_nil_r.
  - pose proof (grass_chunk_index_range tx tz cs (GrassInstance.position i) Hcs Hx Hz) as Hr.
    unfold HybridGrassField.assign_chunk at 2. cbv zeta.
    destruct (Z.ltb_spec (HybridGrassField.chunk_index tx tz cs (GrassInstance.position i)) 0);
      [lia |].
    rewrite IH by (now rewrite length_alter).
    rewrite grass_alter_instances by lia.
    now rewrite <- app_assoc.
Qed.

Lemma grass_organize_within (tx tz cs : Q) (l : list GrassInstance.t)
    (chunks : list GrassChunk.t) :
  0 < cs -> 0 < tx -> 0 < tz ->
  Forall (fun i => on_terrain tx tz (GrassInstance.position i)) l ->
  map GrassChunk.centerPos chunks
  = map GrassChunk.centerPos (HybridGrassField.empty_chunks tx tz cs) ->
  Forall (fun c => Forall (fun i => within_chunk cs (GrassChunk.centerPos c)
                                      (GrassInstance.position i))
                          (GrassChunk.instances c)) chunks ->
  Forall (fun c => Forall (fun i => within_chunk cs (GrassChunk.centerPos c)
                                      (GrassInstance.position i))
                          (GrassChunk.instances c))
         (foldl (HybridGrassField.assign_chunk tx tz cs) chunks l).
Proof.
  intros Hcs Hx Hz Hl. revert chunks.
  induction Hl as [| i l Hi _ IH]; intros chunks Hc Hin; cbn [foldl]; [exact Hin |].
  unfold HybridGrassField.assign_chunk at 2. cbv zeta.
  destruct (Z.ltb_spec (HybridGrassField.chunk_index tx tz cs (GrassInstance.position i)) 0);
    [now apply IH |].
  apply IH; [now rewrite grass_alter_centres |].
  apply Forall_alter; [exact Hin |].
  intros c Hk Hcin. unfold HybridGrassField.add_to_chunk.
  cbn [GrassChunk.centerPos GrassChunk.instances].
  apply Forall_app. split; [exact Hcin |]. constructor; [| constructor].
  assert (Hcentre : map GrassChunk.centerPos chunks
                      !! Z.to_nat (HybridGrassField.chunk_index tx tz cs (GrassInstance.position i))
                    = Some (GrassChunk.centerPos c))
    by (now rewrite lookup_map, Hk).
  rewrite Hc, lookup_map in Hcentre.
  destruct (HybridGrassField.empty_chunks tx tz cs
              !! Z.to_nat (HybridGrassField.chunk_index tx tz cs (GrassInstance.position i)))
    as [c0 |] eqn:H0; [| discriminate].
  injection Hcentre as <-.
  now apply (grass_chunk_centre tx tz cs).
Qed.

(** With a positive chunk size and positive terrain sizes
    [HybridGrassField::organizeIntoChunks] loses and duplicates nothing: the
    chunks together hold exactly the instances of the master list. *)
Theorem grass_chunks_partition (tx tz cs : Q) (all : list GrassInstance.t) :
  0 < cs -> 0 < tx -> 0 < tz ->
  concat (map GrassChunk.instances (HybridGrassField.organizeIntoChunks tx tz cs all)) ≡ₚ all.
Proof.
  intros Hcs Hx Hz. unfold HybridGrassField.organizeIntoChunks.
  rewrite grass_organize_perm by (try assumption; reflexivity).
  now rewrite (grass_concat_instances_nil _ (grass_empty_chunks_empty tx tz cs)).
Qed.

(** Every instance that lies on the terrain is stored by
    [HybridGrassField::organizeIntoChunks] in a chunk whose centre is at most half
    a chunk away from it along each axis. *)
Theorem grass_chunks_contain (tx tz cs : Q) (all : list GrassInstance.t) :
  0 < cs -> 0 < tx -> 0 < tz ->
  Forall (fun i => on_terrain tx tz (GrassInstance.position i)) all ->
  Forall (fun c => Forall (fun i => within_chunk cs (GrassChunk.centerPos c)
                                      (GrassInstance.position i))
                          (GrassChunk.instances c))
         (HybridGrassField.organizeIntoChunks tx tz cs all).
Proof.
  intros Hcs Hx Hz Hall. unfold HybridGrassField.organizeIntoChunks.
  apply grass_organize_within; try assumption; [reflexivity |].
  eapply Forall_impl; [apply grass_empty_chunks_empty |].
  intros c Hc. cbn in Hc. rewrite Hc. constructor.
Qed.

(** The example rocks on the terrain of [Game.cpp], in chunks of 32. *)
Lemma rocks_chunks_partition_witness :
  0 < 32 /\ 0 < 300
  /\ concat (map RockChunk.instances (Rocks.organizeIntoChunks 300 300 32 example_rocks))
     ≡ₚ example_rocks.
Proof.
  assert (Hcs : 0 < 32) by reflexivity.
  assert (Ht : 0 < 300) by reflexivity.
  split; [exact Hcs |]. split; [exact Ht |].
  exact (rocks_chunks_partition 300 300 32 example_rocks Hcs Ht Ht).
Defined.

Lemma rocks_chunks_contain_witness :
  0 < 32 /\ 0 < 300
  /\ Forall (fun i => on_terrain 300 300 (RockInstance.position i)) example_rocks
  /\ Forall (fun c => Forall (fun i => within_chunk 32 (RockChunk.centerPos c)
                                         (RockInstance.position i))
                             (RockChunk.instances c))
            (Rocks.organizeIntoChunks 300 300 32 example_rocks).
Proof.
  assert (Hcs : 0 < 32) by reflexivity.
  assert (Ht : 0 < 300) by reflexivity.
  assert (Hall : Forall (fun i => on_terrain 300 300 (RockInstance.position i))
                        example_rocks).
  { repeat constructor; vm_compute; discriminate. }
  split; [exact Hcs |]. split; [exact Ht |]. split; [exact Hall |].
  exact (rocks_chunks_contain 300 300 32 example_rocks Hcs Ht Ht Hall).
Defined.

(** The example grass on the same terrain, in chunks of 16. *)
Lemma grass_chunks_partition_witness :
  0 < 16 /\ 0 < 300
  /\ concat (map GrassChunk.instances
               (HybridGrassField.organizeIntoChunks 300 300 16 example_grass))
     ≡ₚ example_grass.
Proof.
  assert (Hcs : 0 < 16) by reflexivity.
  assert (Ht : 0 < 300) by reflexivity.
  split; [exact Hcs |]. split; [exact Ht |].
  exact (grass_chunks_partition 300 300 16 example_grass Hcs Ht Ht).
Defined.

Lemma grass_chunks_contain_witness :
  0 < 16 /\ 0 < 300
  /\ Forall (fun i => on_terrain 300 300 (GrassInstance.position i)) example_grass
  /\ Forall (fun c => Forall (fun i => within_chunk 16 (GrassChunk.centerPos c)
                                         (GrassInstance.position i))
                             (GrassChunk.instances c))
            (HybridGrassField.organizeIntoChunks 300 300 16 example_grass).
Proof.
  assert (Hcs : 0 < 16) by reflexivity.
  assert (Ht : 0 < 300) by reflexivity.
  assert (Hall : Forall (fun i => on_terrain 300 300 (GrassInstance.position i))
                        example_grass).
  { repeat constructor; vm_compute; discriminate. }
  split; [exact Hcs |]. split; [exact Ht |]. split; [exact Hall |].
  exact (grass_chunks_contain 300 300 16 example_grass Hcs Ht Ht Hall).
Defined.

(** ** LOD.h: mesh simplification *)


Lemma intmap_find_Forall (R : Z -> Prop) (k v : Z) (m : IntMap.t) :
  Forall (fun kv => R (snd kv)) m -> IntMap.find k m = Some v -> R v.
Proof.
  induction 1 as [| [k' v'] m Hx _ IH]; cbn [IntMap.find]; [discriminate |].
  destruct (k' =? k)%Z; [| exact IH]. intros [= <-]. exact Hx.
Qed.


Section Cluster.
Variable cbrtf : Q -> Q.
Variable vertices : list STATIC_VERTEX.t.

Local Abbreviation n := (length vertices).





End Cluster.











